(** * Job matching engine: scoring, recommendation and match notification

    Shallow embedding of the scoring engine of [PROJECT/main.py]:
    [calculate_job_match_score], [get_job_recommendations],
    [create_notification] and [notify_matching_candidates], together with
    the Python arithmetic they rely on (binary64 floats for the experience
    thresholds and the skill ratio, [Decimal] for the salary band). *)

From Stdlib Require Import ZArith QArith Qround Qpower Qabs.
From Stdlib Require Import List Sorted Permutation String Ascii Bool Lia Lqa Psatz.
From Stdlib Require Import DecimalString DecimalPos DecimalZ SpecFloat.
Import ListNotations.

Local Open Scope Z_scope.

(* ===================================================================== *)
(** ** Python floats (IEEE 754 binary64, round to nearest, ties to even) *)
(* ===================================================================== *)

(** A finite double is modelled by the rational it denotes.  [fl] rounds a
    rational to the nearest number with a 53 bit significand, ties going to
    the even significand.  The exponent is not bounded: the model is exact
    for magnitudes in [2^-1022, 2^1024), which covers every value the
    scorer can build from database rows. *)
Module Binary64.

Local Open Scope Q_scope.

Definition pow2 (e : Z) : Q := (2 # 1) ^ e.

(** Nearest integer, ties to even. *)
Definition rne (x : Q) : Z :=
  let f := Qfloor x in
  match Qcompare (x - inject_Z f) (1 # 2) with
  | Lt => f
  | Gt => (f + 1)%Z
  | Eq => if Z.even f then f else (f + 1)%Z
  end.

(** The exponent [e] with [2^e <= x < 2^(e+1)], for [x > 0]. *)
Definition binade (x : Q) : Z :=
  let d := (Z.log2 (Qnum x) - Z.log2 (Zpos (Qden x)))%Z in
  if Qle_bool (pow2 d) x then d else (d - 1)%Z.

Definition round_pos (x : Q) : Q :=
  let sh := (52 - binade x)%Z in
  inject_Z (rne (x * pow2 sh)) * pow2 (- sh).

Definition fl (x : Q) : Q :=
  match Qcompare x 0 with
  | Eq => 0
  | Gt => round_pos x
  | Lt => - round_pos (- x)
  end.

(** [float(n)] for a Python int. *)
Definition float_of_int (n : Z) : Q := fl (inject_Z n).

(** [a / b] on Python ints: the correctly rounded quotient. *)
Definition int_truediv (a b : Z) : Q := fl (inject_Z a / inject_Z b).

(** [x * y] on floats. *)
Definition float_mul (x y : Q) : Q := fl (x * y).

(** [int(x)]: truncation towards zero. *)
Definition int_of_float (x : Q) : Z :=
  if Qle_bool 0 x then Qfloor x else Qceiling x.

(** [n >= x] for an int [n] and a float [x]: Python compares the exact
    values. *)
Definition int_ge_float (n : Z) (x : Q) : bool := Qle_bool x (inject_Z n).

(** The literals [0.7] and [0.5]. *)
Definition lit_0_7 : Q := fl (7 # 10).
Definition lit_0_5 : Q := fl (5 # 10).

End Binary64.

(** Stdlib's executable IEEE 754 specification, used to cross-check [fl]
    on concrete operands. *)
Module IEEE.

Definition of_int (n : Z) : spec_float := binary_normalize 53 1024 n 0 false.

Definition to_Q (f : spec_float) : Q :=
  match f with
  | S754_finite s m e =>
      (inject_Z (if s then Z.neg m else Z.pos m) * Binary64.pow2 e)%Q
  | _ => 0
  end.

(** [(m / t) * 50] and [req * 0.7] evaluated with [SFdiv] and [SFmul]. *)
Definition ratio_times_50 (m t : Z) : Q :=
  to_Q (SFmul 53 1024 (SFdiv 53 1024 (of_int m) (of_int t)) (of_int 50)).

Definition times_0_7 (req : Z) : Q :=
  to_Q (SFmul 53 1024 (of_int req) (SFdiv 53 1024 (of_int 7) (of_int 10))).

Definition agree_ratio (t : Z) : bool :=
  forallb (fun m =>
             Qeq_bool (ratio_times_50 m t)
               (Binary64.float_mul (Binary64.int_truediv m t)
                  (Binary64.float_of_int 50)))
          (map Z.of_nat (seq 0 (S (Z.to_nat t)))).

Definition agree_times_0_7 (req : Z) : bool :=
  Qeq_bool (times_0_7 req)
    (Binary64.float_mul (Binary64.float_of_int req) Binary64.lit_0_7).

End IEEE.

(* ===================================================================== *)
(** ** Python [Decimal] (the [Numeric(10, 2)] salary columns)            *)
(* ===================================================================== *)

Module PyDecimal.

(** A finite decimal: [dcoef * 10 ^ dexp]. *)
Record Decimal := mkDecimal { dcoef : Z; dexp : Z }.

(** Precision of the default context. *)
Definition context_prec : Z := 28.

Fixpoint ndigits_aux (fuel : nat) (c : Z) : Z :=
  match fuel with
  | O => 1
  | S f => if c <? 10 then 1 else 1 + ndigits_aux f (c / 10)
  end.

Definition ndigits (c : Z) : Z := ndigits_aux (Z.to_nat (Z.log2 c)) c.

(** [c / d] rounded to nearest, ties to even ([ROUND_HALF_EVEN]). *)
Definition div_half_even (c d : Z) : Z :=
  let q := c / d in
  match (2 * (c mod d)) ?= d with
  | Lt => q
  | Gt => q + 1
  | Eq => if Z.even q then q else q + 1
  end.

(** Rounding of an exact result to the context precision. *)
Definition dec_fix (d : Decimal) : Decimal :=
  let c := Z.abs (dcoef d) in
  if c <? 10 ^ context_prec then d
  else
    let k := ndigits c - context_prec in
    let c' := div_half_even c (10 ^ k) in
    if c' =? 10 ^ context_prec
    then mkDecimal (Z.sgn (dcoef d) * 10 ^ (context_prec - 1)) (dexp d + k + 1)
    else mkDecimal (Z.sgn (dcoef d) * c') (dexp d + k).

(** [a * b] *)
Definition dec_mul (a b : Decimal) : Decimal :=
  dec_fix (mkDecimal (dcoef a * dcoef b) (dexp a + dexp b)).

(** [a <= b]: comparisons are exact, whatever the context. *)
Definition dec_leb (a b : Decimal) : bool :=
  let e := Z.min (dexp a) (dexp b) in
  dcoef a * 10 ^ (dexp a - e) <=? dcoef b * 10 ^ (dexp b - e).

(** Truth value: a [Decimal] is falsy exactly when it is zero. *)
Definition dec_truthy (a : Decimal) : bool := negb (dcoef a =? 0).

Definition pow10 (e : Z) : Q := (10 # 1) ^ e.

(** The rational a decimal denotes. *)
Definition dec_to_Q (a : Decimal) : Q := inject_Z (dcoef a) * pow10 (dexp a).

(** Values of a [Numeric(10, 2)] column: two places, ten digits. *)
Definition numeric_10_2 (a : Decimal) : Prop :=
  dexp a = -2 /\ Z.abs (dcoef a) < 10 ^ 10.

End PyDecimal.

(* ===================================================================== *)
(** ** Python [str]                                                      *)
(* ===================================================================== *)

(** Strings are UTF-8 byte strings; a substring test on the bytes is a
    substring test on the code points. *)
Module PyStr.

Fixpoint startswith (s p : string) {struct p} : bool :=
  match p with
  | EmptyString => true
  | String c p' =>
      match s with
      | EmptyString => false
      | String d s' => Ascii.eqb c d && startswith s' p'
      end
  end.

(** [p in s] *)
Fixpoint contains (s p : string) : bool :=
  startswith s p ||
  match s with
  | EmptyString => false
  | String _ s' => contains s' p
  end.

(** Truth value of a string: non-empty. *)
Definition truthy (s : string) : bool :=
  match s with EmptyString => false | String _ _ => true end.

(** [str(n)] for an int. *)
Definition str_of_int (n : Z) : string := NilZero.string_of_int (Z.to_int n).

Definition dquote : string := String (ascii_of_nat 34) EmptyString.

(** Lower-casing of the ASCII letters; other bytes are kept. *)
Definition ascii_lower_char (c : ascii) : ascii :=
  let n := nat_of_ascii c in
  if ((65 <=? n) && (n <=? 90))%nat then ascii_of_nat (n + 32) else c.

Fixpoint ascii_lower (s : string) : string :=
  match s with
  | EmptyString => EmptyString
  | String c s' => String (ascii_lower_char c) (ascii_lower s')
  end.

End PyStr.

(* ===================================================================== *)
(** ** Models (the columns the engine reads)                             *)
(* ===================================================================== *)

(** [db.Integer] columns are [Z], the nullable [String] and
    [Numeric(10, 2)] columns are options.  [experience_years] and
    [experience_required] are always set (the forms store [int(...)] and the
    column default is 0), and so is [importance] (default ['Required']). *)

Module User.
Record t := mk { id : Z; is_active : bool }.
End User.

Module Company.
Record t := mk { id : Z; company_name : string }.
End Company.

Module CandidateProfile.
Record t := mk {
  id : Z;
  user_id : Z;
  experience_years : Z;
  location : option string;
  salary_expectation : option PyDecimal.Decimal
}.
End CandidateProfile.

Module JobPosting.
Record t := mk {
  id : Z;
  company_id : Z;
  title : string;
  location : option string;
  experience_required : Z;
  salary_min : option PyDecimal.Decimal;
  salary_max : option PyDecimal.Decimal;
  is_active : bool
}.
End JobPosting.

Module JobApplication.
Record t := mk { id : Z; job_id : Z; candidate_id : Z }.
End JobApplication.

Module CandidateSkill.
Record t := mk { id : Z; candidate_id : Z; skill_id : Z }.
End CandidateSkill.

(** The values of the [importance] enumeration:
    ['Required'], ['Preferred'], ['Nice to have']. *)
Inductive Importance := Required | Preferred | NiceToHave.

Module JobRequiredSkill.
Record t := mk {
  id : Z;
  job_id : Z;
  skill_id : Z;
  importance : Importance;
  min_years_experience : Z
}.
End JobRequiredSkill.

(** The values of the [notification_type] enumeration. *)
Inductive NotificationType :=
  application | message_type | exam | job_match | system.

Module Notification.
Record t := mk {
  user_id : Z;
  title : string;
  message : string;
  notification_type : NotificationType;
  action_url : option string
}.
End Notification.

(** The tables, each in the order its rows are returned by a query. *)
Record Database := mkDatabase {
  users : list User.t;
  companies : list Company.t;
  candidate_profiles : list CandidateProfile.t;
  job_postings : list JobPosting.t;
  job_applications : list JobApplication.t;
  candidate_skills : list CandidateSkill.t;
  job_required_skills : list JobRequiredSkill.t
}.

(** The database with another [job_required_skills] table. *)
Definition with_required_skills (db : Database)
  (rows : list JobRequiredSkill.t) : Database :=
  mkDatabase (users db) (companies db) (candidate_profiles db)
    (job_postings db) (job_applications db) (candidate_skills db) rows.

(** [Model.query.get(k)]: the row with primary key [k], if any. *)
Definition query_get {A : Type} (pk : A -> Z) (table : list A) (k : Z)
  : option A :=
  find (fun r => pk r =? k) table.

(** [x in l] on a list of ints. *)
Definition py_in (x : Z) (l : list Z) : bool := existsb (Z.eqb x) l.

(* ===================================================================== *)
(** ** The notification sink and the session                            *)
(* ===================================================================== *)

Inductive LogRecord :=
| LogInfo (msg : string)
| LogError (msg : string).

(** What the notifier runs in: the tables it reads, the notification table
    and the session it writes through, the log, and the behaviour of the
    store: [commit_fault k] is the exception raised by the [k]-th commit,
    if that commit fails. *)
Record World := mkWorld {
  database : Database;
  notifications : list Notification.t;
  session_new : list Notification.t;
  logger : list LogRecord;
  commits : nat;
  commit_fault : nat -> option string
}.

(** A call either returns or raises an exception (carried as its text). *)
Inductive Outcome (A : Type) :=
| Returned (a : A) (w : World)
| Raised (e : string) (w : World).
Arguments Returned {A} a w.
Arguments Raised {A} e w.

Definition M (A : Type) := World -> Outcome A.

Definition ret {A : Type} (a : A) : M A := fun w => Returned a w.

Definition bind {A B : Type} (m : M A) (k : A -> M B) : M B :=
  fun w =>
    match m w with
    | Returned a w' => k a w'
    | Raised e w' => Raised e w'
    end.

Notation "m1 ;; m2" := (bind m1 (fun _ => m2))
  (at level 61, right associativity).

(** [try: body except Exception as e: handler(e)] *)
Definition try_except {A : Type} (body : M A) (handler : string -> M A) : M A :=
  fun w =>
    match body w with
    | Returned a w' => Returned a w'
    | Raised e w' => handler e w'
    end.

(** [for x in l: body(x)] *)
Fixpoint for_each {A : Type} (l : list A) (body : A -> M unit) : M unit :=
  match l with
  | [] => ret tt
  | x :: l' => body x ;; for_each l' body
  end.

(** [db.session.add(notification)] *)
Definition db_session_add (n : Notification.t) : M unit :=
  fun w =>
    Returned tt
      (mkWorld (database w) (notifications w) (session_new w ++ [n])
         (logger w) (commits w) (commit_fault w)).

(** [db.session.commit()]: writes the pending rows, or raises. *)
Definition db_session_commit : M unit :=
  fun w =>
    match commit_fault w (commits w) with
    | None =>
        Returned tt
          (mkWorld (database w) (notifications w ++ session_new w) []
             (logger w) (S (commits w)) (commit_fault w))
    | Some e =>
        Raised e
          (mkWorld (database w) (notifications w) (session_new w)
             (logger w) (S (commits w)) (commit_fault w))
    end.

(** [db.session.rollback()]: drops the pending rows. *)
Definition db_session_rollback : M unit :=
  fun w =>
    Returned tt
      (mkWorld (database w) (notifications w) []
         (logger w) (commits w) (commit_fault w)).

Definition log_record (r : LogRecord) : M unit :=
  fun w =>
    Returned tt
      (mkWorld (database w) (notifications w) (session_new w)
         (logger w ++ [r]) (commits w) (commit_fault w)).

Definition logger_info (msg : string) : M unit := log_record (LogInfo msg).
Definition logger_error (msg : string) : M unit := log_record (LogError msg).

Definition created_text (user_id : Z) (title : string) : string :=
  ("Notification created for user " ++ PyStr.str_of_int user_id
     ++ ": " ++ title)%string.

Definition error_text (e : string) : string :=
  ("Error creating notification: " ++ e)%string.

(** [create_notification(user_id, title, message, notification_type,
    action_url)] *)
Definition create_notification (user_id : Z) (title message : string)
  (notification_type : NotificationType) (action_url : option string)
  : M unit :=
  try_except
    (let notification :=
       Notification.mk user_id title message notification_type action_url in
     db_session_add notification ;;
     db_session_commit ;;
     logger_info (created_text user_id title))
    (fun e =>
       db_session_rollback ;;
       logger_error (error_text e)).

(** [url_for('job_details', job_id=job_id)], for the route
    ['/job/<int:job_id>']. *)
Definition url_for_job_details (job_id : Z) : string :=
  ("/job/" ++ PyStr.str_of_int job_id)%string.

Definition match_title : string := "New Job Match!".

Definition match_message (job : JobPosting.t) (match_score : Z) : string :=
  ("A new job " ++ PyStr.dquote ++ JobPosting.title job ++ PyStr.dquote
     ++ " matches your profile with " ++ PyStr.str_of_int match_score
     ++ "% compatibility!")%string.

(* ===================================================================== *)
(** ** Sorting and the recommendation entries                           *)
(* ===================================================================== *)

(** [list.sort(key=..., reverse=True)]: a stable sort into descending order
    of the key.  The output of a stable sort is determined by its input, so
    insertion sort stands for the library's merge sort. *)
Fixpoint insert_desc {A : Type} (key : A -> Z) (x : A) (l : list A) : list A :=
  match l with
  | [] => [x]
  | y :: l' => if key y <=? key x then x :: y :: l' else y :: insert_desc key x l'
  end.

Fixpoint sort_desc {A : Type} (key : A -> Z) (l : list A) : list A :=
  match l with
  | [] => []
  | x :: l' => insert_desc key x (sort_desc key l')
  end.

(** [a] may stand before [b] in a list in descending order of [key]. *)
Definition desc {A : Type} (key : A -> Z) (a b : A) : Prop := key b <= key a.

(** An entry of [job_matches]. *)
Record JobMatch := mkJobMatch {
  job : JobPosting.t;
  company : Company.t;
  match_score : Z
}.

(* ===================================================================== *)
(** ** The scorer                                                        *)
(* ===================================================================== *)

Section Engine.

(** [str.lower], a total function on strings. *)
Variable str_lower : string -> string.

Definition max_score : Z := 100.

(** Experience match (30 points). *)
Definition experience_points
  (candidate : CandidateProfile.t) (job : JobPosting.t) : Z :=
  let have := CandidateProfile.experience_years candidate in
  let req := JobPosting.experience_required job in
  if have >=? req then 30
  else if Binary64.int_ge_float have
            (Binary64.float_mul (Binary64.float_of_int req) Binary64.lit_0_7)
       then 20
  else if Binary64.int_ge_float have
            (Binary64.float_mul (Binary64.float_of_int req) Binary64.lit_0_5)
       then 10
  else 0.

Definition weight (imp : Importance) : Z :=
  match imp with
  | Required => 3
  | Preferred => 2
  | NiceToHave => 1
  end.

(** One turn of the loop over [required_skills]; the state is
    [(matched_skills, total_weight)]. *)
Definition skills_step (candidate_skill_ids : list Z)
  (st : Z * Z) (req_skill : JobRequiredSkill.t) : Z * Z :=
  let '(matched_skills, total_weight) := st in
  let w := weight (JobRequiredSkill.importance req_skill) in
  let total_weight := total_weight + w in
  if py_in (JobRequiredSkill.skill_id req_skill) candidate_skill_ids
  then (matched_skills + w, total_weight)
  else (matched_skills, total_weight).

Definition skills_loop (candidate_skill_ids : list Z)
  (required_skills : list JobRequiredSkill.t) : Z * Z :=
  fold_left (skills_step candidate_skill_ids) required_skills (0, 0).

Definition required_skills_of (db : Database) (job_id : Z)
  : list JobRequiredSkill.t :=
  filter (fun r => JobRequiredSkill.job_id r =? job_id) (job_required_skills db).

Definition candidate_skill_ids_of (db : Database) (candidate_id : Z) : list Z :=
  map CandidateSkill.skill_id
    (filter (fun cs => CandidateSkill.candidate_id cs =? candidate_id)
       (candidate_skills db)).

(** [int((matched_skills / total_weight) * 50)] *)
Definition ratio_points (matched_skills total_weight : Z) : Z :=
  Binary64.int_of_float
    (Binary64.float_mul
       (Binary64.int_truediv matched_skills total_weight)
       (Binary64.float_of_int 50)).

(** Skills match (50 points). *)
Definition skills_points (db : Database) (candidate_id job_id : Z) : Z :=
  let required_skills := required_skills_of db job_id in
  let candidate_skill_ids := candidate_skill_ids_of db candidate_id in
  match required_skills with
  | [] => 25
  | _ :: _ =>
      let '(matched_skills, total_weight) :=
        skills_loop candidate_skill_ids required_skills in
      if 0 <? total_weight
      then ratio_points matched_skills total_weight
      else 0
  end.

(** Truth value of an optional string column: neither [None] nor empty. *)
Definition location_truthy (l : option string) : bool :=
  match l with
  | Some s => PyStr.truthy s
  | None => false
  end.

Definition location_value (l : option string) : string :=
  match l with
  | Some s => s
  | None => EmptyString
  end.

(** Location match (10 points). *)
Definition location_points
  (candidate : CandidateProfile.t) (job : JobPosting.t) : Z :=
  if location_truthy (CandidateProfile.location candidate)
     && location_truthy (JobPosting.location job)
  then
    let cl := str_lower (location_value (CandidateProfile.location candidate)) in
    let jl := str_lower (location_value (JobPosting.location job)) in
    if PyStr.contains jl cl || PyStr.contains cl jl then 10 else 5
  else 0.

(** Truth value of an optional [Decimal] column: neither [None] nor zero. *)
Definition decimal_truthy (d : option PyDecimal.Decimal) : bool :=
  match d with
  | Some x => PyDecimal.dec_truthy x
  | None => false
  end.

(** [Decimal('1.2')] *)
Definition multiplier : PyDecimal.Decimal := PyDecimal.mkDecimal 12 (-1).

(** Salary expectation match (10 points). *)
Definition salary_points
  (candidate : CandidateProfile.t) (job : JobPosting.t) : Z :=
  match CandidateProfile.salary_expectation candidate,
        JobPosting.salary_min job, JobPosting.salary_max job with
  | Some expectation, Some lo, Some hi =>
      if PyDecimal.dec_truthy expectation
         && PyDecimal.dec_truthy lo && PyDecimal.dec_truthy hi
      then
        if PyDecimal.dec_leb lo expectation && PyDecimal.dec_leb expectation hi
        then 10
        else if PyDecimal.dec_leb expectation (PyDecimal.dec_mul hi multiplier)
        then 5
        else 0
      else 0
  | _, _, _ => 0
  end.

(** [calculate_job_match_score(candidate_id, job_id)] *)
Definition calculate_job_match_score
  (db : Database) (candidate_id job_id : Z) : Z :=
  match query_get CandidateProfile.id (candidate_profiles db) candidate_id,
        query_get JobPosting.id (job_postings db) job_id with
  | Some candidate, Some job =>
      let score := 0 in
      let score := score + experience_points candidate job in
      let score := score + skills_points db candidate_id job_id in
      let score := score + location_points candidate job in
      let score := score + salary_points candidate job in
      Z.min score max_score
  | _, _ => 0
  end.

(* ===================================================================== *)
(** ** Recommendations                                                   *)
(* ===================================================================== *)

Definition applied_job_ids (db : Database) (candidate_id : Z) : list Z :=
  map JobApplication.job_id
    (filter (fun a => JobApplication.candidate_id a =? candidate_id)
       (job_applications db)).

(** The join of [JobPosting] with [Company], filtered on active postings the
    candidate has not applied to. *)
Definition available_jobs (db : Database) (candidate_id : Z)
  : list (JobPosting.t * Company.t) :=
  flat_map
    (fun j =>
       if JobPosting.is_active j
          && negb (py_in (JobPosting.id j) (applied_job_ids db candidate_id))
       then map (fun c => (j, c))
              (filter (fun c => JobPosting.company_id j =? Company.id c)
                 (companies db))
       else [])
    (job_postings db).

(** The loop building [job_matches]. *)
Definition job_matches (db : Database) (candidate_id : Z) : list JobMatch :=
  flat_map
    (fun jc : JobPosting.t * Company.t =>
       let match_score :=
         calculate_job_match_score db candidate_id (JobPosting.id (fst jc)) in
       if 30 <? match_score
       then [mkJobMatch (fst jc) (snd jc) match_score]
       else [])
    (available_jobs db candidate_id).

(** [get_job_recommendations(candidate_id)] *)
Definition get_job_recommendations (db : Database) (candidate_id : Z)
  : list JobMatch :=
  match query_get CandidateProfile.id (candidate_profiles db) candidate_id with
  | None => []
  | Some _ => firstn 10 (sort_desc match_score (job_matches db candidate_id))
  end.

(* ===================================================================== *)
(** ** Notifications                                                     *)
(* ===================================================================== *)

(** [CandidateProfile.query.join(User).filter(User.is_active == True)] *)
Definition active_candidates (db : Database) : list CandidateProfile.t :=
  flat_map
    (fun c =>
       map (fun _ => c)
         (filter (fun u => (CandidateProfile.user_id c =? User.id u)
                           && User.is_active u)
            (users db)))
    (candidate_profiles db).

(** The body of the loop of [notify_matching_candidates]. *)
Definition notify_candidate (job : JobPosting.t) (job_id : Z)
  (candidate : CandidateProfile.t) : M unit :=
  fun w =>
    let match_score :=
      calculate_job_match_score (database w)
        (CandidateProfile.id candidate) job_id in
    if 70 <=? match_score  (* High match threshold *)
    then create_notification
           (CandidateProfile.user_id candidate)
           match_title
           (match_message job match_score)
           job_match
           (Some (url_for_job_details job_id))
           w
    else ret tt w.

(** [notify_matching_candidates(job_id)] *)
Definition notify_matching_candidates (job_id : Z) : M unit :=
  fun w =>
    match query_get JobPosting.id (job_postings (database w)) job_id with
    | None => Returned tt w
    | Some job =>
        let candidates := active_candidates (database w) in
        for_each candidates (notify_candidate job job_id) w
    end.

End Engine.

(* ===================================================================== *)
(** ** The specification's formulas, for comparison with the code        *)
(* ===================================================================== *)

Module Spec.

(** Experience tiers with the thresholds [0.7 * req] and [0.5 * req] as
    exact rationals. *)
Definition experience_component (have req : Z) : Z :=
  if Qle_bool (inject_Z req) (inject_Z have) then 30
  else if Qle_bool ((7 # 10) * inject_Z req) (inject_Z have) then 20
  else if Qle_bool ((5 # 10) * inject_Z req) (inject_Z have) then 10
  else 0.

(** [totalWeight]: the weights of all required skills. *)
Definition total_weight (required_skills : list JobRequiredSkill.t) : Z :=
  fold_right Z.add 0
    (map (fun r => weight (JobRequiredSkill.importance r)) required_skills).

(** [matchedWeight]: the weights of the required skills whose id the
    candidate holds. *)
Definition matched_weight (candidate_skill_ids : list Z)
  (required_skills : list JobRequiredSkill.t) : Z :=
  total_weight
    (filter (fun r => py_in (JobRequiredSkill.skill_id r) candidate_skill_ids)
       required_skills).

(** [floor(matchedWeight / totalWeight * 50)], or 25 without required
    skills. *)
Definition skills_component (candidate_skill_ids : list Z)
  (required_skills : list JobRequiredSkill.t) : Z :=
  match required_skills with
  | [] => 25
  | _ :: _ =>
      Qfloor (inject_Z (matched_weight candidate_skill_ids required_skills)
              / inject_Z (total_weight required_skills) * (50 # 1))
  end.


(** Location component, a location being specified when the column is not
    [None]. *)
Definition location_component (str_lower : string -> string)
  (candidate_location job_location : option string) : Z :=
  match candidate_location, job_location with
  | Some cl, Some jl =>
      if PyStr.contains (str_lower jl) (str_lower cl)
         || PyStr.contains (str_lower cl) (str_lower jl)
      then 10 else 5
  | _, _ => 0
  end.

(** Salary component on exact rationals, a value being present when the
    column is not [None]. *)
Definition salary_component
  (expectation salary_min salary_max : option PyDecimal.Decimal) : Z :=
  match expectation, salary_min, salary_max with
  | Some e, Some lo, Some hi =>
      let e := PyDecimal.dec_to_Q e in
      let lo := PyDecimal.dec_to_Q lo in
      let hi := PyDecimal.dec_to_Q hi in
      if Qle_bool lo e && Qle_bool e hi then 10
      else if Qle_bool e (hi * (12 # 10)) then 5
      else 0
  | _, _, _ => 0
  end.

(** An optional column read by truth value: [None], the empty string and
    zero all count as absent. *)
Definition nonempty (l : option string) : option string :=
  match l with
  | Some s => if PyStr.truthy s then Some s else None
  | None => None
  end.

Definition nonzero (d : option PyDecimal.Decimal) : option PyDecimal.Decimal :=
  match d with
  | Some x => if PyDecimal.dec_truthy x then Some x else None
  | None => None
  end.

(** A candidate qualifies for the announcement of a posting: score at
    least 70. *)
Definition qualifies (str_lower : string -> string) (db : Database)
  (job_id : Z) (candidate : CandidateProfile.t) : bool :=
  70 <=? calculate_job_match_score str_lower db
           (CandidateProfile.id candidate) job_id.

(** The candidates of active accounts a posting is announced to. *)
Definition announced (str_lower : string -> string) (db : Database)
  (job_id : Z) : list CandidateProfile.t :=
  filter (qualifies str_lower db job_id) (active_candidates db).

(** The decimal numeral of an integer. *)
Definition numeral (n : Z) : string := NilZero.string_of_int (Z.to_int n).

(** A message interpolates a job title and a score: it holds the title and,
    further on, the numeral of the score. *)
Definition interpolates (message title : string) (score : Z) : Prop :=
  exists before between after,
    message = (before ++ title ++ between ++ numeral score ++ after)%string.

(** A link to the job: the path of the job's page, [/job/] followed by the
    numeral of the job's id. *)
Definition links_to_job (url : option string) (job_id : Z) : Prop :=
  url = Some ("/job/" ++ numeral job_id)%string.

(** The text announcing a posting to a candidate: the posting's title
    between quotation marks (character 34) and the score as a percentage. *)
Definition announcement (title : string) (score : Z) : string :=
  ("A new job "
   ++ String "034"%char
        (title
         ++ String "034"%char
              (" matches your profile with " ++ numeral score
               ++ "% compatibility!")))%string.

(** The notification event for one candidate, field by field: the
    candidate's user id, the fixed title, the announcement of the posting's
    title with the candidate's score, the category and the link. *)
Definition match_notification (str_lower : string -> string) (db : Database)
  (job : JobPosting.t) (job_id : Z) (candidate : CandidateProfile.t)
  : Notification.t :=
  Notification.mk
    (CandidateProfile.user_id candidate)
    "New Job Match!"
    (announcement (JobPosting.title job)
       (calculate_job_match_score str_lower db
          (CandidateProfile.id candidate) job_id))
    job_match
    (Some ("/job/" ++ numeral job_id)%string).

(** The sink writes of a batch: the [i]-th announced candidate is written
    by commit number [first + i]. *)
Definition attempts (first : nat) (announced : list CandidateProfile.t)
  : list (nat * CandidateProfile.t) :=
  combine (seq first (List.length announced)) announced.

Definition attempt_ok (fault : nat -> option string)
  (a : nat * CandidateProfile.t) : bool :=
  match fault (fst a) with
  | None => true
  | Some _ => false
  end.

(** What a sink write leaves in the log: the confirmation, or the error. *)
Definition attempt_log (fault : nat -> option string)
  (a : nat * CandidateProfile.t) : LogRecord :=
  match fault (fst a) with
  | None =>
      LogInfo (created_text (CandidateProfile.user_id (snd a)) "New Job Match!")
  | Some e => LogError (error_text e)
  end.

End Spec.

(* ===================================================================== *)
(** ** Example rows                                                      *)
(* ===================================================================== *)

Module Examples.

(** An amount with two decimal places, given in hundredths. *)
Definition amount (hundredths : Z) : PyDecimal.Decimal :=
  PyDecimal.mkDecimal hundredths (-2).

(** The scenario of the specification: five years, Berlin, 60000 against a
    posting asking five years in "Berlin, Germany" for 50000 to 70000 and one
    required skill, which the candidate holds. *)
Definition berlin_candidate : CandidateProfile.t :=
  CandidateProfile.mk 1 11 5 (Some "Berlin"%string) (Some (amount 6000000)).

Definition berlin_job : JobPosting.t :=
  JobPosting.mk 1 1 "Engineer" (Some "Berlin, Germany"%string) 5
    (Some (amount 5000000)) (Some (amount 7000000)) true.

Definition berlin_db : Database :=
  mkDatabase
    [User.mk 11 true]
    [Company.mk 1 "Acme"]
    [berlin_candidate]
    [berlin_job]
    []
    [CandidateSkill.mk 1 1 7]
    [JobRequiredSkill.mk 1 1 7 Required 0].

(** Seventeen required skills, sixteen tagged Required (ids 1 to 16) and one
    Preferred (id 17): total weight 50.  The candidate holds the skills 1 to
    9 and 17: matched weight 29. *)
Definition wide_required_skills : list JobRequiredSkill.t :=
  map (fun k => JobRequiredSkill.mk k 1 k Required 0)
    (map Z.of_nat (seq 1 16))
  ++ [JobRequiredSkill.mk 17 1 17 Preferred 0].

Definition wide_candidate_skills : list CandidateSkill.t :=
  map (fun k => CandidateSkill.mk k 1 k) (map Z.of_nat (seq 1 9))
  ++ [CandidateSkill.mk 10 1 17].

Definition wide_db : Database :=
  mkDatabase
    [User.mk 11 true]
    [Company.mk 1 "Acme"]
    [berlin_candidate]
    [berlin_job]
    []
    wide_candidate_skills
    wide_required_skills.

(** A posting whose [salary_min] is 0.00. *)
Definition open_floor_job : JobPosting.t :=
  JobPosting.mk 2 1 "Intern" (Some "Berlin"%string) 0
    (Some (amount 0)) (Some (amount 7000000)) true.

(** A posting created without a location: the form default is the empty
    string. *)
Definition unlocated_job : JobPosting.t :=
  JobPosting.mk 3 1 "Remote" (Some ""%string) 0 None None true.

(** A candidate asking for 0.00. *)
Definition volunteer : CandidateProfile.t :=
  CandidateProfile.mk 2 12 7 (Some "Hamburg"%string) (Some (amount 0)).

(** A candidate with seven years against a posting asking for ten. *)
Definition ten_year_job : JobPosting.t :=
  JobPosting.mk 4 1 "Principal" (Some "Munich"%string) 10 None None true.

(** A candidate holding skill 7 only, against a posting that asks for
    skill 7 and, before the varying row, nothing else. *)
Definition one_required_skill : list JobRequiredSkill.t :=
  [JobRequiredSkill.mk 1 1 7 Required 0].

(** Four postings of one company: posting 1 is open, posting 2 is one the
    candidate applied to, posting 3 is closed, posting 4 is open and asks
    for ten years. *)
Definition board_db : Database :=
  mkDatabase
    [User.mk 11 true; User.mk 12 false]
    [Company.mk 1 "Acme"]
    [berlin_candidate; volunteer]
    [ten_year_job;
     berlin_job;
     JobPosting.mk 2 1 "Analyst" (Some "Berlin"%string) 2 None None true;
     JobPosting.mk 3 1 "Clerk" (Some "Berlin"%string) 0 None None false]
    [JobApplication.mk 1 2 1]
    [CandidateSkill.mk 1 1 7]
    [JobRequiredSkill.mk 1 1 7 Required 0].

(** Three candidates of active accounts and one of a closed account, all
    holding skill 7.  Against posting 1 the first, third and fourth score
    100 and the second, with no experience and a far location, scores 55. *)
Definition crowd_db : Database :=
  mkDatabase
    [User.mk 11 true; User.mk 12 true; User.mk 13 true; User.mk 14 false]
    [Company.mk 1 "Acme"]
    [berlin_candidate;
     CandidateProfile.mk 2 12 0 (Some "Lisbon"%string) None;
     CandidateProfile.mk 3 13 9 (Some "berlin"%string) (Some (amount 5500000));
     CandidateProfile.mk 4 14 9 (Some "berlin"%string) (Some (amount 5500000))]
    [berlin_job]
    []
    [CandidateSkill.mk 1 1 7; CandidateSkill.mk 2 2 7;
     CandidateSkill.mk 3 3 7; CandidateSkill.mk 4 4 7]
    [JobRequiredSkill.mk 1 1 7 Required 0].

(** A store whose first commit fails. *)
Definition first_commit_fails (k : nat) : option string :=
  match k with
  | O => Some "connection lost"%string
  | S _ => None
  end.

Definition never_fails (k : nat) : option string := None.

Definition crowd_world (fault : nat -> option string) : World :=
  mkWorld crowd_db [] [] [] 0 fault.

End Examples.

(* ===================================================================== *)
(** ** Further functions of [main.py]                                    *)
(* ===================================================================== *)

(** The database with another [candidate_skills] table. *)
Definition with_candidate_skills (db : Database)
  (rows : list CandidateSkill.t) : Database :=
  mkDatabase (users db) (companies db) (candidate_profiles db)
    (job_postings db) (job_applications db) rows (job_required_skills db).

Module Skill.
Record t := mk { id : Z; skill_name : string }.
End Skill.

Module MCQQuestion.
Record t := mk { id : Z; exam_id : Z; correct_answer : string }.
End MCQQuestion.

Module CandidateAnswer.
Record t := mk {
  attempt_id : Z;
  question_id : Z;
  selected_answer : string;
  is_correct : bool
}.
End CandidateAnswer.

Module Chars.

(** The character [c] occurs in [s]. *)
Fixpoint has_char (c : ascii) (s : string) : bool :=
  match s with
  | EmptyString => false
  | String d s' => Ascii.eqb d c || has_char c s'
  end.

End Chars.

(** *** Upload file names *)

Module Upload.

Definition ALLOWED_EXTENSIONS : list string :=
  ["pdf"; "doc"; "docx"; "txt"]%string.

Definition dot : ascii := ascii_of_nat 46.

(** The text after the last [sep] of [s], when [s] holds one. *)
Fixpoint after_last (sep : ascii) (s : string) : option string :=
  match s with
  | EmptyString => None
  | String c s' =>
      match after_last sep s' with
      | Some t => Some t
      | None => if Ascii.eqb c sep then Some s' else None
      end
  end.

(** The text before the last [sep] of [s]. *)
Fixpoint before_last (sep : ascii) (s : string) : string :=
  match s with
  | EmptyString => EmptyString
  | String c s' =>
      match after_last sep s' with
      | Some _ => String c (before_last sep s')
      | None => EmptyString
      end
  end.

(** [s.rsplit(sep, 1)] *)
Definition rsplit1 (sep : ascii) (s : string) : list string :=
  match after_last sep s with
  | Some t => [before_last sep s; t]
  | None => [s]
  end.

(** [x in ALLOWED_EXTENSIONS] *)
Definition in_allowed (x : string) : bool :=
  existsb (String.eqb x) ALLOWED_EXTENSIONS.

Section WithLower.
Variable str_lower : string -> string.

(** [allowed_file(filename)]; [None] stands for the [IndexError] of
    [...[1]]. *)
Definition allowed_file (filename : string) : option bool :=
  if PyStr.contains filename (String dot EmptyString)
  then match nth_error (rsplit1 dot filename) 1 with
       | Some ext => Some (in_allowed (str_lower ext))
       | None => None
       end
  else Some false.

(** [generate_unique_filename(filename)], [hex] being [uuid.uuid4().hex] of
    the one call that is evaluated. *)
Definition generate_unique_filename (hex : string) (filename : string)
  : option string :=
  let ext :=
    if PyStr.contains filename (String dot EmptyString)
    then option_map str_lower (nth_error (rsplit1 dot filename) 1)
    else Some EmptyString in
  match ext with
  | Some ext =>
      let unique_name :=
        if PyStr.truthy ext
        then (hex ++ String dot EmptyString ++ ext)%string
        else hex in
      Some unique_name
  | None => None
  end.

End WithLower.

End Upload.

(** *** Conversation threads ([send_message]) *)

Module Messaging.

Definition underscore : ascii := ascii_of_nat 95.

(** The [thread_id] of a message: the one the form carries, or else
    [f"{min(a, b)}_{max(a, b)}"] for sender [a] and receiver [b]. *)
Definition generated_thread_id (sender receiver : Z) : string :=
  (PyStr.str_of_int (Z.min sender receiver) ++ "_"
   ++ PyStr.str_of_int (Z.max sender receiver))%string.

Definition thread_id_of (form_thread_id : option string)
  (sender receiver : Z) : string :=
  match form_thread_id with
  | Some t => if PyStr.truthy t then t else generated_thread_id sender receiver
  | None => generated_thread_id sender receiver
  end.

End Messaging.

(** *** Exam grading ([submit_exam]) *)

Module Exam.

(** State of the loop over [questions]: [correct_answers] and the answers
    added to the session. *)
Definition grade_step (form : string -> option string) (attempt_id : Z)
  (st : Z * list CandidateAnswer.t) (question : MCQQuestion.t)
  : Z * list CandidateAnswer.t :=
  let '(correct_answers, answers) := st in
  match form ("question_" ++ PyStr.str_of_int (MCQQuestion.id question))%string with
  | Some selected_answer =>
      if PyStr.truthy selected_answer
      then
        let is_correct :=
          String.eqb selected_answer (MCQQuestion.correct_answer question) in
        ((if is_correct then correct_answers + 1 else correct_answers),
         answers ++ [CandidateAnswer.mk attempt_id (MCQQuestion.id question)
                       selected_answer is_correct])
      else st
  | None => st
  end.

Definition grade (form : string -> option string) (attempt_id : Z)
  (questions : list MCQQuestion.t) : Z * list CandidateAnswer.t :=
  fold_left (grade_step form attempt_id) questions (0, []).

(** [(correct_answers / len(questions)) * 100 if questions else 0] *)
Definition exam_score (correct_answers : Z) (questions : list MCQQuestion.t)
  : Q :=
  match questions with
  | [] => 0%Q
  | _ :: _ =>
      Binary64.float_mul
        (Binary64.int_truediv correct_answers
           (Z.of_nat (List.length questions)))
        (Binary64.float_of_int 100)
  end.

(** The form answers the question, and with its correct answer. *)
Definition answered_correctly (form : string -> option string)
  (question : MCQQuestion.t) : bool :=
  match form ("question_" ++ PyStr.str_of_int (MCQQuestion.id question))%string with
  | Some selected_answer =>
      PyStr.truthy selected_answer
      && String.eqb selected_answer (MCQQuestion.correct_answer question)
  | None => false
  end.

(** The form answers the question. *)
Definition answered (form : string -> option string)
  (question : MCQQuestion.t) : bool :=
  match form ("question_" ++ PyStr.str_of_int (MCQQuestion.id question))%string with
  | Some selected_answer => PyStr.truthy selected_answer
  | None => false
  end.

(** The score [submit_exam] computes for a submitted form. *)
Definition submitted_score (form : string -> option string) (attempt_id : Z)
  (questions : list MCQQuestion.t) : Q :=
  exam_score (fst (grade form attempt_id questions)) questions.

End Exam.

(** *** The route [submit_exam] *)

Module ExamAttempt.

Inductive Status := in_progress | completed | abandoned.

Record t := mk {
  id : Z;
  candidate_id : Z;
  exam_id : Z;
  score : option Q;
  correct_answers : option Z;
  started_at : option Z;
  completed_at : option Z;
  status : option Status;
  time_spent : option Z
}.

(** The attributes of an instance: the columns of the class.  No
    [relationship] of the file has [ExamAttempt] as its target, so no
    [backref] adds another. *)
Definition attributes : list string :=
  ["id"; "candidate_id"; "exam_id"; "score"; "total_questions";
   "correct_answers"; "started_at"; "completed_at"; "status";
   "time_spent"]%string.

Definition hasattr (name : string) : bool :=
  existsb (String.eqb name) attributes.

End ExamAttempt.

(** The tables [submit_exam] reads and writes, the session's pending
    ([new]) and modified ([dirty]) objects, and the flashed messages. *)
Module ExamStore.
Record t := mk {
  exam_attempts : list ExamAttempt.t;
  mcq_questions : list MCQQuestion.t;
  candidate_answers : list CandidateAnswer.t;
  new : list CandidateAnswer.t;
  dirty : list ExamAttempt.t;
  flashes : list (string * string)
}.
End ExamStore.

Module SubmitExam.

Inductive PyError :=
| AttributeError (class_name attribute : string)
| TypeError (message : string).

(** [str(e)] *)
Definition str_of_error (e : PyError) : string :=
  match e with
  | AttributeError class_name attribute =>
      ("'" ++ class_name ++ "' object has no attribute '" ++ attribute ++ "'")%string
  | TypeError message => message
  end.

Inductive Response :=
| redirect_login
| bad_request
| not_found
| redirect_exam_result (attempt_id : string)
| redirect_take_exam (exam_id : Z).

(** Outcome of the [try] block: the response it returns, or the exception
    it raises, with the store as it is then. *)
Inductive Attempted :=
| Done (r : Response) (s : ExamStore.t)
| Failed (e : PyError) (s : ExamStore.t).

(** [db.session.add] for each answer of the loop. *)
Definition add_all (answers : list CandidateAnswer.t) (s : ExamStore.t)
  : ExamStore.t :=
  ExamStore.mk (ExamStore.exam_attempts s) (ExamStore.mcq_questions s)
    (ExamStore.candidate_answers s) (ExamStore.new s ++ answers)
    (ExamStore.dirty s) (ExamStore.flashes s).

(** An assignment to attributes of the loaded attempt. *)
Definition modified (attempt : ExamAttempt.t) (s : ExamStore.t) : ExamStore.t :=
  ExamStore.mk (ExamStore.exam_attempts s) (ExamStore.mcq_questions s)
    (ExamStore.candidate_answers s) (ExamStore.new s)
    (attempt
       :: filter (fun a => negb (ExamAttempt.id a =? ExamAttempt.id attempt))
            (ExamStore.dirty s))
    (ExamStore.flashes s).

(** [db.session.rollback()] *)
Definition rollback (s : ExamStore.t) : ExamStore.t :=
  ExamStore.mk (ExamStore.exam_attempts s) (ExamStore.mcq_questions s)
    (ExamStore.candidate_answers s) [] [] (ExamStore.flashes s).

(** [flash(message, category)] *)
Definition flash (message category : string) (s : ExamStore.t) : ExamStore.t :=
  ExamStore.mk (ExamStore.exam_attempts s) (ExamStore.mcq_questions s)
    (ExamStore.candidate_answers s) (ExamStore.new s) (ExamStore.dirty s)
    (ExamStore.flashes s ++ [(message, category)]).

Section Route.

(** The primary key the database reads in the text of the form field. *)
Variable key_of_text : string -> option Z.

(** The two readings of [datetime.utcnow()], in seconds. *)
Variables utcnow_completed utcnow_spent : Z.

(** What the [try] block goes on to do once [attempt.exam] has a value:
    the lookup of the application, the commit and the response. *)
Variable with_exam : ExamAttempt.t -> Q -> ExamStore.t -> Attempted.

(** [MCQQuestion.query.filter_by(exam_id=attempt.exam_id).all()] *)
Definition questions_of (attempt : ExamAttempt.t) (s : ExamStore.t)
  : list MCQQuestion.t :=
  filter (fun q => MCQQuestion.exam_id q =? ExamAttempt.exam_id attempt)
    (ExamStore.mcq_questions s).

(** The body of the [try] block. *)
Definition try_block (form : string -> option string)
  (attempt : ExamAttempt.t) (s : ExamStore.t) : Attempted :=
  let questions := questions_of attempt s in
  let graded := Exam.grade form (ExamAttempt.id attempt) questions in
  let correct_answers := fst graded in
  let s := add_all (snd graded) s in
  let score := Exam.exam_score correct_answers questions in
  let attempt :=
    ExamAttempt.mk (ExamAttempt.id attempt) (ExamAttempt.candidate_id attempt)
      (ExamAttempt.exam_id attempt) (Some score) (Some correct_answers)
      (ExamAttempt.started_at attempt) (Some utcnow_completed)
      (Some ExamAttempt.completed) (ExamAttempt.time_spent attempt) in
  let s := modified attempt s in
  match ExamAttempt.started_at attempt with
  | None =>
      Failed
        (TypeError
           "unsupported operand type(s) for -: 'datetime.datetime' and 'NoneType'")
        s
  | Some started_at =>
      let attempt :=
        ExamAttempt.mk (ExamAttempt.id attempt)
          (ExamAttempt.candidate_id attempt) (ExamAttempt.exam_id attempt)
          (ExamAttempt.score attempt) (ExamAttempt.correct_answers attempt)
          (ExamAttempt.started_at attempt) (ExamAttempt.completed_at attempt)
          (ExamAttempt.status attempt) (Some (utcnow_spent - started_at)) in
      let s := modified attempt s in
      (* attempt.exam *)
      if ExamAttempt.hasattr "exam"
      then with_exam attempt score s
      else Failed (AttributeError "ExamAttempt" "exam") s
  end.

(** [submit_exam()], [candidate] telling whether the session is one of a
    logged-in candidate and [form] being [request.form.get]. *)
Definition submit_exam (candidate : bool) (form : string -> option string)
  (s : ExamStore.t) : Response * ExamStore.t :=
  if negb candidate then (redirect_login, s)
  else
    match form "attempt_id"%string with
    | None => (bad_request, s)
    | Some attempt_id =>
        match option_map
                (query_get ExamAttempt.id (ExamStore.exam_attempts s))
                (key_of_text attempt_id) with
        | Some (Some attempt) =>
            match ExamAttempt.status attempt with
            | Some ExamAttempt.completed =>
                (redirect_exam_result attempt_id,
                 flash "Exam already submitted" "info" s)
            | _ =>
                match try_block form attempt s with
                | Done r s => (r, s)
                | Failed e s =>
                    let s := rollback s in
                    let s :=
                      flash ("Error submitting exam: " ++ str_of_error e)
                        "error" s in
                    (redirect_take_exam (ExamAttempt.exam_id attempt), s)
                end
            end
        | _ => (not_found, s)
        end
    end.

End Route.

End SubmitExam.

(** An attempt at exam 3, whose two questions the form answers, the first
    one correctly. *)
Module ExamExamples.

Definition sample_attempt : ExamAttempt.t :=
  ExamAttempt.mk 5 1 3 None None (Some 1000) None
    (Some ExamAttempt.in_progress) None.

Definition sample_store : ExamStore.t :=
  ExamStore.mk
    [sample_attempt]
    [MCQQuestion.mk 1 3 "A"; MCQQuestion.mk 2 3 "C"; MCQQuestion.mk 3 4 "B"]
    [] [] [] [].

Definition sample_form (name : string) : option string :=
  if String.eqb name "attempt_id" then Some "5"%string
  else if String.eqb name "question_1" then Some "A"%string
  else if String.eqb name "question_2" then Some "B"%string
  else None.

Definition sample_key (text : string) : option Z :=
  if String.eqb text "5" then Some 5 else None.

End ExamExamples.

(** *** Skill gaps ([candidate_skill_analysis]) *)

Module SkillGap.

Definition rec_job : JobMatch -> JobPosting.t := job.
Definition rec_company : JobMatch -> Company.t := company.
Definition rec_match_score : JobMatch -> Z := match_score.

(** An entry of [matching_skills] or [missing_skills]. *)
Record SkillEntry := mkSkillEntry {
  skill : Skill.t;
  importance : Importance
}.

(** An entry of [skill_gap_analysis]. *)
Record t := mk {
  job : JobPosting.t;
  company : Company.t;
  match_score : Z;
  matching_skills : list SkillEntry;
  missing_skills : list SkillEntry
}.

(** [query(CandidateSkill, Skill).join(Skill).filter(candidate_id == ...)] *)
Definition candidate_skills_joined (db : Database) (skills : list Skill.t)
  (candidate_id : Z) : list (CandidateSkill.t * Skill.t) :=
  flat_map
    (fun cs =>
       map (fun s => (cs, s))
         (filter (fun s => CandidateSkill.skill_id cs =? Skill.id s) skills))
    (filter (fun cs => CandidateSkill.candidate_id cs =? candidate_id)
       (candidate_skills db)).

(** [query(JobRequiredSkill, Skill).join(Skill).filter(job_id == ...)] *)
Definition required_skills_joined (db : Database) (skills : list Skill.t)
  (job_id : Z) : list (JobRequiredSkill.t * Skill.t) :=
  flat_map
    (fun r =>
       map (fun s => (r, s))
         (filter (fun s => JobRequiredSkill.skill_id r =? Skill.id s) skills))
    (filter (fun r => JobRequiredSkill.job_id r =? job_id)
       (job_required_skills db)).

(** [[cs.skill_id for cs, _ in candidate_skills]] *)
Definition held_skill_ids (db : Database) (skills : list Skill.t)
  (candidate_id : Z) : list Z :=
  map (fun row => CandidateSkill.skill_id (fst row))
    (candidate_skills_joined db skills candidate_id).

(** [{'skill': skill, 'importance': req_skill.importance}] *)
Definition entry_of (row : JobRequiredSkill.t * Skill.t) : SkillEntry :=
  mkSkillEntry (snd row) (JobRequiredSkill.importance (fst row)).

(** [skill.id in candidate_skill_ids] *)
Definition held (candidate_skill_ids : list Z)
  (row : JobRequiredSkill.t * Skill.t) : bool :=
  py_in (Skill.id (snd row)) candidate_skill_ids.

(** One turn of the inner loop; the state is
    [(matching_skills, missing_skills)]. *)
Definition gap_step (candidate_skill_ids : list Z)
  (st : list SkillEntry * list SkillEntry)
  (row : JobRequiredSkill.t * Skill.t)
  : list SkillEntry * list SkillEntry :=
  let '(matching, missing) := st in
  if held candidate_skill_ids row
  then (matching ++ [entry_of row], missing)
  else (matching, missing ++ [entry_of row]).

(** The body of the loop over the top recommendations. *)
Definition analyse (db : Database) (skills : list Skill.t) (candidate_id : Z)
  (rec : JobMatch) : t :=
  let required_skills :=
    required_skills_joined db skills (JobPosting.id (rec_job rec)) in
  let candidate_skill_ids := held_skill_ids db skills candidate_id in
  let '(matching, missing) :=
    fold_left (gap_step candidate_skill_ids) required_skills ([], []) in
  mk (rec_job rec) (rec_company rec) (rec_match_score rec)
    matching missing.

End SkillGap.

Section Analysis.
Variable str_lower : string -> string.

(** The analysis part of [candidate_skill_analysis], for the profile of the
    logged-in candidate. *)
Definition skill_gap_analysis (db : Database) (skills : list Skill.t)
  (candidate_id : Z) : list SkillGap.t :=
  let recommendations := get_job_recommendations str_lower db candidate_id in
  map (SkillGap.analyse db skills candidate_id) (firstn 5 recommendations).

End Analysis.

(* ===================================================================== *)
(** * Facts                                                              *)
(* ===================================================================== *)

(** ** Rounding to binary64 *)
Module Binary64Facts.
Import Binary64.
Local Open Scope Q_scope.

Lemma pow2_pos e : 0 < pow2 e.
Proof. apply Qpower_0_lt. reflexivity. Qed.

Lemma pow2_add a b : pow2 (a + b) == pow2 a * pow2 b.
Proof. apply Qpower_plus. discriminate. Qed.

Lemma pow2_le a b : (a <= b)%Z -> pow2 a <= pow2 b.
Proof. intro H. apply Qpower_le_compat_l; [exact H | discriminate]. Qed.

Lemma pow2_lt_inv a b : pow2 a < pow2 b -> (a < b)%Z.
Proof. intro H. apply (Qpower_lt_compat_l_inv (2 # 1)); [exact H | reflexivity]. Qed.

Lemma pow2_Z e : (0 <= e)%Z -> pow2 e == inject_Z (2 ^ e).
Proof. intro H. unfold pow2. rewrite (Zpower_Qpower 2 e H). reflexivity. Qed.

Lemma pow2_cancel a : pow2 a * pow2 (- a) == 1.
Proof. rewrite <- pow2_add. replace (a + - a)%Z with 0%Z by lia. reflexivity. Qed.

Lemma binade_spec x :
  0 < x -> pow2 (binade x) <= x /\ x < pow2 (binade x + 1).
Proof.
  intro Hx. unfold binade.
  destruct x as [a b].
  assert (Ha : (0 < a)%Z) by (unfold Qlt in Hx; simpl in Hx; lia).
  cbn [Qnum Qden].
  set (la := Z.log2 a). set (lb := Z.log2 (Z.pos b)).
  assert (Hla : (2 ^ la <= a < 2 ^ (la + 1))%Z).
  { pose proof (Z.log2_spec a Ha) as H. unfold la. rewrite <- Z.add_1_r in H. exact H. }
  assert (Hlb : (2 ^ lb <= Z.pos b < 2 ^ (lb + 1))%Z).
  { pose proof (Z.log2_spec (Z.pos b) eq_refl) as H. unfold lb.
    rewrite <- Z.add_1_r in H. exact H. }
  assert (Hla0 : (0 <= la)%Z) by apply Z.log2_nonneg.
  assert (Hlb0 : (0 <= lb)%Z) by apply Z.log2_nonneg.
  assert (Hxb : (a # b) * inject_Z (Z.pos b) == inject_Z a).
  { unfold Qeq, Qmult, inject_Z. simpl. lia. }
  assert (A1 : pow2 la <= inject_Z a).
  { rewrite (pow2_Z la Hla0). rewrite <- Zle_Qle. lia. }
  assert (A2 : inject_Z a < pow2 (la + 1)).
  { rewrite (pow2_Z (la + 1)) by lia. rewrite <- Zlt_Qlt. lia. }
  assert (B1 : pow2 lb <= inject_Z (Z.pos b)).
  { rewrite (pow2_Z lb Hlb0). rewrite <- Zle_Qle. lia. }
  assert (B2 : inject_Z (Z.pos b) < pow2 (lb + 1)).
  { rewrite (pow2_Z (lb + 1)) by lia. rewrite <- Zlt_Qlt. lia. }
  pose proof (pow2_pos lb) as Plb. pose proof (pow2_pos (lb + 1)) as Plb1.
  destruct (Qle_bool (pow2 (la - lb)) (a # b)) eqn:E.
  - apply Qle_bool_iff in E. split; [exact E|].
    assert (D : pow2 (la + 1) == pow2 (la - lb + 1) * pow2 lb).
    { rewrite <- pow2_add. replace (la - lb + 1 + lb)%Z with (la + 1)%Z by lia. reflexivity. }
    pose proof (pow2_pos (la - lb + 1)).
    destruct (Qlt_le_dec (a # b) (pow2 (la - lb + 1))) as [L|L]; [exact L|].
    exfalso. nra.
  - assert (E' : (a # b) < pow2 (la - lb)).
    { apply Qnot_le_lt. intro C. apply Qle_bool_iff in C. congruence. }
    replace (la - lb - 1 + 1)%Z with (la - lb)%Z by lia. split; [|exact E'].
    assert (D : pow2 la == pow2 (la - lb - 1) * pow2 (lb + 1)).
    { rewrite <- pow2_add. replace (la - lb - 1 + (lb + 1))%Z with la by lia. reflexivity. }
    pose proof (pow2_pos (la - lb - 1)).
    destruct (Qlt_le_dec (a # b) (pow2 (la - lb - 1))) as [L|L]; [|exact L].
    exfalso. nra.
Qed.

Lemma binade_mono x y : 0 < x -> x <= y -> (binade x <= binade y)%Z.
Proof.
  intros Hx Hxy.
  destruct (binade_spec x Hx) as [X1 _].
  destruct (binade_spec y) as [_ Y2]; [lra|].
  assert (L : pow2 (binade x) < pow2 (binade y + 1)) by lra.
  apply pow2_lt_inv in L. lia.
Qed.

Lemma rne_spec x :
  inject_Z (rne x) - (1 # 2) <= x /\ x <= inject_Z (rne x) + (1 # 2).
Proof.
  unfold rne. pose proof (Qfloor_le x) as F1. pose proof (Qlt_floor x) as F2.
  rewrite inject_Z_plus in F2. change (inject_Z 1) with 1 in F2.
  destruct (Qcompare_spec (x - inject_Z (Qfloor x)) (1 # 2)) as [E|E|E].
  - destruct (Z.even (Qfloor x));
      [|rewrite inject_Z_plus; change (inject_Z 1) with 1]; lra.
  - lra.
  - rewrite inject_Z_plus. change (inject_Z 1) with 1. lra.
Qed.

#[global] Instance rne_comp : Proper (Qeq ==> eq) rne.
Proof.
  intros x y E. unfold rne. rewrite (Qfloor_comp _ _ E).
  assert (C : Qcompare (x - inject_Z (Qfloor y)) (1 # 2)
              = Qcompare (y - inject_Z (Qfloor y)) (1 # 2)).
  { apply Qcompare_comp; [rewrite E|]; reflexivity. }
  rewrite C. reflexivity.
Qed.

Lemma rne_Z k : rne (inject_Z k) = k.
Proof.
  unfold rne. rewrite Qfloor_Z.
  destruct (Qcompare_spec (inject_Z k - inject_Z k) (1 # 2)) as [E|E|E];
    [exfalso; lra | reflexivity | exfalso; lra].
Qed.

Lemma rne_mono x y : x <= y -> (rne x <= rne y)%Z.
Proof.
  intro H. destruct (Z.le_gt_cases (rne x) (rne y)) as [L|L]; [exact L|].
  exfalso.
  assert (L' : (rne y + 1 <= rne x)%Z) by lia.
  rewrite Zle_Qle, inject_Z_plus in L'. change (inject_Z 1) with 1 in L'.
  destruct (rne_spec x) as [X1 _]. destruct (rne_spec y) as [_ Y2].
  assert (E : x == y) by lra.
  rewrite (rne_comp _ _ E) in L. lia.
Qed.


Lemma round_pos_bounds x :
  0 < x ->
  pow2 (binade x) <= round_pos x /\ round_pos x <= pow2 (binade x + 1).
Proof.
  intro Hx. destruct (binade_spec x Hx) as [B1 B2].
  unfold round_pos. set (e := binade x) in *. set (sh := (52 - e)%Z).
  pose proof (pow2_pos sh) as Psh. pose proof (pow2_pos (- sh)) as Pnsh.
  assert (E52 : pow2 e * pow2 sh == inject_Z (2 ^ 52)).
  { rewrite <- pow2_add. replace (e + sh)%Z with 52%Z by (unfold sh; lia). reflexivity. }
  assert (E53 : pow2 (e + 1) * pow2 sh == inject_Z (2 ^ 53)).
  { rewrite <- pow2_add. replace (e + 1 + sh)%Z with 53%Z by (unfold sh; lia). reflexivity. }
  assert (L : (2 ^ 52 <= rne (x * pow2 sh))%Z).
  { rewrite <- (rne_Z (2 ^ 52)). apply rne_mono. rewrite <- E52. nra. }
  assert (U : (rne (x * pow2 sh) <= 2 ^ 53)%Z).
  { rewrite <- (rne_Z (2 ^ 53)). apply rne_mono. rewrite <- E53. nra. }
  rewrite Zle_Qle in L, U. rewrite <- E52 in L. rewrite <- E53 in U.
  pose proof (pow2_cancel sh) as C.
  set (n := inject_Z (rne (x * pow2 sh))) in *.
  pose proof (pow2_pos e). pose proof (pow2_pos (e + 1)).
  split.
  - assert (T : pow2 e == pow2 e * pow2 sh * pow2 (- sh)) by (rewrite <- Qmult_assoc, C; ring).
    rewrite T. apply Qmult_le_compat_r; lra.
  - assert (T : pow2 (e + 1) == pow2 (e + 1) * pow2 sh * pow2 (- sh))
      by (rewrite <- Qmult_assoc, C; ring).
    rewrite T. apply Qmult_le_compat_r; lra.
Qed.

Lemma round_pos_pos x : 0 < x -> 0 < round_pos x.
Proof.
  intro Hx. destruct (round_pos_bounds x Hx) as [L _].
  pose proof (pow2_pos (binade x)). lra.
Qed.

Lemma round_pos_mono x y : 0 < x -> x <= y -> round_pos x <= round_pos y.
Proof.
  intros Hx Hxy. assert (Hy : 0 < y) by lra.
  pose proof (binade_mono x y Hx Hxy) as M.
  destruct (Z.eq_dec (binade x) (binade y)) as [E|NE].
  - unfold round_pos. rewrite E. set (sh := (52 - binade y)%Z).
    pose proof (pow2_pos sh). pose proof (pow2_pos (- sh)).
    apply Qmult_le_compat_r; [|lra].
    rewrite <- Zle_Qle. apply rne_mono. nra.
  - destruct (round_pos_bounds x Hx) as [_ U].
    destruct (round_pos_bounds y Hy) as [L _].
    assert (P : pow2 (binade x + 1) <= pow2 (binade y)) by (apply pow2_le; lia).
    lra.
Qed.

Lemma fl_pos x : 0 < x -> fl x = round_pos x.
Proof.
  intro H. unfold fl.
  destruct (Qcompare_spec x 0) as [E|E|E]; [exfalso; lra | exfalso; lra | reflexivity].
Qed.

Lemma fl_neg x : x < 0 -> fl x = - round_pos (- x).
Proof.
  intro H. unfold fl.
  destruct (Qcompare_spec x 0) as [E|E|E]; [exfalso; lra | reflexivity | exfalso; lra].
Qed.

Lemma fl_zero x : x == 0 -> fl x = 0.
Proof.
  intro H. unfold fl.
  destruct (Qcompare_spec x 0) as [E|E|E]; [reflexivity | exfalso; lra | exfalso; lra].
Qed.

(** Rounding is monotone. *)
Lemma fl_mono x y : x <= y -> fl x <= fl y.
Proof.
  intro H.
  destruct (Qlt_le_dec 0 x) as [Px|Nx].
  - rewrite (fl_pos x Px), (fl_pos y) by lra. apply round_pos_mono; assumption.
  - destruct (Qlt_le_dec x 0) as [Sx|Zx].
    + rewrite (fl_neg x Sx).
      assert (Rx : 0 < round_pos (- x)) by (apply round_pos_pos; lra).
      destruct (Qlt_le_dec 0 y) as [Py|Ny].
      * rewrite (fl_pos y Py). pose proof (round_pos_pos y Py). lra.
      * destruct (Qlt_le_dec y 0) as [Sy|Zy].
        -- rewrite (fl_neg y Sy).
           assert (M : round_pos (- y) <= round_pos (- x))
             by (apply round_pos_mono; lra).
           lra.
        -- rewrite (fl_zero y) by lra. lra.
    + rewrite (fl_zero x) by lra.
      destruct (Qlt_le_dec 0 y) as [Py|Ny].
      * rewrite (fl_pos y Py). pose proof (round_pos_pos y Py). lra.
      * rewrite (fl_zero y) by lra. lra.
Qed.

#[global] Instance fl_comp : Proper (Qeq ==> Qeq) fl.
Proof.
  intros x y E. apply Qle_antisym; apply fl_mono; lra.
Qed.

(** Numbers with at most 53 significant bits are fixed points. *)
Lemma fl_dyadic n z :
  (0 < n < 2 ^ 53)%Z -> fl (inject_Z n * pow2 z) == inject_Z n * pow2 z.
Proof.
  intros [N0 N1]. set (x := inject_Z n * pow2 z).
  pose proof (pow2_pos z) as Pz.
  assert (In0 : 0 < inject_Z n) by (rewrite (Zlt_Qlt 0 n) in N0; exact N0).
  assert (In1 : inject_Z n < inject_Z (2 ^ 53)) by (rewrite <- Zlt_Qlt; exact N1).
  assert (Hx : 0 < x) by (unfold x; nra).
  rewrite (fl_pos x Hx). destruct (binade_spec x Hx) as [B1 _].
  unfold round_pos. set (e := binade x) in *. set (sh := (52 - e)%Z).
  assert (Ub : x < pow2 (53 + z)).
  { rewrite pow2_add. rewrite (pow2_Z 53) by lia. unfold x. nra. }
  assert (Le : (e < 53 + z)%Z) by (apply pow2_lt_inv; lra).
  assert (K : (0 <= sh + z)%Z) by (unfold sh; lia).
  assert (S : x * pow2 sh == inject_Z (n * 2 ^ (sh + z))).
  { rewrite inject_Z_mult, <- (pow2_Z (sh + z) K), pow2_add. unfold x. ring. }
  rewrite (rne_comp _ _ S), rne_Z, inject_Z_mult, <- (pow2_Z (sh + z) K), pow2_add.
  unfold x. rewrite <- !Qmult_assoc. rewrite (Qmult_comm (pow2 z)).
  rewrite !Qmult_assoc. rewrite <- (Qmult_assoc (inject_Z n)).
  rewrite pow2_cancel. ring.
Qed.

Lemma float_of_int_exact n : (0 <= n < 2 ^ 53)%Z -> float_of_int n == inject_Z n.
Proof.
  intros [N0 N1]. unfold float_of_int.
  destruct (Z.eq_dec n 0) as [->|NZ]; [reflexivity|].
  assert (E : inject_Z n == inject_Z n * pow2 0) by (unfold pow2; simpl; ring).
  rewrite E at 1. rewrite fl_dyadic by lia. unfold pow2; simpl; ring.
Qed.

Lemma fl_nonneg x : 0 <= x -> 0 <= fl x.
Proof. intro H. change 0 with (fl 0). apply fl_mono. exact H. Qed.

End Binary64Facts.

(** ** The experience thresholds *)

Module ExperienceFacts.
Import Binary64 Binary64Facts.
Local Open Scope Q_scope.

Lemma lit_0_7_value : lit_0_7 == 6305039478318694 # 9007199254740992.
Proof. vm_compute. reflexivity. Qed.

Lemma lit_0_5_value : lit_0_5 == 1 # 2.
Proof. vm_compute. reflexivity. Qed.

Lemma Z_to_Q_le a b : (a <= b)%Z -> inject_Z a <= inject_Z b.
Proof. intro H. rewrite <- Zle_Qle. exact H. Qed.

Lemma Z_to_Q_lt a b : (a < b)%Z -> inject_Z a < inject_Z b.
Proof. intro H. rewrite <- Zlt_Qlt. exact H. Qed.

(** [req * 0.5] is computed without rounding error. *)
Lemma times_0_5_exact req :
  (0 <= req < 2 ^ 53)%Z ->
  float_mul (float_of_int req) lit_0_5 == inject_Z req * (1 # 2).
Proof.
  intros [R0 R1]. unfold float_mul.
  rewrite (float_of_int_exact req) by lia. rewrite lit_0_5_value.
  destruct (Z.eq_dec req 0) as [->|NZ]; [reflexivity|].
  change (1 # 2) with (pow2 (-1)). apply fl_dyadic. lia.
Qed.

(** [req * 0.7]: the rounded product lies on the same side of every integer
    as the exact product [7 * req / 10]. *)
Lemma ge_times_0_7 have req :
  (0 <= have < 2 ^ 48)%Z -> (0 <= req < 2 ^ 48)%Z ->
  int_ge_float have (float_mul (float_of_int req) lit_0_7) = true
  <-> (7 * req <= 10 * have)%Z.
Proof.
  intros [H0 H1] [R0 R1]. unfold int_ge_float, float_mul.
  assert (P48 : (2 ^ 48 = 281474976710656)%Z) by reflexivity.
  assert (QH0 := Z_to_Q_le _ _ H0). assert (QR0 := Z_to_Q_le _ _ R0).
  assert (QH1 := Z_to_Q_lt _ _ H1). assert (QR1 := Z_to_Q_lt _ _ R1).
  rewrite P48 in QH1, QR1.
  change (inject_Z 281474976710656) with (281474976710656 # 1) in QH1, QR1.
  change (inject_Z 0) with 0 in QH0, QR0.
  set (x := float_of_int req * lit_0_7).
  assert (X : x == inject_Z req * (6305039478318694 # 9007199254740992)).
  { unfold x. rewrite (float_of_int_exact req), lit_0_7_value by lia. reflexivity. }
  rewrite Qle_bool_iff. split.
  - intro L. destruct (Z.le_gt_cases (7 * req) (10 * have)) as [C|C]; [exact C|].
    exfalso.
    assert (C' : (10 * have + 1 <= 7 * req)%Z) by lia.
    apply Z_to_Q_le in C'. rewrite inject_Z_plus, !inject_Z_mult in C'.
    set (r := inject_Z (16 * have + 1) * pow2 (-4)).
    assert (Rv : r == inject_Z have + (1 # 16)).
    { unfold r. rewrite inject_Z_plus, inject_Z_mult.
      change (pow2 (-4)) with (1 # 16). change (inject_Z 16) with (16 # 1).
      change (inject_Z 1) with 1. ring. }
    assert (Fr : fl r == r) by (apply fl_dyadic; lia).
    assert (Le : r <= x).
    { rewrite Rv, X. change (inject_Z 10) with (10 # 1) in C'.
      change (inject_Z 7) with (7 # 1) in C'. change (inject_Z 1) with 1 in C'. lra. }
    apply fl_mono in Le. rewrite Fr, Rv in Le. lra.
  - intro C. apply Z_to_Q_le in C. rewrite !inject_Z_mult in C.
    change (inject_Z 10) with (10 # 1) in C. change (inject_Z 7) with (7 # 1) in C.
    assert (Le : x <= inject_Z have) by (rewrite X; lra).
    apply fl_mono in Le.
    assert (E : fl (inject_Z have) == inject_Z have)
      by (apply (float_of_int_exact have); lia).
    rewrite E in Le. exact Le.
Qed.

(** Far beyond the range of an [Integer] column the rounded product
    [req * 0.7] can fall on the other side of an integer: here
    [10 * have < 7 * req], yet [have >= req * 0.7] holds in binary64. *)
Lemma ge_times_0_7_beyond_columns :
  int_ge_float 592062587833019
    (float_mul (float_of_int 845803696904313) lit_0_7) = true
  /\ (10 * 592062587833019 < 7 * 845803696904313)%Z.
Proof. split; [vm_compute; reflexivity | lia]. Qed.

End ExperienceFacts.

(** ** The skills component *)

Module SkillsFacts.
Import Binary64 Binary64Facts ExperienceFacts.

Lemma weight_pos imp : 1 <= weight imp <= 3.
Proof. destruct imp; simpl; lia. Qed.

Lemma total_weight_cons r l :
  Spec.total_weight (r :: l)
  = weight (JobRequiredSkill.importance r) + Spec.total_weight l.
Proof. reflexivity. Qed.

Lemma total_weight_app l1 l2 :
  Spec.total_weight (l1 ++ l2) = Spec.total_weight l1 + Spec.total_weight l2.
Proof.
  induction l1 as [|r l1 IH]; [reflexivity|].
  simpl app. rewrite !total_weight_cons, IH. lia.
Qed.

Lemma total_weight_nonneg l : 0 <= Spec.total_weight l.
Proof.
  induction l as [|r l IH]; [simpl; unfold Spec.total_weight; simpl; lia|].
  rewrite total_weight_cons. pose proof (weight_pos (JobRequiredSkill.importance r)). lia.
Qed.

Lemma total_weight_pos r l : 0 < Spec.total_weight (r :: l).
Proof.
  rewrite total_weight_cons.
  pose proof (weight_pos (JobRequiredSkill.importance r)).
  pose proof (total_weight_nonneg l). lia.
Qed.

Lemma matched_weight_cons ids r l :
  Spec.matched_weight ids (r :: l)
  = (if py_in (JobRequiredSkill.skill_id r) ids
     then weight (JobRequiredSkill.importance r) else 0)
    + Spec.matched_weight ids l.
Proof.
  unfold Spec.matched_weight. simpl filter.
  destruct (py_in (JobRequiredSkill.skill_id r) ids); [apply total_weight_cons | lia].
Qed.

Lemma matched_weight_bounds ids l :
  0 <= Spec.matched_weight ids l <= Spec.total_weight l.
Proof.
  induction l as [|r l IH]; [unfold Spec.matched_weight, Spec.total_weight; simpl; lia|].
  rewrite matched_weight_cons, total_weight_cons.
  pose proof (weight_pos (JobRequiredSkill.importance r)).
  destruct (py_in (JobRequiredSkill.skill_id r) ids); lia.
Qed.

(** The loop leaves the two weighted sums in its state. *)
Lemma skills_loop_from ids l m t :
  fold_left (skills_step ids) l (m, t)
  = (m + Spec.matched_weight ids l, t + Spec.total_weight l).
Proof.
  revert m t. induction l as [|r l IH]; intros m t.
  - simpl. unfold Spec.matched_weight, Spec.total_weight. simpl. f_equal; lia.
  - simpl fold_left. rewrite matched_weight_cons, total_weight_cons.
    unfold skills_step.
    destruct (py_in (JobRequiredSkill.skill_id r) ids); rewrite IH; f_equal; lia.
Qed.

Lemma skills_loop_sums ids l :
  skills_loop ids l = (Spec.matched_weight ids l, Spec.total_weight l).
Proof. unfold skills_loop. rewrite skills_loop_from. reflexivity. Qed.

Local Open Scope Q_scope.

Lemma float_50 : float_of_int 50 == 50 # 1.
Proof. vm_compute. reflexivity. Qed.

Lemma fl_one : fl 1 == 1.
Proof. vm_compute. reflexivity. Qed.

Lemma fl_50 : fl (50 # 1) == 50 # 1.
Proof. vm_compute. reflexivity. Qed.

Lemma int_of_float_nonneg x : 0 <= x -> int_of_float x = Qfloor x.
Proof.
  intro H. unfold int_of_float.
  apply Qle_bool_iff in H. rewrite H. reflexivity.
Qed.

Lemma quotient_bounds m t :
  (0 <= m <= t)%Z -> (0 < t)%Z -> 0 <= inject_Z m / inject_Z t <= 1.
Proof.
  intros [M0 M1] T. apply Z_to_Q_le in M0, M1. apply Z_to_Q_lt in T.
  change (inject_Z 0) with 0 in M0, T. split.
  - apply Qle_shift_div_l; [exact T | lra].
  - apply Qle_shift_div_r; [exact T | lra].
Qed.

Lemma quotient_antitone m t1 t2 :
  (0 <= m)%Z -> (0 < t2 <= t1)%Z ->
  inject_Z m / inject_Z t1 <= inject_Z m / inject_Z t2.
Proof.
  intros M0 [T2 T12]. apply Z_to_Q_le in M0, T12. apply Z_to_Q_lt in T2.
  change (inject_Z 0) with 0 in M0, T2.
  apply Qle_shift_div_l; [exact T2|].
  set (a := inject_Z m / inject_Z t1).
  assert (A : a * inject_Z t1 == inject_Z m).
  { unfold a. rewrite Qmult_comm. apply Qmult_div_r. intro E. lra. }
  assert (A0 : 0 <= a).
  { unfold a. apply Qle_shift_div_l; lra. }
  nra.
Qed.

Lemma ratio_points_bounds m t :
  (0 <= m <= t)%Z -> (0 < t)%Z -> (0 <= ratio_points m t <= 50)%Z.
Proof.
  intros Hm Ht. destruct (quotient_bounds m t Hm Ht) as [Q0 Q1].
  unfold ratio_points, float_mul, int_truediv.
  set (q := fl (inject_Z m / inject_Z t)).
  assert (F0 : 0 <= q) by (apply fl_nonneg; exact Q0).
  assert (F1 : q <= 1) by (rewrite <- fl_one; apply fl_mono; exact Q1).
  pose proof float_50 as E50.
  set (p := fl (q * float_of_int 50)).
  assert (P0 : 0 <= p) by (apply fl_nonneg; nra).
  assert (P1 : p <= 50 # 1).
  { rewrite <- fl_50. apply fl_mono. nra. }
  rewrite (int_of_float_nonneg p P0). split.
  - change 0%Z with (Qfloor 0). apply Qfloor_resp_le. exact P0.
  - change 50%Z with (Qfloor (50 # 1)). apply Qfloor_resp_le. exact P1.
Qed.

(** A larger total weight never raises the points of a fixed matched
    weight. *)
Lemma ratio_points_antitone m t1 t2 :
  (0 <= m)%Z -> (0 < t2 <= t1)%Z -> (ratio_points m t1 <= ratio_points m t2)%Z.
Proof.
  intros Hm Ht. pose proof (quotient_antitone m t1 t2 Hm Ht) as Q.
  assert (Q0 : 0 <= inject_Z m / inject_Z t1).
  { apply Qle_shift_div_l.
    - apply (Z_to_Q_lt 0). lia.
    - apply Z_to_Q_le in Hm. change (inject_Z 0) with 0 in Hm. lra. }
  unfold ratio_points, float_mul, int_truediv.
  set (q1 := fl (inject_Z m / inject_Z t1)).
  set (q2 := fl (inject_Z m / inject_Z t2)).
  assert (F0 : 0 <= q1) by (apply fl_nonneg; exact Q0).
  assert (F12 : q1 <= q2) by (apply fl_mono; exact Q).
  pose proof float_50 as E50.
  assert (P0 : 0 <= fl (q1 * float_of_int 50)) by (apply fl_nonneg; nra).
  assert (P12 : fl (q1 * float_of_int 50) <= fl (q2 * float_of_int 50))
    by (apply fl_mono; nra).
  rewrite !int_of_float_nonneg by lra.
  apply Qfloor_resp_le. exact P12.
Qed.

End SkillsFacts.

(** ** Decimal arithmetic *)
Module DecimalFacts.
Import PyDecimal ExperienceFacts.
Local Open Scope Q_scope.

Lemma pow10_pos e : 0 < pow10 e.
Proof. apply Qpower_0_lt. reflexivity. Qed.

Lemma pow10_add a b : pow10 (a + b) == pow10 a * pow10 b.
Proof. apply Qpower_plus. discriminate. Qed.

Lemma pow10_Z e : (0 <= e)%Z -> pow10 e == inject_Z (10 ^ e).
Proof. intro H. unfold pow10. rewrite (Zpower_Qpower 10 e H). reflexivity. Qed.

(** A decimal written with a smaller exponent [e]. *)
Lemma dec_to_Q_aligned a e :
  (e <= dexp a)%Z ->
  dec_to_Q a == inject_Z (dcoef a * 10 ^ (dexp a - e)) * pow10 e.
Proof.
  intro H. unfold dec_to_Q.
  rewrite inject_Z_mult, <- (pow10_Z (dexp a - e)) by lia.
  rewrite <- Qmult_assoc, <- pow10_add.
  replace (dexp a - e + e)%Z with (dexp a) by lia. reflexivity.
Qed.

(** [<=] on decimals is [<=] on the rationals they denote. *)
Lemma dec_leb_spec a b : dec_leb a b = Qle_bool (dec_to_Q a) (dec_to_Q b).
Proof.
  unfold dec_leb. set (e := Z.min (dexp a) (dexp b)).
  pose proof (dec_to_Q_aligned a e ltac:(unfold e; lia)) as Ea.
  pose proof (dec_to_Q_aligned b e ltac:(unfold e; lia)) as Eb.
  set (x := (dcoef a * 10 ^ (dexp a - e))%Z) in *.
  set (y := (dcoef b * 10 ^ (dexp b - e))%Z) in *.
  pose proof (pow10_pos e) as P.
  destruct (Z.leb_spec x y) as [L|L].
  - symmetry. apply Qle_bool_iff. rewrite Ea, Eb.
    apply Z_to_Q_le in L. nra.
  - destruct (Qle_bool (dec_to_Q a) (dec_to_Q b)) eqn:E; [|reflexivity].
    exfalso. apply Qle_bool_iff in E. rewrite Ea, Eb in E.
    apply Z_to_Q_lt in L. nra.
Qed.

(** A product whose coefficient fits the context precision is exact. *)
Lemma dec_mul_exact a b :
  (Z.abs (dcoef a * dcoef b) < 10 ^ context_prec)%Z ->
  dec_to_Q (dec_mul a b) == dec_to_Q a * dec_to_Q b.
Proof.
  intro H. unfold dec_mul, dec_fix. cbn [dcoef dexp].
  apply Z.ltb_lt in H. rewrite H.
  unfold dec_to_Q. cbn [dcoef dexp].
  rewrite inject_Z_mult, pow10_add. ring.
Qed.

Lemma dec_mul_multiplier hi :
  numeric_10_2 hi ->
  dec_to_Q (dec_mul hi multiplier) == dec_to_Q hi * (12 # 10).
Proof.
  intros [_ B]. rewrite dec_mul_exact.
  - unfold multiplier, dec_to_Q at 2. cbn [dcoef dexp]. 
    setoid_replace (inject_Z 12 * pow10 (-1)) with (12 # 10) by reflexivity.
    reflexivity.
  - unfold multiplier, context_prec. cbn [dcoef].
    assert (E : (10 ^ 10 = 10000000000)%Z) by reflexivity.
    assert (E' : (10 ^ 28 = 10000000000000000000000000000)%Z) by reflexivity.
    rewrite E in B. rewrite E'. lia.
Qed.

Lemma dec_truthy_spec a : dec_truthy a = negb (Qeq_bool (dec_to_Q a) 0).
Proof.
  unfold dec_truthy. f_equal.
  pose proof (pow10_pos (dexp a)) as P.
  destruct (Z.eqb_spec (dcoef a) 0) as [E|NE].
  - symmetry. apply Qeq_bool_iff. unfold dec_to_Q. rewrite E. ring.
  - destruct (Qeq_bool (dec_to_Q a) 0) eqn:Q; [|reflexivity].
    exfalso. apply Qeq_bool_iff in Q. unfold dec_to_Q in Q.
    assert (Z0 : inject_Z (dcoef a) == 0).
    { destruct (Qmult_integral _ _ Q) as [Z0|Z0]; [exact Z0|lra]. }
    apply NE. unfold Qeq in Z0. simpl in Z0. lia.
Qed.

End DecimalFacts.

(** ** Substring test *)
Module StrFacts.
Import PyStr.
Local Open Scope string_scope.




End StrFacts.

(** ** The components of the score *)
Module ScoreFacts.
Import Binary64 Binary64Facts ExperienceFacts SkillsFacts DecimalFacts StrFacts.

(** The IEEE specification of Stdlib computes the same products and
    quotients as [fl] on small operands. *)
Lemma fl_agrees_with_ieee_ratio :
  forallb IEEE.agree_ratio (map Z.of_nat (seq 1 60)) = true.
Proof. vm_compute. reflexivity. Qed.

Lemma fl_agrees_with_ieee_times_0_7 :
  forallb IEEE.agree_times_0_7 (map Z.of_nat (seq 0 300)) = true.
Proof. vm_compute. reflexivity. Qed.

Lemma Qle_bool_Z a b : Qle_bool (inject_Z a) (inject_Z b) = (a <=? b).
Proof.
  destruct (Z.leb_spec a b) as [L|L].
  - apply Qle_bool_iff. apply Z_to_Q_le. exact L.
  - destruct (Qle_bool (inject_Z a) (inject_Z b)) eqn:E; [|reflexivity].
    apply Qle_bool_iff in E. rewrite <- Zle_Qle in E. lia.
Qed.

Lemma bool_eq_iff (a b : bool) : (a = true <-> b = true) -> a = b.
Proof.
  destruct a, b; intros [H1 H2]; try reflexivity.
  - symmetry. apply H1. reflexivity.
  - apply H2. reflexivity.
Qed.

Lemma experience_points_exact candidate job :
  0 <= CandidateProfile.experience_years candidate ->
  0 <= JobPosting.experience_required job < 2 ^ 48 ->
  experience_points candidate job
  = Spec.experience_component (CandidateProfile.experience_years candidate)
      (JobPosting.experience_required job).
Proof.
  intros H0 [R0 R1]. unfold experience_points, Spec.experience_component.
  set (have := CandidateProfile.experience_years candidate) in *.
  set (req := JobPosting.experience_required job) in *.
  rewrite Qle_bool_Z, Z.geb_leb.
  destruct (Z.leb_spec req have) as [L|L]; [reflexivity|].
  assert (E7 : int_ge_float have (float_mul (float_of_int req) lit_0_7)
               = Qle_bool ((7 # 10) * inject_Z req) (inject_Z have)).
  { apply bool_eq_iff. rewrite (ge_times_0_7 have req) by lia.
    rewrite Qle_bool_iff, Zle_Qle, !inject_Z_mult.
    change (inject_Z 7) with (7 # 1). change (inject_Z 10) with (10 # 1).
    split; intro; lra. }
  assert (E5 : int_ge_float have (float_mul (float_of_int req) lit_0_5)
               = Qle_bool ((5 # 10) * inject_Z req) (inject_Z have)).
  { apply bool_eq_iff. unfold int_ge_float. rewrite !Qle_bool_iff.
    rewrite (times_0_5_exact req) by lia. split; intro; lra. }
  rewrite E7, E5. reflexivity.
Qed.

(** Case analysis on every test and optional column in the goal. *)
Ltac case_tests :=
  repeat match goal with
         | |- context [match ?o with Some _ => _ | None => _ end] => destruct o
         | |- context [if ?b then _ else _] => destruct b
         end.

Lemma experience_points_range candidate job :
  0 <= experience_points candidate job <= 30.
Proof. unfold experience_points. case_tests; lia. Qed.

Lemma skills_points_eq db candidate_id job_id :
  skills_points db candidate_id job_id
  = match required_skills_of db job_id with
    | [] => 25
    | _ :: _ =>
        ratio_points
          (Spec.matched_weight (candidate_skill_ids_of db candidate_id)
             (required_skills_of db job_id))
          (Spec.total_weight (required_skills_of db job_id))
    end.
Proof.
  unfold skills_points.
  destruct (required_skills_of db job_id) as [|r l] eqn:E; [reflexivity|].
  rewrite skills_loop_sums.
  pose proof (total_weight_pos r l) as P. apply Z.ltb_lt in P. rewrite P.
  reflexivity.
Qed.

Lemma skills_points_range db candidate_id job_id :
  0 <= skills_points db candidate_id job_id <= 50.
Proof.
  rewrite skills_points_eq.
  destruct (required_skills_of db job_id) as [|r l]; [lia|].
  apply ratio_points_bounds.
  - apply matched_weight_bounds.
  - apply total_weight_pos.
Qed.

Section WithLower.
Variable str_lower : string -> string.

Lemma location_points_range candidate job :
  0 <= location_points str_lower candidate job <= 10.
Proof. unfold location_points. case_tests; lia. Qed.

Lemma location_points_eq candidate job :
  location_points str_lower candidate job
  = Spec.location_component str_lower
      (Spec.nonempty (CandidateProfile.location candidate))
      (Spec.nonempty (JobPosting.location job)).
Proof.
  unfold location_points, Spec.location_component, Spec.nonempty, location_truthy.
  destruct (CandidateProfile.location candidate) as [cl|];
    destruct (JobPosting.location job) as [jl|]; simpl; try reflexivity.
  - destruct (PyStr.truthy cl), (PyStr.truthy jl); reflexivity.
  - destruct (PyStr.truthy cl); reflexivity.
Qed.

End WithLower.

Lemma salary_points_range candidate job :
  0 <= salary_points candidate job <= 10.
Proof. unfold salary_points. case_tests; lia. Qed.

Lemma Qle_bool_comp_r x y z : (y == z)%Q -> Qle_bool x y = Qle_bool x z.
Proof.
  intro E. apply bool_eq_iff. rewrite !Qle_bool_iff. rewrite E. reflexivity.
Qed.

Lemma salary_points_eq candidate job :
  (forall hi, JobPosting.salary_max job = Some hi -> PyDecimal.numeric_10_2 hi) ->
  salary_points candidate job
  = Spec.salary_component
      (Spec.nonzero (CandidateProfile.salary_expectation candidate))
      (Spec.nonzero (JobPosting.salary_min job))
      (Spec.nonzero (JobPosting.salary_max job)).
Proof.
  intro N. unfold salary_points, Spec.salary_component, Spec.nonzero.
  destruct (CandidateProfile.salary_expectation candidate) as [e|];
    destruct (JobPosting.salary_min job) as [lo|];
    destruct (JobPosting.salary_max job) as [hi|];
    repeat match goal with
           | |- context [PyDecimal.dec_truthy ?x] => destruct (PyDecimal.dec_truthy x)
           end; simpl; try reflexivity.
  rewrite !dec_leb_spec.
  rewrite (Qle_bool_comp_r _ _ _ (dec_mul_multiplier hi (N hi eq_refl))).
  reflexivity.
Qed.

End ScoreFacts.

(** ** The match score *)
Module MatchScore.
Import Binary64 Binary64Facts ExperienceFacts SkillsFacts DecimalFacts StrFacts.
Import ScoreFacts.

(** The full match of the specification's scenario: 30 + 50 + 10 + 10. *)
Example berlin_full_match :
  calculate_job_match_score PyStr.ascii_lower Examples.berlin_db 1 1 = 100.
Proof. vm_compute. reflexivity. Qed.

(** The same posting with seventeen required skills of which the candidate
    holds weight 29 of 50: 30 + 28 + 10 + 10. *)
Example wide_partial_match :
  calculate_job_match_score PyStr.ascii_lower Examples.wide_db 1 1 = 78.
Proof. vm_compute. reflexivity. Qed.

(** C1.  For every candidate id and job id the score returned by
    [calculate_job_match_score] lies between 0 and 100, and it is the minimum
    of 100 and the sum of the experience, skills, location and salary
    components of the candidate and the posting the ids resolve to (the
    function returns 0 when an id does not resolve). *)
Theorem match_score_bounded (str_lower : string -> string) (db : Database)
  (candidate_id job_id : Z) :
  0 <= calculate_job_match_score str_lower db candidate_id job_id <= 100
  /\ calculate_job_match_score str_lower db candidate_id job_id
     = match query_get CandidateProfile.id (candidate_profiles db) candidate_id,
             query_get JobPosting.id (job_postings db) job_id with
       | Some candidate, Some job =>
           Z.min 100
             (experience_points candidate job
              + skills_points db candidate_id job_id
              + location_points str_lower candidate job
              + salary_points candidate job)
       | _, _ => 0
       end.
Proof.
  unfold calculate_job_match_score, max_score.
  destruct (query_get CandidateProfile.id (candidate_profiles db) candidate_id)
    as [candidate|]; [|split; [lia | reflexivity]].
  destruct (query_get JobPosting.id (job_postings db) job_id)
    as [job|]; [|split; [lia | reflexivity]].
  pose proof (experience_points_range candidate job).
  pose proof (skills_points_range db candidate_id job_id).
  pose proof (location_points_range str_lower candidate job).
  pose proof (salary_points_range candidate job).
  split; lia.
Qed.

(** C2, at a posting of total weight 50 of which the candidate holds 29:
    the code awards 28 points where [floor(29 / 50 * 50)] is 29, because
    [29 / 50] and its product with 50 are rounded to binary64 before the
    truncation. *)
Theorem skills_points_rounding_slip :
  Spec.total_weight (required_skills_of Examples.wide_db 1) = 50
  /\ Spec.matched_weight (candidate_skill_ids_of Examples.wide_db 1)
       (required_skills_of Examples.wide_db 1) = 29
  /\ Spec.skills_component (candidate_skill_ids_of Examples.wide_db 1)
       (required_skills_of Examples.wide_db 1) = 29
  /\ skills_points Examples.wide_db 1 1 = 28.
Proof. vm_compute. repeat split; reflexivity. Qed.

(** The parts of C2 the code does satisfy: 25 without required skills, and
    otherwise the truncated binary64 value of [(matched / total) * 50] for
    the two weighted sums. *)
Lemma skills_points_no_required_skills db candidate_id job_id :
  required_skills_of db job_id = [] ->
  skills_points db candidate_id job_id = 25.
Proof. intro E. rewrite skills_points_eq, E. reflexivity. Qed.

(** C3 as stated fails: with an expectation of 60000.00 and a posting
    paying 0.00 to 70000.00 all three values are present and the expectation
    lies in the range, yet the component is 0. *)
Lemma salary_zero_minimum_scores_nothing :
  CandidateProfile.salary_expectation Examples.berlin_candidate
    = Some (Examples.amount 6000000)
  /\ JobPosting.salary_min Examples.open_floor_job = Some (Examples.amount 0)
  /\ JobPosting.salary_max Examples.open_floor_job
     = Some (Examples.amount 7000000)
  /\ Spec.salary_component
       (CandidateProfile.salary_expectation Examples.berlin_candidate)
       (JobPosting.salary_min Examples.open_floor_job)
       (JobPosting.salary_max Examples.open_floor_job) = 10
  /\ salary_points Examples.berlin_candidate Examples.open_floor_job = 0.
Proof. vm_compute. repeat split; reflexivity. Qed.

(** C3, amended.  The salary component is evaluated exactly when the
    expectation, [salary_min] and [salary_max] are all present and non-zero;
    it is then 10 when [salary_min <= expectation <= salary_max], else 5
    when [expectation <= salary_max * 1.2], else 0, the comparisons being
    those of the exact rationals the decimals denote; otherwise it is 0. *)
Theorem salary_points_exact_decimal
  (candidate : CandidateProfile.t) (job : JobPosting.t) :
  (forall hi, JobPosting.salary_max job = Some hi -> PyDecimal.numeric_10_2 hi) ->
  salary_points candidate job
  = Spec.salary_component
      (Spec.nonzero (CandidateProfile.salary_expectation candidate))
      (Spec.nonzero (JobPosting.salary_min job))
      (Spec.nonzero (JobPosting.salary_max job)).
Proof. apply salary_points_eq. Qed.

Lemma salary_points_exact_decimal_witness :
  PyDecimal.numeric_10_2 (Examples.amount 7000000)
  /\ salary_points Examples.berlin_candidate Examples.berlin_job = 10.
Proof.
  assert (N : PyDecimal.numeric_10_2 (Examples.amount 7000000)).
  { split; [reflexivity | vm_compute; reflexivity]. }
  split; [exact N|].
  rewrite (salary_points_exact_decimal Examples.berlin_candidate Examples.berlin_job).
  - vm_compute. reflexivity.
  - intros hi E. injection E as <-. exact N.
Defined.

(** C6.  With [have >= 0] years of experience against [req >= 0] required,
    the experience component is 30 when [have >= req], else 20 when
    [have >= 0.7 * req], else 10 when [have >= 0.5 * req], else 0, the
    thresholds being exact rationals: the binary64 products [req * 0.7] and
    [req * 0.5] never move a comparison with an integer.  With [req = 0] the
    component is 30.  Both values are [db.Integer] columns, hence below
    [2^31]; the statement covers every [req] below [2^48]. *)
Theorem experience_points_exact_tiers
  (candidate : CandidateProfile.t) (job : JobPosting.t) :
  0 <= CandidateProfile.experience_years candidate ->
  0 <= JobPosting.experience_required job < 2 ^ 48 ->
  experience_points candidate job
  = Spec.experience_component (CandidateProfile.experience_years candidate)
      (JobPosting.experience_required job)
  /\ (JobPosting.experience_required job = 0 ->
      experience_points candidate job = 30).
Proof.
  intros H R. split; [apply experience_points_exact; assumption|].
  intro Z0. unfold experience_points. rewrite Z0.
  destruct (Z.geb_spec (CandidateProfile.experience_years candidate) 0);
    [reflexivity | lia].
Qed.

Lemma experience_points_exact_tiers_witness :
  0 <= CandidateProfile.experience_years Examples.volunteer
  /\ 0 <= JobPosting.experience_required Examples.ten_year_job < 2 ^ 48
  /\ experience_points Examples.volunteer Examples.ten_year_job = 20.
Proof.
  assert (H : 0 <= CandidateProfile.experience_years Examples.volunteer)
    by (simpl; lia).
  assert (R : 0 <= JobPosting.experience_required Examples.ten_year_job < 2 ^ 48)
    by (simpl; lia).
  split; [exact H | split; [exact R|]].
  rewrite (proj1 (experience_points_exact_tiers
                    Examples.volunteer Examples.ten_year_job H R)).
  vm_compute. reflexivity.
Defined.





(** C10.  Optional columns that are present but falsy count as absent: an
    empty candidate or posting location makes the location component 0, and
    a zero expectation, [salary_min] or [salary_max] makes the salary
    component 0, wherever the expectation lies. *)
Theorem falsy_columns_count_as_absent (str_lower : string -> string)
  (candidate : CandidateProfile.t) (job : JobPosting.t) :
  (CandidateProfile.location candidate = Some ""%string
   \/ JobPosting.location job = Some ""%string ->
   location_points str_lower candidate job = 0)
  /\ (forall z,
        (PyDecimal.dec_to_Q z == 0)%Q ->
        CandidateProfile.salary_expectation candidate = Some z
        \/ JobPosting.salary_min job = Some z
        \/ JobPosting.salary_max job = Some z ->
        salary_points candidate job = 0).
Proof.
  split.
  - intro H. rewrite location_points_eq.
    unfold Spec.location_component, Spec.nonempty.
    destruct H as [E | E]; rewrite E; simpl; [reflexivity|].
    destruct (CandidateProfile.location candidate) as [cl|]; [|reflexivity].
    destruct (PyStr.truthy cl); reflexivity.
  - intros z Z0 H.
    assert (T : PyDecimal.dec_truthy z = false).
    { rewrite dec_truthy_spec. apply Qeq_bool_iff in Z0. rewrite Z0. reflexivity. }
    unfold salary_points.
    destruct H as [E | [E | E]]; rewrite E;
      repeat match goal with
             | |- context [match ?o with Some _ => _ | None => _ end] =>
                 destruct o
             end; rewrite ?T, ?andb_false_r; simpl; reflexivity.
Qed.


Lemma falsy_columns_count_as_absent_witness :
  (PyDecimal.dec_to_Q (Examples.amount 0) == 0)%Q
  /\ location_points PyStr.ascii_lower
       Examples.berlin_candidate Examples.unlocated_job = 0
  /\ salary_points Examples.berlin_candidate Examples.open_floor_job = 0.
Proof.
  assert (Z0 : (PyDecimal.dec_to_Q (Examples.amount 0) == 0)%Q) by reflexivity.
  split; [exact Z0 | split].
  - apply (proj1 (falsy_columns_count_as_absent PyStr.ascii_lower
                    Examples.berlin_candidate Examples.unlocated_job)).
    right. reflexivity.
  - apply (proj2 (falsy_columns_count_as_absent PyStr.ascii_lower
                    Examples.berlin_candidate Examples.open_floor_job)
             (Examples.amount 0) Z0).
    right. left. reflexivity.
Defined.

Lemma matched_weight_app ids l1 l2 :
  Spec.matched_weight ids (l1 ++ l2)
  = Spec.matched_weight ids l1 + Spec.matched_weight ids l2.
Proof.
  unfold Spec.matched_weight. rewrite filter_app. apply total_weight_app.
Qed.

Lemma required_skills_of_insert db pre post row job_id :
  JobRequiredSkill.job_id row = job_id ->
  required_skills_of (with_required_skills db (pre ++ row :: post)) job_id
  = filter (fun r => JobRequiredSkill.job_id r =? job_id) pre
    ++ row :: filter (fun r => JobRequiredSkill.job_id r =? job_id) post.
Proof.
  intro E. unfold required_skills_of, with_required_skills. cbn [job_required_skills].
  rewrite filter_app. cbn [filter]. rewrite E, Z.eqb_refl. reflexivity.
Qed.

Lemma skills_points_insert db pre post row candidate_id job_id :
  JobRequiredSkill.job_id row = job_id ->
  py_in (JobRequiredSkill.skill_id row) (candidate_skill_ids_of db candidate_id)
  = false ->
  exists m t,
    0 <= m /\ 0 <= t /\
    skills_points (with_required_skills db (pre ++ row :: post))
      candidate_id job_id
    = ratio_points m (t + weight (JobRequiredSkill.importance row))
    /\ m = Spec.matched_weight (candidate_skill_ids_of db candidate_id)
             (filter (fun r => JobRequiredSkill.job_id r =? job_id) (pre ++ post))
    /\ t = Spec.total_weight
             (filter (fun r => JobRequiredSkill.job_id r =? job_id) (pre ++ post)).
Proof.
  intros E N.
  set (ids := candidate_skill_ids_of db candidate_id) in *.
  set (f := fun r => JobRequiredSkill.job_id r =? job_id).
  exists (Spec.matched_weight ids (filter f (pre ++ post))),
         (Spec.total_weight (filter f (pre ++ post))).
  split; [apply matched_weight_bounds|].
  split; [apply total_weight_nonneg|].
  split; [|split; reflexivity].
  rewrite skills_points_eq, (required_skills_of_insert db pre post row job_id E).
  fold f.
  change (candidate_skill_ids_of (with_required_skills db (pre ++ row :: post))
            candidate_id) with ids.
  assert (M : Spec.matched_weight ids (filter f pre ++ row :: filter f post)
              = Spec.matched_weight ids (filter f (pre ++ post))).
  { rewrite filter_app, !matched_weight_app, matched_weight_cons, N. lia. }
  assert (T : Spec.total_weight (filter f pre ++ row :: filter f post)
              = Spec.total_weight (filter f (pre ++ post))
                + weight (JobRequiredSkill.importance row)).
  { rewrite filter_app, !total_weight_app, total_weight_cons. lia. }
  rewrite M, T.
  destruct (filter f pre); reflexivity.
Qed.

(** C9.  Two postings that differ only in the tag of one required skill,
    Required in the first and NiceToHave in the second: when the candidate
    does not hold that skill, the Required variant scores no more than the
    NiceToHave variant. *)
Theorem required_tag_scores_no_more (str_lower : string -> string)
  (db : Database) (pre post : list JobRequiredSkill.t)
  (row_id job_id skill_id min_years candidate_id : Z) :
  let variant imp :=
    with_required_skills db
      (pre ++ JobRequiredSkill.mk row_id job_id skill_id imp min_years :: post) in
  py_in skill_id (candidate_skill_ids_of db candidate_id) = false ->
  calculate_job_match_score str_lower (variant Required) candidate_id job_id
  <= calculate_job_match_score str_lower (variant NiceToHave) candidate_id job_id.
Proof.
  intros variant N. unfold variant, calculate_job_match_score.
  cbn [with_required_skills candidate_profiles job_postings].
  destruct (query_get CandidateProfile.id (candidate_profiles db) candidate_id)
    as [candidate|]; [|lia].
  destruct (query_get JobPosting.id (job_postings db) job_id) as [job|]; [|lia].
  destruct (skills_points_insert db pre post
              (JobRequiredSkill.mk row_id job_id skill_id Required min_years)
              candidate_id job_id eq_refl N)
    as (m1 & t1 & M0 & T0 & E1 & Em1 & Et1).
  destruct (skills_points_insert db pre post
              (JobRequiredSkill.mk row_id job_id skill_id NiceToHave min_years)
              candidate_id job_id eq_refl N)
    as (m2 & t2 & _ & _ & E2 & Em2 & Et2).
  fold (with_required_skills db
          (pre ++ JobRequiredSkill.mk row_id job_id skill_id Required min_years :: post)).
  fold (with_required_skills db
          (pre ++ JobRequiredSkill.mk row_id job_id skill_id NiceToHave min_years :: post)).
  rewrite E1, E2. subst m2 t2. rewrite <- Em1, <- Et1. cbn [JobRequiredSkill.importance weight].
  pose proof (ratio_points_antitone m1 (t1 + 3) (t1 + 1) M0 ltac:(lia)).
  lia.
Qed.

Lemma required_tag_scores_no_more_witness :
  py_in 8 (candidate_skill_ids_of Examples.berlin_db 1) = false
  /\ calculate_job_match_score PyStr.ascii_lower
       (with_required_skills Examples.berlin_db
          (Examples.one_required_skill
           ++ [JobRequiredSkill.mk 2 1 8 Required 0])) 1 1
     <= calculate_job_match_score PyStr.ascii_lower
          (with_required_skills Examples.berlin_db
             (Examples.one_required_skill
              ++ [JobRequiredSkill.mk 2 1 8 NiceToHave 0])) 1 1.
Proof.
  split; [reflexivity|].
  apply (required_tag_scores_no_more PyStr.ascii_lower
           Examples.berlin_db Examples.one_required_skill [] 2 1 8 0 1).
  reflexivity.
Defined.

End MatchScore.

(** ** Recommendations *)
Module RecommendationFacts.

Section Sorting.
Context {A : Type} (key : A -> Z).

Lemma insert_desc_In x y l : In y (insert_desc key x l) <-> y = x \/ In y l.
Proof.
  induction l as [|z l IH]; simpl.
  - split; [intros [E|[]]; left; symmetry; exact E | intros [E|[]]; left; symmetry; exact E].
  - destruct (key z <=? key x); simpl.
    + split; [intros [E|H]; [left; symmetry; exact E | right; exact H]
             | intros [E|H]; [left; symmetry; exact E | right; exact H]].
    + rewrite IH. tauto.
Qed.

Lemma sort_desc_In y l : In y (sort_desc key l) <-> In y l.
Proof.
  induction l as [|x l IH]; simpl; [tauto|].
  rewrite insert_desc_In, IH. split; intros [E|H]; auto.
Qed.

Lemma insert_desc_sorted x l :
  StronglySorted (desc key) l -> StronglySorted (desc key) (insert_desc key x l).
Proof.
  induction 1 as [|z l S IH F]; simpl.
  - constructor; constructor.
  - destruct (Z.leb_spec (key z) (key x)) as [L|L].
    + constructor; [constructor; assumption|].
      constructor; [exact L|].
      rewrite Forall_forall in F |- *. intros y Hy.
      specialize (F y Hy). unfold desc in *. lia.
    + constructor; [exact IH|].
      rewrite Forall_forall in F |- *. intros y Hy.
      apply insert_desc_In in Hy. destruct Hy as [-> | Hy].
      * unfold desc. lia.
      * apply F. exact Hy.
Qed.

Lemma sort_desc_sorted l : StronglySorted (desc key) (sort_desc key l).
Proof.
  induction l as [|x l IH]; simpl; [constructor | apply insert_desc_sorted; exact IH].
Qed.

Lemma insert_desc_perm x l : Permutation (insert_desc key x l) (x :: l).
Proof.
  induction l as [|z l IH]; simpl; [apply Permutation_refl|].
  destruct (key z <=? key x); [apply Permutation_refl|].
  apply perm_trans with (z :: x :: l); [apply perm_skip; exact IH | apply perm_swap].
Qed.

(** Sorting keeps the entries, each as often as before. *)
Lemma sort_desc_perm l : Permutation (sort_desc key l) l.
Proof.
  induction l as [|x l IH]; simpl; [apply perm_nil|].
  apply perm_trans with (x :: sort_desc key l);
    [apply insert_desc_perm | apply perm_skip; exact IH].
Qed.

(** In a sorted list no later entry has a larger key than an earlier one. *)
Lemma sorted_split l1 l2 a b :
  StronglySorted (desc key) (l1 ++ l2) -> In a l1 -> In b l2 -> key b <= key a.
Proof.
  induction l1 as [|z l1 IH]; intros S Ha Hb; [destruct Ha|].
  simpl in S. apply StronglySorted_inv in S. destruct S as [S F].
  destruct Ha as [<-|Ha].
  - rewrite Forall_forall in F. apply (F b). apply in_or_app. right. exact Hb.
  - apply IH; assumption.
Qed.

Lemma firstn_In_inv n (l : list A) y : In y (firstn n l) -> In y l.
Proof.
  intro H. rewrite <- (firstn_skipn n l). apply in_or_app. left. exact H.
Qed.

Lemma firstn_sorted n l : StronglySorted (desc key) l -> StronglySorted (desc key) (firstn n l).
Proof.
  intro S. revert n. induction S as [|z l S IH F]; intro n.
  - rewrite firstn_nil. constructor.
  - destruct n as [|n]; simpl; [constructor|].
    constructor; [apply IH|].
    rewrite Forall_forall in F |- *. intros y Hy. apply F.
    apply (firstn_In_inv n). exact Hy.
Qed.

Lemma sorted_adjacent l i a b :
  StronglySorted (desc key) l ->
  nth_error l i = Some a -> nth_error l (S i) = Some b -> key b <= key a.
Proof.
  intro S. revert i. induction S as [|z l S IH F]; intros i Ha Hb.
  - destruct i; discriminate.
  - destruct i as [|i].
    + simpl in Ha, Hb. injection Ha as <-.
      rewrite Forall_forall in F. apply (F b).
      apply (nth_error_In l 0). exact Hb.
    + simpl in Ha. apply (IH i); [exact Ha | exact Hb].
Qed.

End Sorting.

Lemma py_in_false x l : py_in x l = false -> ~ In x l.
Proof.
  unfold py_in. intros H I.
  assert (T : existsb (Z.eqb x) l = true).
  { apply existsb_exists. exists x. split; [exact I | apply Z.eqb_refl]. }
  congruence.
Qed.

Lemma available_jobs_In db candidate_id j c :
  In (j, c) (available_jobs db candidate_id) ->
  In j (job_postings db)
  /\ In c (companies db)
  /\ JobPosting.company_id j = Company.id c
  /\ JobPosting.is_active j = true
  /\ forall a, In a (job_applications db) ->
               JobApplication.candidate_id a = candidate_id ->
               JobApplication.job_id a <> JobPosting.id j.
Proof.
  unfold available_jobs. intro H. apply in_flat_map in H.
  destruct H as (j' & Hj & H).
  destruct (JobPosting.is_active j') eqn:Act; [|destruct H].
  destruct (py_in (JobPosting.id j') (applied_job_ids db candidate_id)) eqn:App;
    [destruct H|].
  simpl in H. apply in_map_iff in H. destruct H as (c' & E & Hc).
  injection E as -> ->. apply filter_In in Hc. destruct Hc as [Hc Ec].
  apply Z.eqb_eq in Ec.
  repeat split; try assumption.
  intros a Ha Ca Ja. apply py_in_false in App. apply App.
  unfold applied_job_ids. rewrite <- Ja. apply in_map.
  apply filter_In. split; [exact Ha | apply Z.eqb_eq; exact Ca].
Qed.

Lemma job_matches_In str_lower db candidate_id m :
  In m (job_matches str_lower db candidate_id) ->
  In (job m, company m) (available_jobs db candidate_id)
  /\ match_score m
     = calculate_job_match_score str_lower db candidate_id (JobPosting.id (job m))
  /\ 30 < match_score m.
Proof.
  unfold job_matches. intro H. apply in_flat_map in H.
  destruct H as ([j c] & Hjc & H). cbn [fst snd] in H.
  destruct (Z.ltb_spec 30 (calculate_job_match_score str_lower db candidate_id
                             (JobPosting.id j))) as [L|L]; [|destruct H].
  destruct H as [<-|[]]. cbn [job company match_score].
  repeat split; assumption.
Qed.

End RecommendationFacts.

Module Recommendations.
Import RecommendationFacts.

(** C4.  [get_job_recommendations] returns the empty list when the
    candidate id does not resolve.  Otherwise every entry is an active
    posting the candidate has not applied to, carries the score computed for
    it, and that score is above 30; the entries are in descending order of
    score (no entry scores more than the one before it); and there are at
    most 10 of them.  The entries are the best of the qualifying postings:
    together with the ones left out they make up the list the loop built,
    and no posting left out scores more than an entry. *)
Theorem recommendations_filtered_sorted_capped (str_lower : string -> string)
  (db : Database) (candidate_id : Z) :
  let result := get_job_recommendations str_lower db candidate_id in
  (query_get CandidateProfile.id (candidate_profiles db) candidate_id = None ->
   result = [])
  /\ (forall m, In m result ->
        In (job m) (job_postings db)
        /\ JobPosting.is_active (job m) = true
        /\ (forall a, In a (job_applications db) ->
                      JobApplication.candidate_id a = candidate_id ->
                      JobApplication.job_id a <> JobPosting.id (job m))
        /\ match_score m
           = calculate_job_match_score str_lower db candidate_id
               (JobPosting.id (job m))
        /\ 30 < match_score m)
  /\ (forall i a b,
        nth_error result i = Some a -> nth_error result (S i) = Some b ->
        match_score b <= match_score a)
  /\ (List.length result <= 10)%nat
  /\ (forall candidate,
        query_get CandidateProfile.id (candidate_profiles db) candidate_id
        = Some candidate ->
        exists rest,
          Permutation (result ++ rest) (job_matches str_lower db candidate_id)
          /\ forall m r, In m result -> In r rest ->
                         match_score r <= match_score m).
Proof.
  intro result. unfold result, get_job_recommendations.
  destruct (query_get CandidateProfile.id (candidate_profiles db) candidate_id)
    as [candidate|].
  - split; [discriminate|]. split; [|split; [|split]].
    + intros m Hm. apply firstn_In_inv, sort_desc_In in Hm.
      apply job_matches_In in Hm. destruct Hm as (Av & Sc & Gt).
      apply available_jobs_In in Av. destruct Av as (Hj & _ & _ & Act & App).
      repeat split; assumption.
    + intros i a b Ha Hb.
      refine (sorted_adjacent match_score _ i a b _ Ha Hb).
      apply firstn_sorted, sort_desc_sorted.
    + apply firstn_le_length.
    + intros _ _.
      exists (skipn 10 (sort_desc match_score (job_matches str_lower db candidate_id))).
      rewrite firstn_skipn. split; [apply sort_desc_perm|].
      intros m r Hm Hr.
      apply (sorted_split match_score _ _ m r
               (eq_ind_r (StronglySorted (desc match_score))
                  (sort_desc_sorted match_score _) (firstn_skipn 10 _)) Hm Hr).
  - split; [reflexivity|]. split; [intros m []|]. split; [|split].
    + intros i a b Ha. destruct i; discriminate.
    + simpl. lia.
    + intros c E. discriminate E.
Qed.

Lemma recommendations_filtered_sorted_capped_witness :
  map (fun m => (JobPosting.id (job m), match_score m))
    (get_job_recommendations PyStr.ascii_lower Examples.board_db 1)
  = [(1, 100); (4, 40)]
  /\ get_job_recommendations PyStr.ascii_lower Examples.board_db 99 = []
  /\ (List.length (get_job_recommendations PyStr.ascii_lower Examples.board_db 1)
      <= 10)%nat.
Proof.
  split; [vm_compute; reflexivity|]. split.
  - apply (proj1 (recommendations_filtered_sorted_capped
                    PyStr.ascii_lower Examples.board_db 99)).
    reflexivity.
  - apply (proj2 (proj2 (proj2 (recommendations_filtered_sorted_capped
                                  PyStr.ascii_lower Examples.board_db 1)))).
Defined.

End Recommendations.

(** ** The match notifier *)
Module NotifierFacts.

(** One call of [create_notification] on a clean session: it returns, the
    store is asked to commit once, and the row and the confirmation, or the
    error record, are left behind. *)
Lemma create_notification_effect user_id title message ty url w :
  session_new w = [] ->
  create_notification user_id title message ty url w
  = Returned tt
      (match commit_fault w (commits w) with
       | None =>
           mkWorld (database w)
             (notifications w ++ [Notification.mk user_id title message ty url])
             [] (logger w ++ [LogInfo (created_text user_id title)])
             (S (commits w)) (commit_fault w)
       | Some e =>
           mkWorld (database w) (notifications w) []
             (logger w ++ [LogError (error_text e)])
             (S (commits w)) (commit_fault w)
       end).
Proof.
  intro Clean.
  unfold create_notification, try_except, bind, db_session_add,
    db_session_commit, db_session_rollback, logger_info, logger_error, log_record.
  cbn [database notifications session_new logger commits commit_fault].
  rewrite Clean. cbn [app].
  destruct (commit_fault w (commits w)) as [e|]; reflexivity.
Qed.

Section Batch.
Variable str_lower : string -> string.
Variable job : JobPosting.t.
Variable job_id : Z.

Lemma attempts_cons first c l :
  Spec.attempts first (c :: l) = (first, c) :: Spec.attempts (S first) l.
Proof. reflexivity. Qed.

Lemma batch_effect (l : list CandidateProfile.t) (w : World) :
  session_new w = [] ->
  exists w',
    for_each l (notify_candidate str_lower job job_id) w = Returned tt w'
    /\ database w' = database w
    /\ commit_fault w' = commit_fault w
    /\ session_new w' = []
    /\ commits w'
       = (commits w
          + List.length (filter (Spec.qualifies str_lower (database w) job_id) l))%nat
    /\ logger w'
       = logger w
         ++ map (Spec.attempt_log (commit_fault w))
              (Spec.attempts (commits w)
                 (filter (Spec.qualifies str_lower (database w) job_id) l))
    /\ notifications w'
       = notifications w
         ++ map (fun a => Spec.match_notification str_lower (database w)
                            job job_id (snd a))
              (filter (Spec.attempt_ok (commit_fault w))
                 (Spec.attempts (commits w)
                    (filter (Spec.qualifies str_lower (database w) job_id) l))).
Proof.
  revert w. induction l as [|c l IH]; intros w Clean.
  - exists w. cbn [for_each filter List.length map Spec.attempts combine seq].
    rewrite !app_nil_r, Nat.add_0_r. repeat split; auto.
  - cbn [for_each]. unfold bind. cbn [filter].
    destruct (Spec.qualifies str_lower (database w) job_id c) eqn:Q.
    + assert (B : notify_candidate str_lower job job_id c w
                  = create_notification (CandidateProfile.user_id c) match_title
                      (match_message job
                         (calculate_job_match_score str_lower (database w)
                            (CandidateProfile.id c) job_id))
                      job_match (Some (url_for_job_details job_id)) w).
      { unfold notify_candidate. unfold Spec.qualifies in Q. rewrite Q. reflexivity. }
      rewrite B, (create_notification_effect _ _ _ _ _ w Clean).
      set (w1 := match commit_fault w (commits w) with
                 | None => _ | Some e => _ end).
      assert (D1 : database w1 = database w)
        by (unfold w1; destruct (commit_fault w (commits w)); reflexivity).
      assert (F1 : commit_fault w1 = commit_fault w)
        by (unfold w1; destruct (commit_fault w (commits w)); reflexivity).
      assert (C1 : commits w1 = S (commits w))
        by (unfold w1; destruct (commit_fault w (commits w)); reflexivity).
      assert (S1 : session_new w1 = [])
        by (unfold w1; destruct (commit_fault w (commits w)); reflexivity).
      destruct (IH w1 S1) as (w' & R & D & F & S & C & L & N).
      rewrite D1 in D, C, L, N. rewrite F1 in F, L, N. rewrite C1 in C, L, N.
      exists w'.
      split; [exact R|]. split; [exact D|]. split; [exact F|]. split; [exact S|].
      rewrite attempts_cons. cbn [List.length map filter].
      split; [lia|].
      assert (HL : Spec.attempt_log (commit_fault w) (commits w, c)
                   = match commit_fault w (commits w) with
                     | None =>
                         LogInfo (created_text (CandidateProfile.user_id c)
                                    match_title)
                     | Some e => LogError (error_text e)
                     end) by reflexivity.
      assert (HO : Spec.attempt_ok (commit_fault w) (commits w, c)
                   = match commit_fault w (commits w) with
                     | None => true
                     | Some _ => false
                     end) by reflexivity.
      rewrite L, N, HL, HO. unfold w1.
      destruct (commit_fault w (commits w)) as [e|];
        cbn [logger notifications map]; rewrite <- ?app_assoc; split; reflexivity.
    + assert (B : notify_candidate str_lower job job_id c w = Returned tt w).
      { unfold notify_candidate. unfold Spec.qualifies in Q. rewrite Q. reflexivity. }
      rewrite B. exact (IH w Clean).
Qed.

End Batch.

Lemma notify_matching_candidates_effect str_lower job_id job w :
  session_new w = [] ->
  query_get JobPosting.id (job_postings (database w)) job_id = Some job ->
  exists w',
    notify_matching_candidates str_lower job_id w = Returned tt w'
    /\ database w' = database w
    /\ commits w'
       = (commits w + List.length (Spec.announced str_lower (database w) job_id))%nat
    /\ logger w'
       = logger w
         ++ map (Spec.attempt_log (commit_fault w))
              (Spec.attempts (commits w)
                 (Spec.announced str_lower (database w) job_id))
    /\ notifications w'
       = notifications w
         ++ map (fun a => Spec.match_notification str_lower (database w)
                            job job_id (snd a))
              (filter (Spec.attempt_ok (commit_fault w))
                 (Spec.attempts (commits w)
                    (Spec.announced str_lower (database w) job_id))).
Proof.
  intros Clean J. unfold notify_matching_candidates, Spec.announced. rewrite J.
  destruct (batch_effect str_lower job job_id (active_candidates (database w)) w Clean)
    as (w' & R & D & _ & _ & H).
  exists w'. split; [exact R|]. split; [exact D | exact H].
Qed.

Lemma attempts_all_ok fault first l :
  (forall k, fault k = None) ->
  map (fun a : nat * CandidateProfile.t => snd a)
    (filter (Spec.attempt_ok fault) (Spec.attempts first l)) = l.
Proof.
  intro NF. unfold Spec.attempts. revert first.
  induction l as [|c l IH]; intro first; [reflexivity|].
  cbn [List.length seq combine filter]. unfold Spec.attempt_ok at 1. cbn [fst].
  rewrite NF. cbn [map snd]. rewrite IH. reflexivity.
Qed.


Lemma announced_In str_lower db job_id c :
  In c (Spec.announced str_lower db job_id)
  <-> In c (active_candidates db)
      /\ 70 <= calculate_job_match_score str_lower db (CandidateProfile.id c) job_id.
Proof.
  unfold Spec.announced, Spec.qualifies. rewrite filter_In, Z.leb_le. reflexivity.
Qed.

End NotifierFacts.

Module Notifier.
Import NotifierFacts.

(** C5.  Called on a session without pending rows (as [create_job] does,
    after its commit), [notify_matching_candidates] leaves everything as it
    is when the job id does not resolve.  Otherwise it goes through the
    candidates of active accounts and asks the sink for one write per
    candidate whose score is at least 70 and for none below 70; when the
    sink accepts the
    writes, the notifications added are exactly those of these candidates.
    The notification of a candidate carries the candidate's user id, the
    fixed title, a message that interpolates the job's title and the
    candidate's score, the category [job_match] and the link to the job:
    the path [/job/] followed by the job's id. *)
Theorem notify_threshold (str_lower : string -> string) (job_id : Z) (w : World) :
  session_new w = [] ->
  match query_get JobPosting.id (job_postings (database w)) job_id with
  | None => notify_matching_candidates str_lower job_id w = Returned tt w
  | Some job =>
      exists w',
        notify_matching_candidates str_lower job_id w = Returned tt w'
        /\ (forall c,
              In c (Spec.announced str_lower (database w) job_id)
              <-> In c (active_candidates (database w))
                  /\ 70 <= calculate_job_match_score str_lower (database w)
                             (CandidateProfile.id c) job_id)
        /\ commits w'
           = (commits w
              + List.length (Spec.announced str_lower (database w) job_id))%nat
        /\ ((forall k, commit_fault w k = None) ->
            notifications w'
            = notifications w
              ++ map (Spec.match_notification str_lower (database w) job job_id)
                   (Spec.announced str_lower (database w) job_id))
        /\ (forall c,
              let n := Spec.match_notification str_lower (database w) job
                         job_id c in
              Notification.user_id n = CandidateProfile.user_id c
              /\ Notification.title n = "New Job Match!"%string
              /\ Spec.interpolates (Notification.message n)
                   (JobPosting.title job)
                   (calculate_job_match_score str_lower (database w)
                      (CandidateProfile.id c) job_id)
              /\ Notification.notification_type n = job_match
              /\ Spec.links_to_job (Notification.action_url n) job_id)
  end.
Proof.
  intro Clean.
  destruct (query_get JobPosting.id (job_postings (database w)) job_id)
    as [job|] eqn:J.
  - destruct (notify_matching_candidates_effect str_lower job_id job w Clean J)
      as (w' & R & _ & C & _ & N).
    exists w'. split; [exact R|]. split; [intro c; apply announced_In|].
    split; [exact C|]. split.
    + intro NF. rewrite N. f_equal.
      transitivity
        (map (Spec.match_notification str_lower (database w) job job_id)
           (map (fun a : nat * CandidateProfile.t => snd a)
              (filter (Spec.attempt_ok (commit_fault w))
                 (Spec.attempts (commits w)
                    (Spec.announced str_lower (database w) job_id))))).
      * symmetry. apply map_map.
      * rewrite (attempts_all_ok _ _ _ NF). reflexivity.
    + intros c n. unfold n, Spec.match_notification.
      cbn [Notification.user_id Notification.title Notification.message
           Notification.notification_type Notification.action_url].
      repeat split.
      exists ("A new job " ++ String "034"%char EmptyString)%string,
             (String "034"%char " matches your profile with ")%string,
             "% compatibility!"%string.
      reflexivity.
  - unfold notify_matching_candidates. rewrite J. reflexivity.
Qed.

(** C8.  Whatever writes the sink refuses, a batch of
    [notify_matching_candidates] started on a session without pending rows
    returns normally: every candidate with a
    score of at least 70 gets its write, each refused write is caught and
    leaves an error record in the log, and the notifications of the
    accepted writes are all stored. *)
Theorem sink_failures_are_isolated (str_lower : string -> string)
  (job_id : Z) (job : JobPosting.t) (w : World) :
  session_new w = [] ->
  query_get JobPosting.id (job_postings (database w)) job_id = Some job ->
  exists w',
    notify_matching_candidates str_lower job_id w = Returned tt w'
    /\ commits w'
       = (commits w
          + List.length (Spec.announced str_lower (database w) job_id))%nat
    /\ logger w'
       = logger w
         ++ map (Spec.attempt_log (commit_fault w))
              (Spec.attempts (commits w)
                 (Spec.announced str_lower (database w) job_id))
    /\ notifications w'
       = notifications w
         ++ map (fun a => Spec.match_notification str_lower (database w)
                            job job_id (snd a))
              (filter (Spec.attempt_ok (commit_fault w))
                 (Spec.attempts (commits w)
                    (Spec.announced str_lower (database w) job_id))).
Proof.
  intros Clean J.
  destruct (notify_matching_candidates_effect str_lower job_id job w Clean J)
    as (w' & R & _ & H).
  exists w'. split; [exact R | exact H].
Qed.


Lemma notify_threshold_witness :
  session_new (Examples.crowd_world Examples.never_fails) = []
  /\ exists w',
       notify_matching_candidates PyStr.ascii_lower 1
         (Examples.crowd_world Examples.never_fails) = Returned tt w'
       /\ commits w' = 2%nat
       /\ map Notification.user_id (notifications w') = [11; 13]
       /\ map Notification.message (notifications w')
          = [("A new job "
              ++ String "034"%char
                   ("Engineer"
                    ++ String "034"%char
                         " matches your profile with 100% compatibility!"))%string;
             ("A new job "
              ++ String "034"%char
                   ("Engineer"
                    ++ String "034"%char
                         " matches your profile with 100% compatibility!"))%string]
       /\ map Notification.action_url (notifications w')
          = [Some "/job/1"%string; Some "/job/1"%string].
Proof.
  split; [reflexivity|].
  destruct (notify_threshold PyStr.ascii_lower 1
              (Examples.crowd_world Examples.never_fails) eq_refl)
    as (w' & R & _ & C & N & _).
  exists w'. split; [exact R|]. split; [|split; [|split]].
  - rewrite C. vm_compute. reflexivity.
  - rewrite N by reflexivity. vm_compute. reflexivity.
  - rewrite N by reflexivity. vm_compute. reflexivity.
  - rewrite N by reflexivity. vm_compute. reflexivity.
Defined.

Lemma sink_failures_are_isolated_witness :
  session_new (Examples.crowd_world Examples.first_commit_fails) = []
  /\ query_get JobPosting.id
       (job_postings (database (Examples.crowd_world Examples.first_commit_fails)))
       1 = Some Examples.berlin_job
  /\ exists w',
       notify_matching_candidates PyStr.ascii_lower 1
         (Examples.crowd_world Examples.first_commit_fails) = Returned tt w'
       /\ logger w'
          = [LogError "Error creating notification: connection lost";
             LogInfo "Notification created for user 13: New Job Match!"]
       /\ map Notification.user_id (notifications w') = [13].
Proof.
  split; [reflexivity|]. split; [reflexivity|].
  destruct (sink_failures_are_isolated PyStr.ascii_lower 1 Examples.berlin_job
              (Examples.crowd_world Examples.first_commit_fails)
              eq_refl eq_refl)
    as (w' & R & _ & L & N).
  exists w'. split; [exact R|]. split.
  - rewrite L. vm_compute. reflexivity.
  - rewrite N. vm_compute. reflexivity.
Defined.

End Notifier.

(* ===================================================================== *)
(** * Further facts                                                      *)
(* ===================================================================== *)

(** ** More on rounding *)
Module RoundingError.
Import Binary64 Binary64Facts ExperienceFacts.
Local Open Scope Q_scope.

(** The unit roundoff [2^-53]. *)
Lemma pow2_m53 : pow2 (-53) == 1 # 9007199254740992.
Proof. reflexivity. Qed.

(** Rounding moves a positive number by at most [2^-53] of itself. *)
Lemma round_pos_rel_err x :
  0 < x ->
  x - x * (1 # 9007199254740992) <= round_pos x
  /\ round_pos x <= x + x * (1 # 9007199254740992).
Proof.
  intro Hx. destruct (binade_spec x Hx) as [B1 _].
  unfold round_pos. set (e := binade x) in *. set (sh := (52 - e)%Z).
  pose proof (pow2_pos sh) as Psh. pose proof (pow2_pos (- sh)) as Pn.
  pose proof (pow2_cancel sh) as C.
  assert (E52 : pow2 e * pow2 sh == 4503599627370496 # 1).
  { rewrite <- pow2_add. replace (e + sh)%Z with 52%Z by (unfold sh; lia). reflexivity. }
  destruct (rne_spec (x * pow2 sh)) as [R1 R2].
  set (n := inject_Z (rne (x * pow2 sh))) in *.
  set (P := pow2 sh) in *. set (Pm := pow2 (- sh)) in *.
  assert (S52 : (4503599627370496 # 1) <= x * P) by (rewrite <- E52; nra).
  assert (XP : x * P * Pm == x) by (rewrite <- Qmult_assoc, C; ring).
  assert (Hb : (4503599627370496 # 1) * Pm <= x).
  { rewrite <- XP. apply Qmult_le_compat_r; lra. }
  assert (N1 : (x * P - (1 # 2)) * Pm <= n * Pm) by (apply Qmult_le_compat_r; lra).
  assert (N2 : n * Pm <= (x * P + (1 # 2)) * Pm) by (apply Qmult_le_compat_r; lra).
  split; nra.
Qed.

Lemma fl_rel_err x :
  0 <= x ->
  x - x * (1 # 9007199254740992) <= fl x
  /\ fl x <= x + x * (1 # 9007199254740992).
Proof.
  intro H. destruct (Qlt_le_dec 0 x) as [P|Z0].
  - rewrite (fl_pos x P). apply round_pos_rel_err. exact P.
  - assert (E : x == 0) by lra. rewrite (fl_zero x E). split; lra.
Qed.

(** The binade of a number is the only one that holds it. *)
Lemma binade_unique x e :
  pow2 e <= x -> x < pow2 (e + 1) -> binade x = e.
Proof.
  intros L U. assert (Hx : 0 < x) by (pose proof (pow2_pos e); lra).
  destruct (binade_spec x Hx) as [B1 B2].
  assert (A : pow2 e < pow2 (binade x + 1)) by lra.
  assert (B : pow2 (binade x) < pow2 (e + 1)) by lra.
  apply pow2_lt_inv in A, B. lia.
Qed.

End RoundingError.

(** ** More on the scorer *)
Module ScorerProperties.
Import Binary64 Binary64Facts ExperienceFacts SkillsFacts DecimalFacts ScoreFacts.
Import RoundingError.

Lemma int_ge_float_mono n n' x x' :
  n <= n' -> (x' <= x)%Q ->
  int_ge_float n x = true -> int_ge_float n' x' = true.
Proof.
  unfold int_ge_float. intros Hn Hx H. apply Qle_bool_iff in H.
  apply Qle_bool_iff. apply Z_to_Q_le in Hn. lra.
Qed.

Lemma lit_0_7_pos : (0 < lit_0_7)%Q.
Proof. rewrite lit_0_7_value. reflexivity. Qed.

Lemma lit_0_5_pos : (0 < lit_0_5)%Q.
Proof. rewrite lit_0_5_value. reflexivity. Qed.

Lemma threshold_mono req req' c :
  (0 <= c)%Q -> req <= req' ->
  (float_mul (float_of_int req) c <= float_mul (float_of_int req') c)%Q.
Proof.
  intros Hc H. unfold float_mul, float_of_int. apply fl_mono.
  apply Qmult_le_compat_r; [|exact Hc].
  apply fl_mono. apply Z_to_Q_le. exact H.
Qed.

(** More experience never lowers the experience points, and a higher
    requirement never raises them, whatever the integers. *)
Theorem experience_points_monotone
  (c1 c2 : CandidateProfile.t) (j1 j2 : JobPosting.t) :
  CandidateProfile.experience_years c1 <= CandidateProfile.experience_years c2 ->
  JobPosting.experience_required j2 <= JobPosting.experience_required j1 ->
  experience_points c1 j1 <= experience_points c2 j2.
Proof.
  intros Hh Hr. unfold experience_points.
  set (h1 := CandidateProfile.experience_years c1) in *.
  set (h2 := CandidateProfile.experience_years c2) in *.
  set (r1 := JobPosting.experience_required j1) in *.
  set (r2 := JobPosting.experience_required j2) in *.
  pose proof (threshold_mono r2 r1 lit_0_7 (Qlt_le_weak _ _ lit_0_7_pos) Hr) as T7.
  pose proof (threshold_mono r2 r1 lit_0_5 (Qlt_le_weak _ _ lit_0_5_pos) Hr) as T5.
  pose proof (int_ge_float_mono h1 h2 _ _ Hh T7) as M7.
  pose proof (int_ge_float_mono h1 h2 _ _ Hh T5) as M5.
  destruct (Z.geb_spec h2 r2) as [G2|G2].
  - destruct (h1 >=? r1);
      repeat match goal with |- context [if ?b then _ else _] => destruct b end; lia.
  - destruct (Z.geb_spec h1 r1) as [G1|G1]; [lia|].
    destruct (int_ge_float h1 (float_mul (float_of_int r1) lit_0_7)) eqn:E7.
    + rewrite (M7 eq_refl). lia.
    + destruct (int_ge_float h2 (float_mul (float_of_int r2) lit_0_7)).
      * destruct (int_ge_float h1 (float_mul (float_of_int r1) lit_0_5)); lia.
      * destruct (int_ge_float h1 (float_mul (float_of_int r1) lit_0_5)) eqn:E5.
        -- rewrite (M5 eq_refl). lia.
        -- destruct (int_ge_float h2 (float_mul (float_of_int r2) lit_0_5)); lia.
Qed.

Lemma experience_points_monotone_witness :
  CandidateProfile.experience_years Examples.berlin_candidate
  <= CandidateProfile.experience_years Examples.volunteer
  /\ JobPosting.experience_required Examples.berlin_job
     <= JobPosting.experience_required Examples.ten_year_job
  /\ experience_points Examples.berlin_candidate Examples.ten_year_job
     <= experience_points Examples.volunteer Examples.berlin_job.
Proof.
  assert (H : CandidateProfile.experience_years Examples.berlin_candidate
              <= CandidateProfile.experience_years Examples.volunteer)
    by (simpl; lia).
  assert (R : JobPosting.experience_required Examples.berlin_job
              <= JobPosting.experience_required Examples.ten_year_job)
    by (simpl; lia).
  split; [exact H | split; [exact R|]].
  exact (experience_points_monotone _ _ _ _ H R).
Defined.

Local Open Scope Q_scope.

(** [int((m / t) * 50)] against the exact quotient: never above its floor,
    and at most one below. *)
Lemma ratio_points_near_floor m t :
  (0 <= m <= t)%Z -> (0 < t < 2 ^ 45)%Z ->
  (Qfloor (inject_Z m / inject_Z t * (50 # 1)) - 1 <= ratio_points m t
   <= Qfloor (inject_Z m / inject_Z t * (50 # 1)))%Z.
Proof.
  intros Hm [T0 T1]. destruct (quotient_bounds m t Hm T0) as [X0 X1].
  set (x := inject_Z m / inject_Z t) in *.
  set (F := Qfloor (x * (50 # 1))).
  assert (QT0 : 0 < inject_Z t) by (apply (Z_to_Q_lt 0); exact T0).
  assert (QT1 : inject_Z t < 35184372088832 # 1) by (apply (Z_to_Q_lt t (2 ^ 45)); exact T1).
  assert (XT : x * inject_Z t == inject_Z m).
  { unfold x. rewrite Qmult_comm. apply Qmult_div_r. lra. }
  pose proof (Qfloor_le (x * (50 # 1))) as F1.
  pose proof (Qlt_floor (x * (50 # 1))) as F2. fold F in F1, F2.
  rewrite inject_Z_plus in F2. change (inject_Z 1) with 1 in F2.
  (* the exact value stays 1/t below the next integer *)
  assert (Gap : x * (50 # 1) * inject_Z t + 1 <= (inject_Z F + 1) * inject_Z t).
  { assert (Zlt : (50 * m < (F + 1) * t)%Z).
    { rewrite Zlt_Qlt. rewrite !inject_Z_mult, inject_Z_plus.
      change (inject_Z 50) with (50 # 1). change (inject_Z 1) with 1.
      rewrite <- XT. nra. }
    assert (Zle : (50 * m + 1 <= (F + 1) * t)%Z) by lia.
    apply Z_to_Q_le in Zle.
    rewrite inject_Z_plus, !inject_Z_mult, inject_Z_plus in Zle.
    change (inject_Z 50) with (50 # 1) in Zle. change (inject_Z 1) with 1 in Zle.
    rewrite <- XT in Zle. lra. }
  assert (Fle : inject_Z F <= 50 # 1) by lra.
  unfold ratio_points, float_mul, int_truediv. fold x.
  destruct (fl_rel_err x X0) as [Q1 Q2].
  set (q := fl x) in *.
  assert (q0 : 0 <= q) by (apply fl_nonneg; exact X0).
  assert (q1 : q <= 1) by (unfold q; rewrite <- fl_one; apply fl_mono; exact X1).
  pose proof float_50 as E50.
  assert (Y0 : 0 <= q * float_of_int 50) by nra.
  destruct (fl_rel_err _ Y0) as [P1 P2].
  set (y := q * float_of_int 50) in *.
  assert (Yv : y == q * (50 # 1)) by (unfold y; rewrite E50; reflexivity).
  set (p := fl y) in *.
  assert (p0 : 0 <= p) by (apply fl_nonneg; exact Y0).
  rewrite (int_of_float_nonneg p p0).
  set (u := 1 # 9007199254740992) in *.
  assert (U : x * u <= u) by (unfold u; nra).
  assert (Yu : y * u <= (51 # 1) * u) by (unfold u; nra).
  split.
  - (* at most one below *)
    assert (L : inject_Z (F - 1) <= p).
    { unfold Z.sub. rewrite inject_Z_plus. change (inject_Z (- (1))) with (- (1)).
      unfold u in *. nra. }
    apply Qfloor_resp_le in L. rewrite Qfloor_Z in L. exact L.
  - (* never above *)
    assert (Up : p < inject_Z (F + 1)).
    { rewrite inject_Z_plus. change (inject_Z 1) with 1.
      assert (Pb : p <= x * (50 # 1) + (101 # 1) * u) by (unfold u in *; nra).
      assert (G : (101 # 1) * u * inject_Z t < 1) by (unfold u; nra).
      apply Qnot_le_lt. intro C.
      assert (C' : (inject_Z F + 1) * inject_Z t
                   <= (x * (50 # 1) + (101 # 1) * u) * inject_Z t)
        by (apply Qmult_le_compat_r; lra).
      nra. }
    assert (Fp : inject_Z (Qfloor p) < inject_Z (F + 1)).
    { pose proof (Qfloor_le p). lra. }
    rewrite <- Zlt_Qlt in Fp. lia.
Qed.


Local Close Scope Q_scope.

Lemma skills_component_floor ids r l :
  Spec.skills_component ids (r :: l)
  = Qfloor (inject_Z (Spec.matched_weight ids (r :: l))
            / inject_Z (Spec.total_weight (r :: l)) * (50 # 1)).
Proof. reflexivity. Qed.

(** The skills points are never above [floor(matchedWeight / totalWeight *
    50)] and at most one below it (total weights below [2^45]). *)
Theorem skills_points_near_floor (db : Database) (candidate_id job_id : Z) :
  Spec.total_weight (required_skills_of db job_id) < 2 ^ 45 ->
  Spec.skills_component (candidate_skill_ids_of db candidate_id)
    (required_skills_of db job_id) - 1
  <= skills_points db candidate_id job_id
  <= Spec.skills_component (candidate_skill_ids_of db candidate_id)
       (required_skills_of db job_id).
Proof.
  intro B. rewrite skills_points_eq.
  destruct (required_skills_of db job_id) as [|r l] eqn:E; [simpl; lia|].
  rewrite skills_component_floor.
  apply ratio_points_near_floor.
  - apply matched_weight_bounds.
  - split; [apply total_weight_pos | exact B].
Qed.

Lemma skills_points_near_floor_witness :
  Spec.total_weight (required_skills_of Examples.wide_db 1) < 2 ^ 45
  /\ 29 - 1 <= skills_points Examples.wide_db 1 1 <= 29.
Proof.
  assert (B : Spec.total_weight (required_skills_of Examples.wide_db 1) < 2 ^ 45)
    by (vm_compute; reflexivity).
  split; [exact B|].
  exact (skills_points_near_floor Examples.wide_db 1 1 B).
Defined.

Lemma ratio_points_full t : 0 < t -> ratio_points t t = 50.
Proof.
  intro T. apply Z.le_antisymm.
  - apply ratio_points_bounds; lia.
  - unfold ratio_points, float_mul, int_truediv.
    assert (QT : (0 < inject_Z t)%Q) by (apply (Z_to_Q_lt 0); exact T).
    assert (E1 : (inject_Z t / inject_Z t == 1)%Q).
    { unfold Qdiv. apply Qmult_inv_r. intro E. rewrite E in QT. discriminate QT. }
    assert (E2 : (fl (inject_Z t / inject_Z t) == 1)%Q)
      by (rewrite (fl_comp _ _ E1); exact fl_one).
    assert (E3 : (fl (fl (inject_Z t / inject_Z t) * float_of_int 50) == 50 # 1)%Q).
    { assert (E : (fl (inject_Z t / inject_Z t) * float_of_int 50 == 50 # 1)%Q)
        by (rewrite E2, float_50; reflexivity).
      rewrite (fl_comp _ _ E). exact fl_50. }
    rewrite int_of_float_nonneg by (rewrite E3; discriminate).
    rewrite (Qfloor_comp _ _ E3). reflexivity.
Qed.

Lemma ratio_points_none t : 0 < t -> ratio_points 0 t = 0.
Proof.
  intro T. apply Z.le_antisymm; [|apply ratio_points_bounds; lia].
  pose proof (ratio_points_near_floor 0 t) as H.
  destruct (Z.lt_ge_cases t (2 ^ 45)) as [B|B].
  - destruct (H ltac:(lia) ltac:(lia)) as [_ U].
    assert (Z0 : (inject_Z 0 / inject_Z t * (50 # 1) == 0)%Q)
      by (unfold Qdiv; change (inject_Z 0) with 0%Q; ring).
    rewrite (Qfloor_comp _ _ Z0) in U. exact U.
  - unfold ratio_points, float_mul, int_truediv.
    assert (Z0 : (inject_Z 0 / inject_Z t == 0)%Q)
      by (unfold Qdiv; change (inject_Z 0) with 0%Q; ring).
    rewrite (fl_zero _ Z0).
    assert (Z1 : (0 * float_of_int 50 == 0)%Q) by ring.
    rewrite (fl_zero _ Z1). reflexivity.
Qed.

Lemma matched_weight_all ids l :
  (forall r, In r l -> py_in (JobRequiredSkill.skill_id r) ids = true) ->
  Spec.matched_weight ids l = Spec.total_weight l.
Proof.
  induction l as [|r l IH]; intro H; [reflexivity|].
  rewrite matched_weight_cons, total_weight_cons, (H r (or_introl eq_refl)).
  rewrite IH; [reflexivity|]. intros r' Hr'. apply H. right. exact Hr'.
Qed.

Lemma matched_weight_none ids l :
  (forall r, In r l -> py_in (JobRequiredSkill.skill_id r) ids = false) ->
  Spec.matched_weight ids l = 0.
Proof.
  induction l as [|r l IH]; intro H; [reflexivity|].
  rewrite matched_weight_cons, (H r (or_introl eq_refl)).
  rewrite IH; [reflexivity|]. intros r' Hr'. apply H. right. exact Hr'.
Qed.

Lemma skills_points_holding_all db candidate_id job_id :
  required_skills_of db job_id <> [] ->
  (forall r, In r (required_skills_of db job_id) ->
     py_in (JobRequiredSkill.skill_id r)
       (candidate_skill_ids_of db candidate_id) = true) ->
  skills_points db candidate_id job_id = 50.
Proof.
  intros NE H. rewrite skills_points_eq.
  destruct (required_skills_of db job_id) as [|r l]; [contradiction|].
  rewrite (matched_weight_all _ _ H). apply ratio_points_full, total_weight_pos.
Qed.

Lemma skills_points_holding_none db candidate_id job_id :
  required_skills_of db job_id <> [] ->
  (forall r, In r (required_skills_of db job_id) ->
     py_in (JobRequiredSkill.skill_id r)
       (candidate_skill_ids_of db candidate_id) = false) ->
  skills_points db candidate_id job_id = 0.
Proof.
  intros NE H. rewrite skills_points_eq.
  destruct (required_skills_of db job_id) as [|r l]; [contradiction|].
  rewrite (matched_weight_none _ _ H). apply ratio_points_none, total_weight_pos.
Qed.

(** A candidate who holds every skill a posting requires gets the full 50
    skills points, and one who holds none of them gets 0. *)
Theorem skills_points_all_or_none (db : Database) (candidate_id job_id : Z) :
  required_skills_of db job_id <> [] ->
  ((forall r, In r (required_skills_of db job_id) ->
      py_in (JobRequiredSkill.skill_id r)
        (candidate_skill_ids_of db candidate_id) = true) ->
   skills_points db candidate_id job_id = 50)
  /\ ((forall r, In r (required_skills_of db job_id) ->
         py_in (JobRequiredSkill.skill_id r)
           (candidate_skill_ids_of db candidate_id) = false) ->
      skills_points db candidate_id job_id = 0).
Proof.
  intro NE. split; intro H.
  - apply skills_points_holding_all; assumption.
  - apply skills_points_holding_none; assumption.
Qed.

Lemma skills_points_all_or_none_witness :
  required_skills_of Examples.berlin_db 1 <> []
  /\ skills_points Examples.berlin_db 1 1 = 50.
Proof.
  assert (NE : required_skills_of Examples.berlin_db 1 <> [])
    by (vm_compute; discriminate).
  split; [exact NE|].
  apply (proj1 (skills_points_all_or_none Examples.berlin_db 1 1 NE)).
  intros r [<-|[]]. reflexivity.
Defined.


Lemma quotient_monotone m m' t :
  m <= m' -> 0 < t -> (inject_Z m / inject_Z t <= inject_Z m' / inject_Z t)%Q.
Proof.
  intros M T. apply Z_to_Q_le in M. apply (Z_to_Q_lt 0) in T.
  unfold Qdiv. apply Qmult_le_compat_r; [exact M|].
  apply Qlt_le_weak, Qinv_lt_0_compat. exact T.
Qed.

(** A larger matched weight never lowers the points of a fixed total. *)
Lemma ratio_points_monotone m m' t :
  0 <= m <= m' -> 0 < t -> ratio_points m t <= ratio_points m' t.
Proof.
  intros [M0 M] T. pose proof (quotient_monotone m m' t M T) as Q.
  assert (Q0 : (0 <= inject_Z m / inject_Z t)%Q).
  { apply Qle_shift_div_l; [apply (Z_to_Q_lt 0); exact T|].
    apply Z_to_Q_le in M0. change (inject_Z 0) with 0%Q in M0. lra. }
  unfold ratio_points, float_mul, int_truediv.
  set (q1 := fl (inject_Z m / inject_Z t)).
  set (q2 := fl (inject_Z m' / inject_Z t)).
  assert (F0 : (0 <= q1)%Q) by (apply fl_nonneg; exact Q0).
  assert (F12 : (q1 <= q2)%Q) by (apply fl_mono; exact Q).
  pose proof float_50 as E50.
  assert (P0 : (0 <= fl (q1 * float_of_int 50))%Q) by (apply fl_nonneg; nra).
  assert (P12 : (fl (q1 * float_of_int 50) <= fl (q2 * float_of_int 50))%Q)
    by (apply fl_mono; nra).
  rewrite !int_of_float_nonneg by lra.
  apply Qfloor_resp_le. exact P12.
Qed.

Lemma matched_weight_monotone ids ids' l :
  (forall sid, py_in sid ids = true -> py_in sid ids' = true) ->
  Spec.matched_weight ids l <= Spec.matched_weight ids' l.
Proof.
  intro H. induction l as [|r l IH]; [reflexivity|].
  rewrite !matched_weight_cons.
  pose proof (weight_pos (JobRequiredSkill.importance r)).
  destruct (py_in (JobRequiredSkill.skill_id r) ids) eqn:E.
  - rewrite (H _ E). lia.
  - destruct (py_in (JobRequiredSkill.skill_id r) ids'); lia.
Qed.

(** Replacing a candidate's skill rows by rows that still hold every skill
    held before never lowers the candidate's score for a posting. *)
Theorem more_skills_never_lower_score (str_lower : string -> string)
  (db : Database) (rows : list CandidateSkill.t) (candidate_id job_id : Z) :
  (forall sid,
     py_in sid (candidate_skill_ids_of db candidate_id) = true ->
     py_in sid (candidate_skill_ids_of (with_candidate_skills db rows)
                  candidate_id) = true) ->
  calculate_job_match_score str_lower db candidate_id job_id
  <= calculate_job_match_score str_lower (with_candidate_skills db rows)
       candidate_id job_id.
Proof.
  intro H. unfold calculate_job_match_score.
  cbn [with_candidate_skills candidate_profiles job_postings].
  destruct (query_get CandidateProfile.id (candidate_profiles db) candidate_id)
    as [candidate|]; [|lia].
  destruct (query_get JobPosting.id (job_postings db) job_id) as [job|]; [|lia].
  assert (S : skills_points db candidate_id job_id
              <= skills_points (with_candidate_skills db rows) candidate_id job_id).
  { rewrite !skills_points_eq.
    change (required_skills_of (with_candidate_skills db rows) job_id)
      with (required_skills_of db job_id).
    destruct (required_skills_of db job_id) as [|r l]; [lia|].
    apply ratio_points_monotone; [|apply total_weight_pos].
    split; [apply matched_weight_bounds | apply matched_weight_monotone; exact H]. }
  fold (with_candidate_skills db rows). lia.
Qed.

Lemma more_skills_never_lower_score_witness :
  calculate_job_match_score PyStr.ascii_lower Examples.wide_db 1 1
  <= calculate_job_match_score PyStr.ascii_lower
       (with_candidate_skills Examples.wide_db
          (CandidateSkill.mk 11 1 10 :: candidate_skills Examples.wide_db)) 1 1.
Proof.
  apply more_skills_never_lower_score.
  intros sid H.
  change (py_in sid (10 :: candidate_skill_ids_of Examples.wide_db 1) = true).
  unfold py_in in *. cbn [existsb]. rewrite H. apply orb_true_r.
Defined.

(** A candidate who holds none of the skills a posting requires scores at
    most 50 for it, and so is never among the candidates the posting is
    announced to. *)
Theorem no_required_skill_never_announced (str_lower : string -> string)
  (db : Database) (candidate : CandidateProfile.t) (job_id : Z) :
  required_skills_of db job_id <> [] ->
  (forall r, In r (required_skills_of db job_id) ->
     py_in (JobRequiredSkill.skill_id r)
       (candidate_skill_ids_of db (CandidateProfile.id candidate)) = false) ->
  calculate_job_match_score str_lower db (CandidateProfile.id candidate) job_id
  <= 50
  /\ ~ In candidate (Spec.announced str_lower db job_id).
Proof.
  intros NE H.
  assert (S : calculate_job_match_score str_lower db
                (CandidateProfile.id candidate) job_id <= 50).
  { unfold calculate_job_match_score.
    destruct (query_get CandidateProfile.id (candidate_profiles db)
                (CandidateProfile.id candidate)) as [c|]; [|lia].
    destruct (query_get JobPosting.id (job_postings db) job_id) as [job|]; [|lia].
    rewrite (skills_points_holding_none db _ job_id NE H).
    pose proof (experience_points_range c job).
    pose proof (location_points_range str_lower c job).
    pose proof (salary_points_range c job). lia. }
  split; [exact S|].
  intro I. unfold Spec.announced in I. apply filter_In in I.
  destruct I as [_ Q]. unfold Spec.qualifies in Q. apply Z.leb_le in Q. lia.
Qed.


Lemma no_required_skill_never_announced_witness :
  required_skills_of (with_candidate_skills Examples.berlin_db []) 1 <> []
  /\ calculate_job_match_score PyStr.ascii_lower
       (with_candidate_skills Examples.berlin_db [])
       (CandidateProfile.id Examples.berlin_candidate) 1 <= 50.
Proof.
  assert (NE : required_skills_of (with_candidate_skills Examples.berlin_db []) 1
               <> []) by (vm_compute; discriminate).
  split; [exact NE|].
  apply (no_required_skill_never_announced PyStr.ascii_lower
           (with_candidate_skills Examples.berlin_db [])
           Examples.berlin_candidate 1 NE).
  intros r _. reflexivity.
Defined.

Lemma Qle_bool_false x y : (y < x)%Q -> Qle_bool x y = false.
Proof.
  intro H. destruct (Qle_bool x y) eqn:E; [|reflexivity].
  apply Qle_bool_iff in E. lra.
Qed.

Lemma dec_truthy_nonzero z :
  ~ (PyDecimal.dec_to_Q z == 0)%Q -> PyDecimal.dec_truthy z = true.
Proof.
  intro H. rewrite dec_truthy_spec.
  destruct (Qeq_bool (PyDecimal.dec_to_Q z) 0) eqn:E; [|reflexivity].
  apply Qeq_bool_iff in E. contradiction.
Qed.

(** An expectation below [salary_min] is not scored as out of range: when
    it is not zero and [salary_min] is positive it earns the 5 points of the
    tolerance band. *)
Theorem salary_below_range_scores_five
  (candidate : CandidateProfile.t) (job : JobPosting.t)
  (e lo hi : PyDecimal.Decimal) :
  CandidateProfile.salary_expectation candidate = Some e ->
  JobPosting.salary_min job = Some lo ->
  JobPosting.salary_max job = Some hi ->
  PyDecimal.numeric_10_2 hi ->
  ~ (PyDecimal.dec_to_Q e == 0)%Q ->
  (PyDecimal.dec_to_Q e < PyDecimal.dec_to_Q lo)%Q ->
  (PyDecimal.dec_to_Q lo <= PyDecimal.dec_to_Q hi)%Q ->
  (0 < PyDecimal.dec_to_Q lo)%Q ->
  salary_points candidate job = 5.
Proof.
  intros He Hlo Hhi N NZ Lt Le Pos.
  unfold salary_points. rewrite He, Hlo, Hhi.
  rewrite (dec_truthy_nonzero e NZ).
  rewrite (dec_truthy_nonzero lo) by (intro E; lra).
  rewrite (dec_truthy_nonzero hi) by (intro E; lra).
  cbn [andb]. rewrite !dec_leb_spec.
  rewrite (Qle_bool_false _ _ Lt). cbn [andb].
  rewrite (Qle_bool_comp_r _ _ _ (dec_mul_multiplier hi N)).
  assert (T : Qle_bool (PyDecimal.dec_to_Q e) (PyDecimal.dec_to_Q hi * (12 # 10))
              = true) by (apply Qle_bool_iff; lra).
  rewrite T. reflexivity.
Qed.


Lemma salary_below_range_scores_five_witness :
  (PyDecimal.dec_to_Q (Examples.amount 3000000)
   < PyDecimal.dec_to_Q (Examples.amount 5000000))%Q
  /\ salary_points
       (CandidateProfile.mk 5 15 3 None (Some (Examples.amount 3000000)))
       Examples.berlin_job = 5.
Proof.
  assert (L : (PyDecimal.dec_to_Q (Examples.amount 3000000)
               < PyDecimal.dec_to_Q (Examples.amount 5000000))%Q)
    by (vm_compute; reflexivity).
  split; [exact L|].
  apply (salary_below_range_scores_five
           (CandidateProfile.mk 5 15 3 None (Some (Examples.amount 3000000)))
           Examples.berlin_job
           (Examples.amount 3000000) (Examples.amount 5000000)
           (Examples.amount 7000000) eq_refl eq_refl eq_refl).
  - split; [reflexivity | vm_compute; reflexivity].
  - intro E. vm_compute in E. discriminate E.
  - exact L.
  - vm_compute. discriminate.
  - vm_compute. reflexivity.
Defined.

End ScorerProperties.

(** ** More on the recommendations *)
Module RecommendationProperties.
Import RecommendationFacts.

Section Stability.
Context {A : Type} (key : A -> Z).

Lemma insert_desc_same_key x l k :
  filter (fun y => key y =? k) (insert_desc key x l)
  = filter (fun y => key y =? k) (x :: l).
Proof.
  induction l as [|z l IH]; [reflexivity|].
  cbn [insert_desc]. destruct (Z.leb_spec (key z) (key x)) as [L|L]; [reflexivity|].
  cbn [filter] in *. rewrite IH.
  destruct (Z.eqb_spec (key x) k) as [Ex|Nx]; [|reflexivity].
  destruct (Z.eqb_spec (key z) k) as [Ez|Nz]; [lia | reflexivity].
Qed.

(** The sort is stable: entries of one key keep their order. *)
Lemma sort_desc_stable l k :
  filter (fun y => key y =? k) (sort_desc key l) = filter (fun y => key y =? k) l.
Proof.
  induction l as [|x l IH]; [reflexivity|].
  cbn [sort_desc]. rewrite insert_desc_same_key. cbn [filter]. rewrite IH. reflexivity.
Qed.

End Stability.

(** Ties are broken by fetch order: the result is the first ten entries of
    the sorted list, in which the postings of any one score stand in the
    order in which the loop over the query result met them. *)
Theorem recommendations_ties_in_fetch_order (str_lower : string -> string)
  (db : Database) (candidate_id : Z) (candidate : CandidateProfile.t) :
  query_get CandidateProfile.id (candidate_profiles db) candidate_id
  = Some candidate ->
  exists sorted,
    get_job_recommendations str_lower db candidate_id = firstn 10 sorted
    /\ StronglySorted (desc match_score) sorted
    /\ forall k,
         filter (fun m => match_score m =? k) sorted
         = filter (fun m => match_score m =? k)
             (job_matches str_lower db candidate_id).
Proof.
  intro E. exists (sort_desc match_score (job_matches str_lower db candidate_id)).
  unfold get_job_recommendations. rewrite E.
  split; [reflexivity|]. split; [apply sort_desc_sorted|].
  intro k. apply sort_desc_stable.
Qed.

Lemma recommendations_ties_in_fetch_order_witness :
  exists sorted,
    get_job_recommendations PyStr.ascii_lower Examples.board_db 1
    = firstn 10 sorted
    /\ filter (fun m => match_score m =? 100) sorted
       = filter (fun m => match_score m =? 100)
           (job_matches PyStr.ascii_lower Examples.board_db 1).
Proof.
  destruct (recommendations_ties_in_fetch_order PyStr.ascii_lower
              Examples.board_db 1 Examples.berlin_candidate eq_refl)
    as (sorted & R & _ & T).
  exists sorted. split; [exact R | exact (T 100)].
Defined.

(** *** No posting twice *)

Lemma company_filter_short (k : Z) (cs : list Company.t) :
  NoDup (map Company.id cs) ->
  (List.length (filter (fun c => (k =? Company.id c)%Z) cs) <= 1)%nat.
Proof.
  induction cs as [|c cs IH]; intro N; [simpl; lia|].
  cbn [map] in N. apply NoDup_cons_iff in N. destruct N as [N1 N2].
  cbn [filter]. destruct (Z.eqb_spec k (Company.id c)) as [E|NE].
  - assert (F : filter (fun c0 => k =? Company.id c0) cs = []).
    { destruct (filter (fun c0 => k =? Company.id c0) cs) as [|c' l] eqn:Fl;
        [reflexivity|].
      exfalso. assert (I : In c' (filter (fun c0 => k =? Company.id c0) cs))
        by (rewrite Fl; left; reflexivity).
      apply filter_In in I. destruct I as [I Ek]. apply Z.eqb_eq in Ek.
      apply N1. rewrite <- E, Ek. apply in_map. exact I. }
    rewrite F. simpl. lia.
  - apply IH. exact N2.
Qed.

Lemma available_jobs_ids db candidate_id :
  NoDup (map JobPosting.id (job_postings db)) ->
  NoDup (map Company.id (companies db)) ->
  NoDup (map (fun jc => JobPosting.id (fst jc)) (available_jobs db candidate_id)).
Proof.
  intros NJ NC. unfold available_jobs.
  induction (job_postings db) as [|j js IH]; [constructor|].
  cbn [map] in NJ. apply NoDup_cons_iff in NJ. destruct NJ as [NJ1 NJ2].
  cbn [flat_map]. rewrite map_app.
  assert (Rest : forall x,
            In x (map (fun jc : JobPosting.t * Company.t => JobPosting.id (fst jc))
                    (flat_map
                       (fun j0 =>
                          if JobPosting.is_active j0
                             && negb (py_in (JobPosting.id j0)
                                        (applied_job_ids db candidate_id))
                          then map (fun c => (j0, c))
                                 (filter (fun c => JobPosting.company_id j0
                                                   =? Company.id c) (companies db))
                          else []) js)) ->
            In x (map JobPosting.id js)).
  { intros x Hx. apply in_map_iff in Hx. destruct Hx as ([j' c'] & <- & Hx).
    apply in_flat_map in Hx. destruct Hx as (j0 & Hj0 & Hx).
    destruct (JobPosting.is_active j0 && _); [|destruct Hx].
    apply in_map_iff in Hx. destruct Hx as (c0 & [= <- <-] & _).
    apply in_map. exact Hj0. }
  set (head := if JobPosting.is_active j
                  && negb (py_in (JobPosting.id j) (applied_job_ids db candidate_id))
               then map (fun c => (j, c))
                      (filter (fun c => JobPosting.company_id j =? Company.id c)
                         (companies db))
               else []).
  assert (Head : map (fun jc : JobPosting.t * Company.t => JobPosting.id (fst jc)) head = []
                 \/ map (fun jc : JobPosting.t * Company.t => JobPosting.id (fst jc)) head
                    = [JobPosting.id j]).
  { unfold head. destruct (JobPosting.is_active j && _); [|left; reflexivity].
    pose proof (company_filter_short (JobPosting.company_id j) (companies db) NC) as S.
    destruct (filter (fun c => JobPosting.company_id j =? Company.id c) (companies db))
      as [|c [|c' l]]; [left; reflexivity | right; reflexivity | simpl in S; lia]. }
  destruct Head as [-> | ->]; cbn [app].
  - apply IH. exact NJ2.
  - constructor; [|apply IH; exact NJ2].
    intro I. apply NJ1. apply Rest. exact I.
Qed.

Lemma job_matches_ids str_lower db candidate_id :
  NoDup (map (fun jc => JobPosting.id (fst jc)) (available_jobs db candidate_id)) ->
  NoDup (map (fun m => JobPosting.id (job m)) (job_matches str_lower db candidate_id)).
Proof.
  unfold job_matches.
  induction (available_jobs db candidate_id) as [|jc l IH]; intro N; [constructor|].
  cbn [map] in N. apply NoDup_cons_iff in N. destruct N as [N1 N2].
  cbn [flat_map]. rewrite map_app.
  destruct (30 <? calculate_job_match_score str_lower db candidate_id
                    (JobPosting.id (fst jc))); cbn [map app].
  - constructor; [|apply IH; exact N2].
    cbn [job]. intro I. apply N1.
    apply in_map_iff in I. destruct I as (m & Em & Hm).
    apply in_flat_map in Hm. destruct Hm as (jc' & Hjc' & Hm).
    destruct (30 <? _); [|destruct Hm]. destruct Hm as [<-|[]].
    cbn [job] in Em. rewrite <- Em. apply (in_map (fun jc0 => JobPosting.id (fst jc0))).
    exact Hjc'.
  - apply IH. exact N2.
Qed.

Lemma NoDup_firstn {B : Type} n (l : list B) : NoDup l -> NoDup (firstn n l).
Proof.
  intro N. rewrite <- (firstn_skipn n l) in N.
  apply NoDup_app_remove_r in N. exact N.
Qed.

(** With unique posting ids and unique company ids no posting is
    recommended twice. *)
Theorem recommendations_without_repeats (str_lower : string -> string)
  (db : Database) (candidate_id : Z) :
  NoDup (map JobPosting.id (job_postings db)) ->
  NoDup (map Company.id (companies db)) ->
  NoDup (map (fun m => JobPosting.id (job m))
           (get_job_recommendations str_lower db candidate_id)).
Proof.
  intros NJ NC. unfold get_job_recommendations.
  destruct (query_get CandidateProfile.id (candidate_profiles db) candidate_id);
    [|constructor].
  rewrite <- firstn_map. apply NoDup_firstn.
  apply (Permutation_NoDup
           (l := map (fun m => JobPosting.id (job m))
                   (job_matches str_lower db candidate_id))).
  - apply Permutation_map. apply Permutation_sym. apply sort_desc_perm.
  - apply job_matches_ids. apply available_jobs_ids; assumption.
Qed.

Lemma recommendations_without_repeats_witness :
  NoDup (map JobPosting.id (job_postings Examples.board_db))
  /\ NoDup (map Company.id (companies Examples.board_db))
  /\ NoDup (map (fun m => JobPosting.id (job m))
              (get_job_recommendations PyStr.ascii_lower Examples.board_db 1)).
Proof.
  assert (NJ : NoDup (map JobPosting.id (job_postings Examples.board_db))).
  { cbn. repeat constructor; cbn; intuition discriminate. }
  assert (NC : NoDup (map Company.id (companies Examples.board_db))).
  { cbn. repeat constructor; cbn; intuition. }
  split; [exact NJ | split; [exact NC|]].
  exact (recommendations_without_repeats PyStr.ascii_lower Examples.board_db 1 NJ NC).
Defined.

End RecommendationProperties.

(** ** The skill gap analysis *)
Module SkillGapProperties.
Import SkillsFacts ScoreFacts ScorerProperties RecommendationFacts.

Lemma gap_fold ids rows matching missing :
  fold_left (SkillGap.gap_step ids) rows (matching, missing)
  = (matching ++ map SkillGap.entry_of (filter (SkillGap.held ids) rows),
     missing ++ map SkillGap.entry_of (filter (fun r => negb (SkillGap.held ids r)) rows)).
Proof.
  revert matching missing. induction rows as [|row rows IH]; intros matching missing.
  - cbn. rewrite !app_nil_r. reflexivity.
  - cbn [fold_left filter]. unfold SkillGap.gap_step at 2.
    destruct (SkillGap.held ids row); cbn [negb map];
      rewrite IH, <- ?app_assoc; reflexivity.
Qed.

Lemma analyse_eq db skills candidate_id rec :
  SkillGap.analyse db skills candidate_id rec
  = SkillGap.mk (job rec) (company rec) (match_score rec)
      (map SkillGap.entry_of
         (filter (SkillGap.held (SkillGap.held_skill_ids db skills candidate_id))
            (SkillGap.required_skills_joined db skills (JobPosting.id (job rec)))))
      (map SkillGap.entry_of
         (filter (fun r => negb (SkillGap.held
                                   (SkillGap.held_skill_ids db skills candidate_id) r))
            (SkillGap.required_skills_joined db skills (JobPosting.id (job rec))))).
Proof. unfold SkillGap.analyse. rewrite gap_fold. reflexivity. Qed.

Lemma analyse_lists db skills candidate_id rec :
  SkillGap.matching_skills (SkillGap.analyse db skills candidate_id rec)
  = map SkillGap.entry_of
      (filter (SkillGap.held (SkillGap.held_skill_ids db skills candidate_id))
         (SkillGap.required_skills_joined db skills (JobPosting.id (job rec))))
  /\ SkillGap.missing_skills (SkillGap.analyse db skills candidate_id rec)
     = map SkillGap.entry_of
         (filter (fun r => negb (SkillGap.held
                                   (SkillGap.held_skill_ids db skills candidate_id) r))
            (SkillGap.required_skills_joined db skills (JobPosting.id (job rec)))).
Proof. rewrite analyse_eq. split; reflexivity. Qed.

Lemma filter_split {B : Type} (p : B -> bool) (l : list B) :
  Permutation (filter p l ++ filter (fun x => negb (p x)) l) l.
Proof.
  induction l as [|x l IH]; [constructor|].
  cbn [filter]. destruct (p x); cbn [negb app].
  - apply perm_skip. exact IH.
  - apply Permutation_sym. apply Permutation_cons_app. apply Permutation_sym. exact IH.
Qed.

(** The analysis has one entry for each of the five best recommendations,
    in their order and with their posting, company and score.  In an entry
    [matching_skills] lists, in query order, the required skills whose id
    the candidate holds and [missing_skills] the others, so that every
    required skill is in exactly one of the two lists. *)
Theorem skill_gap_analysis_partitions (str_lower : string -> string)
  (db : Database) (skills : list Skill.t) (candidate_id : Z) :
  let result := skill_gap_analysis str_lower db skills candidate_id in
  let ids := SkillGap.held_skill_ids db skills candidate_id in
  (List.length result <= 5)%nat
  /\ map (fun g => (SkillGap.job g, SkillGap.company g, SkillGap.match_score g))
       result
     = map (fun m => (job m, company m, match_score m))
         (firstn 5 (get_job_recommendations str_lower db candidate_id))
  /\ forall g, In g result ->
       let required :=
         SkillGap.required_skills_joined db skills
           (JobPosting.id (SkillGap.job g)) in
       SkillGap.matching_skills g
       = map SkillGap.entry_of (filter (SkillGap.held ids) required)
       /\ SkillGap.missing_skills g
          = map SkillGap.entry_of
              (filter (fun row => negb (SkillGap.held ids row)) required)
       /\ Permutation (SkillGap.matching_skills g ++ SkillGap.missing_skills g)
            (map SkillGap.entry_of required).
Proof.
  intros result ids. unfold result, skill_gap_analysis. split; [|split].
  - rewrite length_map. apply firstn_le_length.
  - rewrite map_map. apply map_ext. intro m. rewrite analyse_eq. reflexivity.
  - intros g Hg. apply in_map_iff in Hg. destruct Hg as (rec & <- & _).
    rewrite analyse_eq. cbn [SkillGap.job SkillGap.matching_skills SkillGap.missing_skills].
    cbn zeta. split; [reflexivity|]. split; [reflexivity|].
    rewrite <- map_app. apply Permutation_map. apply filter_split.
Qed.

Lemma py_in_In x l : py_in x l = true <-> In x l.
Proof.
  unfold py_in. rewrite existsb_exists. split.
  - intros (y & Hy & E). apply Z.eqb_eq in E. subst. exact Hy.
  - intro H. exists x. split; [exact H | apply Z.eqb_refl].
Qed.

Lemma filter_nil_iff {B : Type} (p : B -> bool) (l : list B) :
  filter p l = [] <-> forall x, In x l -> p x = false.
Proof.
  induction l as [|x l IH]; cbn [filter].
  - split; [intros _ y [] | reflexivity].
  - destruct (p x) eqn:E.
    + split; [discriminate|]. intro H. rewrite (H x (or_introl eq_refl)) in E.
      discriminate.
    + rewrite IH. split.
      * intros H y [<-|Hy]; [exact E | apply H; exact Hy].
      * intros H y Hy. apply H. right. exact Hy.
Qed.

Lemma held_ids_raw db skills candidate_id x :
  In x (SkillGap.held_skill_ids db skills candidate_id) ->
  In x (candidate_skill_ids_of db candidate_id).
Proof.
  unfold SkillGap.held_skill_ids, SkillGap.candidate_skills_joined,
    candidate_skill_ids_of.
  intro H. apply in_map_iff in H. destruct H as ([cs s] & <- & H).
  apply in_flat_map in H. destruct H as (cs' & Hcs & H).
  apply in_map_iff in H. destruct H as (s' & [= <- <-] & _).
  cbn [fst]. apply in_map. exact Hcs.
Qed.

Lemma raw_ids_held db skills candidate_id s :
  In s skills ->
  In (Skill.id s) (candidate_skill_ids_of db candidate_id) ->
  In (Skill.id s) (SkillGap.held_skill_ids db skills candidate_id).
Proof.
  unfold SkillGap.held_skill_ids, SkillGap.candidate_skills_joined,
    candidate_skill_ids_of.
  intros Hs H. apply in_map_iff in H. destruct H as (cs & E & Hcs).
  apply in_map_iff. exists (cs, s). split; [exact E|].
  apply in_flat_map. exists cs. split; [exact Hcs|].
  apply in_map. apply filter_In. split; [exact Hs | apply Z.eqb_eq; exact E].
Qed.

Lemma required_joined_In db skills job_id r s :
  In (r, s) (SkillGap.required_skills_joined db skills job_id)
  <-> In r (required_skills_of db job_id) /\ In s skills
      /\ JobRequiredSkill.skill_id r = Skill.id s.
Proof.
  unfold SkillGap.required_skills_joined, required_skills_of. split.
  - intro H. apply in_flat_map in H. destruct H as (r' & Hr & H).
    apply in_map_iff in H. destruct H as (s' & [= <- <-] & H).
    apply filter_In in H. destruct H as [Hs E]. apply Z.eqb_eq in E. auto.
  - intros (Hr & Hs & E). apply in_flat_map. exists r. split; [exact Hr|].
    apply in_map. apply filter_In. split; [exact Hs | apply Z.eqb_eq; exact E].
Qed.

Lemma matched_weight_total_inv ids l :
  Spec.matched_weight ids l = Spec.total_weight l ->
  forall r, In r l -> py_in (JobRequiredSkill.skill_id r) ids = true.
Proof.
  induction l as [|x l IH]; intros E r Hr; [destruct Hr|].
  rewrite matched_weight_cons, total_weight_cons in E.
  pose proof (weight_pos (JobRequiredSkill.importance x)) as W.
  pose proof (matched_weight_bounds ids l) as B.
  destruct (py_in (JobRequiredSkill.skill_id x) ids) eqn:P; [|lia].
  destruct Hr as [<-|Hr]; [exact P|]. apply IH; [lia | exact Hr].
Qed.

Lemma ratio_points_full_inv m t :
  0 <= m <= t -> 0 < t < 2 ^ 45 -> ratio_points m t = 50 -> m = t.
Proof.
  intros Hm Ht E. destruct (ratio_points_near_floor m t Hm Ht) as [_ U].
  rewrite E in U.
  assert (L : (inject_Z 50 <= inject_Z m / inject_Z t * (50 # 1))%Q).
  { apply Qle_trans with (inject_Z (Qfloor (inject_Z m / inject_Z t * (50 # 1)))).
    - rewrite <- Zle_Qle. exact U.
    - apply Qfloor_le. }
  assert (QT : (0 < inject_Z t)%Q) by (apply (ExperienceFacts.Z_to_Q_lt 0); lia).
  assert (XT : (inject_Z m / inject_Z t * inject_Z t == inject_Z m)%Q).
  { rewrite Qmult_comm. apply Qmult_div_r. intro Z0. rewrite Z0 in QT. discriminate QT. }
  assert (G : (inject_Z t <= inject_Z m)%Q).
  { change (inject_Z 50) with (50 # 1)%Q in L. rewrite <- XT. nra. }
  rewrite <- Zle_Qle in G. lia.
Qed.

(** With a skill row for every skill a posting requires, the analysis of the
    posting reports no missing skill exactly when the scorer gives the full
    50 skills points. *)
Theorem no_missing_skill_iff_full_points (db : Database) (skills : list Skill.t)
  (candidate_id : Z) (rec : JobMatch) :
  required_skills_of db (JobPosting.id (job rec)) <> [] ->
  Spec.total_weight (required_skills_of db (JobPosting.id (job rec))) < 2 ^ 45 ->
  (forall r, In r (required_skills_of db (JobPosting.id (job rec))) ->
     exists s, In s skills /\ JobRequiredSkill.skill_id r = Skill.id s) ->
  SkillGap.missing_skills (SkillGap.analyse db skills candidate_id rec) = []
  <-> skills_points db candidate_id (JobPosting.id (job rec)) = 50.
Proof.
  intros NE B FK. set (job_id := JobPosting.id (job rec)) in *.
  destruct (analyse_lists db skills candidate_id rec) as [_ S].
  fold job_id in S. rewrite S. split.
  - intro H. apply map_eq_nil in H.
    apply skills_points_holding_all; [exact NE|].
    intros r Hr. destruct (FK r Hr) as (s & Hs & E).
    assert (I : In (r, s) (SkillGap.required_skills_joined db skills job_id))
      by (apply required_joined_In; auto).
    pose proof (proj1 (filter_nil_iff _ _) H (r, s) I) as Hd.
    apply negb_false_iff in Hd. unfold SkillGap.held in Hd. cbn [snd] in Hd.
    apply py_in_In in Hd. apply held_ids_raw in Hd.
    rewrite E. apply py_in_In. exact Hd.
  - intro E. rewrite skills_points_eq in E.
    destruct (required_skills_of db job_id) as [|r0 l0] eqn:R; [contradiction|].
    apply ratio_points_full_inv in E;
      [| apply matched_weight_bounds | split; [apply total_weight_pos | exact B]].
    pose proof (matched_weight_total_inv _ _ E) as All.
    assert (F : filter (fun r => negb (SkillGap.held
                                         (SkillGap.held_skill_ids db skills candidate_id) r))
                  (SkillGap.required_skills_joined db skills job_id) = []).
    { apply filter_nil_iff. intros [r s] I. apply required_joined_In in I.
      destruct I as (Hr & Hs & Es). rewrite R in Hr.
      apply negb_false_iff. unfold SkillGap.held. cbn [snd].
      apply py_in_In. apply raw_ids_held; [exact Hs|].
      rewrite <- Es. apply py_in_In. apply All. exact Hr. }
    rewrite F. reflexivity.
Qed.


Lemma no_missing_skill_iff_full_points_witness :
  SkillGap.missing_skills
    (SkillGap.analyse Examples.berlin_db [Skill.mk 7 "Python"] 1
       (mkJobMatch Examples.berlin_job (Company.mk 1 "Acme") 100)) = []
  /\ skills_points Examples.berlin_db 1 1 = 50.
Proof.
  assert (M : SkillGap.missing_skills
                (SkillGap.analyse Examples.berlin_db [Skill.mk 7 "Python"] 1
                   (mkJobMatch Examples.berlin_job (Company.mk 1 "Acme") 100)) = [])
    by (vm_compute; reflexivity).
  split; [exact M|].
  apply (proj1 (no_missing_skill_iff_full_points Examples.berlin_db
                  [Skill.mk 7 "Python"] 1
                  (mkJobMatch Examples.berlin_job (Company.mk 1 "Acme") 100)
                  ltac:(vm_compute; discriminate)
                  ltac:(vm_compute; reflexivity)
                  ltac:(intros r [<-|[]]; exists (Skill.mk 7 "Python");
                        split; [left; reflexivity | reflexivity]))).
  exact M.
Defined.

Lemma skill_gap_analysis_partitions_witness :
  map (fun g => (JobPosting.id (SkillGap.job g),
                 List.length (SkillGap.matching_skills g),
                 List.length (SkillGap.missing_skills g)))
    (skill_gap_analysis PyStr.ascii_lower Examples.board_db
       [Skill.mk 7 "Python"] 1)
  = [(1, 1%nat, 0%nat); (4, 0%nat, 0%nat)]
  /\ (List.length (skill_gap_analysis PyStr.ascii_lower Examples.board_db
                     [Skill.mk 7 "Python"] 1) <= 5)%nat.
Proof.
  split; [vm_compute; reflexivity|].
  exact (proj1 (skill_gap_analysis_partitions PyStr.ascii_lower Examples.board_db
                  [Skill.mk 7 "Python"] 1)).
Defined.

End SkillGapProperties.

(** ** Exam grading *)
Module ExamProperties.
Import Binary64 Binary64Facts ExperienceFacts SkillsFacts RoundingError.

(** The answer row saved for a question the form answers. *)
Lemma grade_step_eq form attempt_id c answers q :
  Exam.grade_step form attempt_id (c, answers) q
  = (c + (if Exam.answered_correctly form q then 1 else 0),
     answers
     ++ (if Exam.answered form q
         then [CandidateAnswer.mk attempt_id (MCQQuestion.id q)
                 (match form ("question_" ++ PyStr.str_of_int (MCQQuestion.id q))%string with
                  | Some a => a
                  | None => EmptyString
                  end)
                 (Exam.answered_correctly form q)]
         else [])).
Proof.
  unfold Exam.grade_step, Exam.answered_correctly, Exam.answered.
  destruct (form ("question_" ++ PyStr.str_of_int (MCQQuestion.id q))%string) as [a|].
  - destruct (PyStr.truthy a); cbn [andb].
    + destruct (String.eqb a (MCQQuestion.correct_answer q)); f_equal; lia.
    + rewrite app_nil_r. f_equal. lia.
  - rewrite app_nil_r. f_equal. lia.
Qed.

Lemma grade_from form attempt_id questions c answers :
  fold_left (Exam.grade_step form attempt_id) questions (c, answers)
  = (c + Z.of_nat (List.length (filter (Exam.answered_correctly form) questions)),
     answers
     ++ map (fun q =>
               CandidateAnswer.mk attempt_id (MCQQuestion.id q)
                 (match form ("question_" ++ PyStr.str_of_int (MCQQuestion.id q))%string with
                  | Some a => a
                  | None => EmptyString
                  end)
                 (Exam.answered_correctly form q))
          (filter (Exam.answered form) questions)).
Proof.
  revert c answers. induction questions as [|q qs IH]; intros c answers.
  - cbn. rewrite app_nil_r. f_equal. lia.
  - cbn [fold_left filter]. rewrite grade_step_eq, IH.
    apply f_equal2.
    + destruct (Exam.answered_correctly form q); cbn [List.length]; lia.
    + destruct (Exam.answered form q); cbn [map];
        rewrite <- ?app_assoc, ?app_nil_r; reflexivity.
Qed.

Lemma grade_eq form attempt_id questions :
  Exam.grade form attempt_id questions
  = (Z.of_nat (List.length (filter (Exam.answered_correctly form) questions)),
     map (fun q =>
            CandidateAnswer.mk attempt_id (MCQQuestion.id q)
              (match form ("question_" ++ PyStr.str_of_int (MCQQuestion.id q))%string with
               | Some a => a
               | None => EmptyString
               end)
              (Exam.answered_correctly form q))
       (filter (Exam.answered form) questions)).
Proof. unfold Exam.grade. rewrite grade_from. reflexivity. Qed.


Local Open Scope Q_scope.

Lemma float_100 : float_of_int 100 == 100 # 1.
Proof. vm_compute. reflexivity. Qed.

Lemma fl_100 : fl (100 # 1) == 100 # 1.
Proof. vm_compute. reflexivity. Qed.

Lemma fl_64 : fl (64 # 1) == 64 # 1.
Proof. vm_compute. reflexivity. Qed.

(** [(c / n) * 100] *)
Lemma percent_bounds c n :
  (0 <= c <= n)%Z -> (0 < n)%Z ->
  0 <= float_mul (int_truediv c n) (float_of_int 100) <= 100 # 1.
Proof.
  intros Hc Hn. destruct (quotient_bounds c n Hc Hn) as [X0 X1].
  unfold float_mul, int_truediv.
  set (q := fl (inject_Z c / inject_Z n)).
  assert (F0 : 0 <= q) by (apply fl_nonneg; exact X0).
  assert (F1 : q <= 1) by (unfold q; rewrite <- fl_one; apply fl_mono; exact X1).
  pose proof float_100 as E. split.
  - apply fl_nonneg. nra.
  - rewrite <- fl_100. apply fl_mono. nra.
Qed.

Lemma percent_full n :
  (0 < n)%Z -> float_mul (int_truediv n n) (float_of_int 100) == 100 # 1.
Proof.
  intro Hn. unfold float_mul, int_truediv.
  assert (QT : 0 < inject_Z n) by (apply (Z_to_Q_lt 0); exact Hn).
  assert (E1 : inject_Z n / inject_Z n == 1).
  { unfold Qdiv. apply Qmult_inv_r. intro E. rewrite E in QT. discriminate QT. }
  assert (E2 : fl (inject_Z n / inject_Z n) == 1)
    by (rewrite (fl_comp _ _ E1); exact fl_one).
  assert (E : fl (inject_Z n / inject_Z n) * float_of_int 100 == 100 # 1)
    by (rewrite E2, float_100; reflexivity).
  rewrite (fl_comp _ _ E). exact fl_100.
Qed.

Lemma percent_positive c n :
  (0 < c)%Z -> (0 < n)%Z -> 0 < float_mul (int_truediv c n) (float_of_int 100).
Proof.
  intros Hc Hn. unfold float_mul, int_truediv.
  apply (Z_to_Q_lt 0) in Hc, Hn. change (inject_Z 0) with 0 in Hc, Hn.
  assert (X : 0 < inject_Z c / inject_Z n).
  { unfold Qdiv. apply Qmult_lt_0_compat; [exact Hc|].
    apply Qinv_lt_0_compat. exact Hn. }
  assert (Q0 : 0 < fl (inject_Z c / inject_Z n))
    by (rewrite (fl_pos _ X); apply round_pos_pos; exact X).
  pose proof float_100 as E.
  assert (Y : 0 < fl (inject_Z c / inject_Z n) * float_of_int 100) by nra.
  rewrite (fl_pos _ Y). apply round_pos_pos. exact Y.
Qed.

Lemma percent_zero n :
  float_mul (int_truediv 0 n) (float_of_int 100) == 0.
Proof.
  unfold float_mul, int_truediv.
  assert (Z0 : inject_Z 0 / inject_Z n == 0)
    by (unfold Qdiv; change (inject_Z 0) with 0; ring).
  rewrite (fl_zero _ Z0).
  assert (Z1 : 0 * float_of_int 100 == 0) by ring.
  rewrite (fl_zero _ Z1). reflexivity.
Qed.

(** One wrong answer keeps the score strictly below 100. *)
Lemma percent_below_100 c n :
  (0 <= c < n)%Z -> (n < 2 ^ 53)%Z ->
  float_mul (int_truediv c n) (float_of_int 100) < 100 # 1.
Proof.
  intros [C0 C1] N. unfold float_mul, int_truediv.
  assert (Hn : (0 < n)%Z) by lia.
  destruct (quotient_bounds c n ltac:(lia) Hn) as [X0 _].
  set (x := inject_Z c / inject_Z n) in *.
  assert (QN0 : 0 < inject_Z n) by (apply (Z_to_Q_lt 0); exact Hn).
  assert (QN1 : inject_Z n < 9007199254740992 # 1)
    by (apply (Z_to_Q_lt n (2 ^ 53)); exact N).
  assert (XT : x * inject_Z n == inject_Z c).
  { unfold x. rewrite Qmult_comm. apply Qmult_div_r. lra. }
  assert (C1' : inject_Z c + 1 <= inject_Z n).
  { assert (L : (c + 1 <= n)%Z) by lia. apply Z_to_Q_le in L.
    rewrite inject_Z_plus in L. exact L. }
  (* the quotient is at most the largest double below 1 *)
  set (r := inject_Z (2 ^ 53 - 1) * pow2 (-53)).
  assert (Rv : r == 9007199254740991 # 9007199254740992) by reflexivity.
  assert (Xr : x <= r).
  { rewrite Rv. apply Qnot_lt_le. intro C.
    assert (C' : (9007199254740991 # 9007199254740992) * inject_Z n
                 < x * inject_Z n) by (apply Qmult_lt_compat_r; lra).
    lra. }
  assert (Fr : fl r == r) by (apply fl_dyadic; lia).
  assert (Qr : fl x <= r) by (rewrite <- Fr; apply fl_mono; exact Xr).
  assert (Q0 : 0 <= fl x) by (apply fl_nonneg; exact X0).
  pose proof float_100 as E.
  set (y := fl x * float_of_int 100).
  assert (Yv : y == fl x * (100 # 1)) by (unfold y; rewrite E; reflexivity).
  assert (Yu : y <= (100 # 1) * r) by lra.
  destruct (Qlt_le_dec y (64 # 1)) as [S|L].
  - assert (M : fl y <= fl (64 # 1)) by (apply fl_mono; lra).
    rewrite fl_64 in M. lra.
  - assert (B : binade y = 6%Z).
    { apply binade_unique.
      - change (pow2 6) with (64 # 1). exact L.
      - change (pow2 (6 + 1)) with (128 # 1). lra. }
    assert (Py : 0 < y) by lra.
    rewrite (fl_pos y Py). unfold round_pos. rewrite B.
    change (52 - 6)%Z with 46%Z.
    destruct (rne_spec (y * pow2 46)) as [R1 _].
    change (pow2 46) with (70368744177664 # 1) in *.
    set (k := inject_Z (rne (y * (70368744177664 # 1)))) in *.
    assert (P46 : pow2 (- (46)) == 1 # 70368744177664) by reflexivity.
    rewrite P46. lra.
Qed.


Local Close Scope Q_scope.

Lemma filter_length_full {B : Type} (p : B -> bool) (l : list B) :
  List.length (filter p l) = List.length l <-> forall x, In x l -> p x = true.
Proof.
  induction l as [|x l IH]; cbn [filter List.length].
  - split; [intros _ y [] | reflexivity].
  - pose proof (filter_length_le p l) as Le.
    destruct (p x) eqn:E; cbn [List.length].
    + split.
      * intros H y [<-|Hy]; [exact E|]. apply IH; [lia | exact Hy].
      * intro H. f_equal. apply IH. intros y Hy. apply H. right. exact Hy.
    + split; [lia|]. intro H. rewrite (H x (or_introl eq_refl)) in E. discriminate.
Qed.

Lemma filter_length_zero {B : Type} (p : B -> bool) (l : list B) :
  List.length (filter p l) = 0%nat <-> forall x, In x l -> p x = false.
Proof.
  rewrite length_zero_iff_nil. apply SkillGapProperties.filter_nil_iff.
Qed.

(** The score of a submitted exam lies between 0 and 100; it is 100 exactly
    when every question is answered with its correct answer, and 0 exactly
    when none is: a question left unanswered counts as a wrong one. *)
Theorem submitted_score_bounds_and_extremes (form : string -> option string)
  (attempt_id : Z) (questions : list MCQQuestion.t) :
  questions <> [] ->
  Z.of_nat (List.length questions) < 2 ^ 53 ->
  let score := Exam.submitted_score form attempt_id questions in
  (0 <= score <= 100 # 1)%Q
  /\ ((score == 100 # 1)%Q
      <-> forall q, In q questions -> Exam.answered_correctly form q = true)
  /\ ((score == 0)%Q
      <-> forall q, In q questions -> Exam.answered_correctly form q = false).
Proof.
  intros NE B score. unfold score, Exam.submitted_score.
  rewrite grade_eq. cbn [fst]. unfold Exam.exam_score.
  destruct questions as [|q0 qs] eqn:Q; [contradiction|]. rewrite <- Q in *.
  set (n := Z.of_nat (List.length questions)) in *.
  set (c := Z.of_nat (List.length (filter (Exam.answered_correctly form) questions))).
  assert (Hn : 0 < n) by (unfold n; rewrite Q; cbn [List.length]; lia).
  assert (Hc : 0 <= c <= n).
  { unfold c, n. pose proof (filter_length_le (Exam.answered_correctly form) questions).
    lia. }
  split; [apply percent_bounds; assumption|]. split.
  - rewrite <- filter_length_full. fold c. split.
    + intro E. destruct (Z.eq_dec c n) as [Ec|Nc].
      * unfold c, n in Ec. lia.
      * exfalso. pose proof (percent_below_100 c n ltac:(lia) B) as L.
        rewrite E in L. discriminate L.
    + intro E. assert (Ec : c = n) by (unfold c, n; lia).
      rewrite Ec. apply percent_full. exact Hn.
  - rewrite <- filter_length_zero. split.
    + intro E. destruct (Z.eq_dec c 0) as [Ec|Nc].
      * unfold c in Ec. lia.
      * exfalso. pose proof (percent_positive c n ltac:(lia) Hn) as P.
        rewrite E in P. discriminate P.
    + intro E. assert (Ec : c = 0) by (unfold c; lia).
      rewrite Ec. apply percent_zero.
Qed.


Lemma submitted_score_bounds_and_extremes_witness :
  let questions := [MCQQuestion.mk 1 1 "A"; MCQQuestion.mk 2 1 "C"] in
  let form := fun key : string =>
                if String.eqb key "question_1" then Some "A"%string
                else if String.eqb key "question_2" then Some "C"%string
                else None in
  Z.of_nat (List.length questions) < 2 ^ 53
  /\ (Exam.submitted_score form 9 questions == 100 # 1)%Q.
Proof.
  intros questions form.
  assert (B : Z.of_nat (List.length questions) < 2 ^ 53) by (vm_compute; reflexivity).
  split; [exact B|].
  apply (proj1 (proj2 (submitted_score_bounds_and_extremes form 9 questions
                         ltac:(discriminate) B))).
  intros q [<-|[<-|[]]]; reflexivity.
Defined.

Lemma length_filter_map {B C : Type} (p : C -> bool) (g : B -> C) (l : list B) :
  List.length (filter p (map g l)) = List.length (filter (fun x => p (g x)) l).
Proof.
  induction l as [|x l IH]; [reflexivity|].
  cbn [map filter]. destruct (p (g x)); cbn [List.length]; rewrite IH; reflexivity.
Qed.

Lemma filter_implied {B : Type} (p q : B -> bool) (l : list B) :
  (forall x, p x = true -> q x = true) ->
  filter p (filter q l) = filter p l.
Proof.
  intro H. induction l as [|x l IH]; [reflexivity|].
  cbn [filter]. destruct (q x) eqn:Eq; cbn [filter].
  - rewrite IH. reflexivity.
  - destruct (p x) eqn:Ep; [|exact IH]. rewrite (H x Ep) in Eq. discriminate.
Qed.

Lemma answered_correctly_answered form q :
  Exam.answered_correctly form q = true -> Exam.answered form q = true.
Proof.
  unfold Exam.answered_correctly, Exam.answered.
  destruct (form _) as [a|]; [|discriminate].
  intro H. apply andb_true_iff in H. exact (proj1 H).
Qed.

(** The grading loop adds to the session one answer row for each question
    the form answers, in the order of the questions and none for the
    others; every row belongs to the attempt and carries a non-empty
    selection; and [correct_answers] is the number of rows marked
    correct. *)
Lemma graded_answers (form : string -> option string)
  (attempt_id : Z) (questions : list MCQQuestion.t) :
  let correct_answers := fst (Exam.grade form attempt_id questions) in
  let answers := snd (Exam.grade form attempt_id questions) in
  map CandidateAnswer.question_id answers
  = map MCQQuestion.id (filter (Exam.answered form) questions)
  /\ correct_answers
     = Z.of_nat (List.length (filter CandidateAnswer.is_correct answers))
  /\ (forall a, In a answers ->
        CandidateAnswer.attempt_id a = attempt_id
        /\ CandidateAnswer.selected_answer a <> EmptyString)
  /\ (List.length answers <= List.length questions)%nat.
Proof.
  intros correct_answers answers. unfold correct_answers, answers.
  rewrite grade_eq. cbn [fst snd]. split; [|split; [|split]].
  - rewrite map_map. reflexivity.
  - rewrite length_filter_map. cbn [CandidateAnswer.is_correct].
    rewrite (filter_implied _ _ _ (answered_correctly_answered form)). reflexivity.
  - intros a Ha. apply in_map_iff in Ha. destruct Ha as (q & <- & Hq).
    apply filter_In in Hq. destruct Hq as [_ Hq].
    cbn [CandidateAnswer.attempt_id CandidateAnswer.selected_answer].
    split; [reflexivity|]. unfold Exam.answered in Hq.
    destruct (form _) as [s|]; [|discriminate].
    destruct s; [discriminate Hq | discriminate].
  - rewrite length_map. apply filter_length_le.
Qed.

End ExamProperties.

(** ** The route [submit_exam] *)
Module SubmissionProperties.
Import SubmitExam.

Lemma attempt_has_no_exam : ExamAttempt.hasattr "exam" = false.
Proof. reflexivity. Qed.

Section Route.
Variable key_of_text : string -> option Z.
Variables utcnow_completed utcnow_spent : Z.
Variable with_exam : ExamAttempt.t -> Q -> ExamStore.t -> Attempted.

(** The [try] block always raises, with the answers of the loop pending. *)
Lemma try_block_fails form attempt s :
  exists e s1,
    try_block utcnow_completed utcnow_spent with_exam form attempt s
    = Failed e s1
    /\ ExamStore.exam_attempts s1 = ExamStore.exam_attempts s
    /\ ExamStore.mcq_questions s1 = ExamStore.mcq_questions s
    /\ ExamStore.candidate_answers s1 = ExamStore.candidate_answers s
    /\ ExamStore.flashes s1 = ExamStore.flashes s
    /\ ExamStore.new s1
       = ExamStore.new s
         ++ snd (Exam.grade form (ExamAttempt.id attempt) (questions_of attempt s)).
Proof.
  unfold try_block. cbn [ExamAttempt.started_at].
  destruct (ExamAttempt.started_at attempt) as [started_at|].
  - rewrite attempt_has_no_exam. eexists. eexists.
    split; [reflexivity|]. repeat split.
  - eexists. eexists. split; [reflexivity|]. repeat split.
Qed.

End Route.

(** [submit_exam] never stores anything: whatever the request, the tables
    are afterwards as they were.  For a logged-in candidate and an attempt
    that is found and not yet completed, the grading loop adds to the
    session one answer row per question the form answers, in question
    order, each with the attempt's id and a non-empty selection; the [try]
    block then raises (the lookup of the application reads [attempt.exam],
    which [ExamAttempt] does not have), and the handler rolls the session
    back, flashes the error and redirects to the exam: none of the rows is
    stored and none is left pending. *)
Theorem submit_exam_stores_nothing
  (key_of_text : string -> option Z) (utcnow_completed utcnow_spent : Z)
  (with_exam : ExamAttempt.t -> Q -> ExamStore.t -> Attempted)
  (candidate : bool) (form : string -> option string) (s : ExamStore.t) :
  let out :=
    submit_exam key_of_text utcnow_completed utcnow_spent with_exam
      candidate form s in
  (ExamStore.exam_attempts (snd out) = ExamStore.exam_attempts s
   /\ ExamStore.mcq_questions (snd out) = ExamStore.mcq_questions s
   /\ ExamStore.candidate_answers (snd out) = ExamStore.candidate_answers s)
  /\ forall text k attempt,
       candidate = true ->
       form "attempt_id"%string = Some text ->
       key_of_text text = Some k ->
       query_get ExamAttempt.id (ExamStore.exam_attempts s) k = Some attempt ->
       ExamAttempt.status attempt <> Some ExamAttempt.completed ->
       let questions := questions_of attempt s in
       let answers := snd (Exam.grade form (ExamAttempt.id attempt) questions) in
       exists e s1,
         try_block utcnow_completed utcnow_spent with_exam form attempt s
         = Failed e s1
         /\ ExamStore.new s1 = ExamStore.new s ++ answers
         /\ map CandidateAnswer.question_id answers
            = map MCQQuestion.id (filter (Exam.answered form) questions)
         /\ (forall a, In a answers ->
               CandidateAnswer.attempt_id a = ExamAttempt.id attempt
               /\ CandidateAnswer.selected_answer a <> EmptyString)
         /\ out
            = (redirect_take_exam (ExamAttempt.exam_id attempt),
               ExamStore.mk (ExamStore.exam_attempts s)
                 (ExamStore.mcq_questions s) (ExamStore.candidate_answers s)
                 [] []
                 (ExamStore.flashes s
                  ++ [(("Error submitting exam: " ++ str_of_error e)%string,
                       "error"%string)])).
Proof.
  intro out. split.
  - unfold out, submit_exam.
    destruct candidate; cbn [negb]; [|auto].
    destruct (form "attempt_id"%string) as [text|]; [|auto].
    destruct (key_of_text text) as [k|]; cbn [option_map]; [|auto].
    destruct (query_get ExamAttempt.id (ExamStore.exam_attempts s) k)
      as [attempt|]; [|auto].
    destruct (try_block_fails utcnow_completed utcnow_spent with_exam
                form attempt s)
      as (e & s1 & T & A & M & C & _).
    rewrite T.
    destruct (ExamAttempt.status attempt) as [[| |]|]; cbn; auto.
  - intros text k attempt Cand F K G NC questions answers.
    destruct (try_block_fails utcnow_completed utcnow_spent with_exam
                form attempt s)
      as (e & s1 & T & A & M & C & Fl & N).
    destruct (ExamProperties.graded_answers form (ExamAttempt.id attempt)
                (questions_of attempt s))
      as (Ids & _ & Rows & _).
    exists e, s1. split; [exact T|]. split; [exact N|].
    split; [exact Ids|]. split; [exact Rows|].
    unfold out, submit_exam. rewrite Cand, F, K. cbn [negb option_map].
    rewrite G, T. unfold flash, rollback.
    cbn [ExamStore.exam_attempts ExamStore.mcq_questions
         ExamStore.candidate_answers ExamStore.new ExamStore.dirty
         ExamStore.flashes].
    rewrite A, M, C, Fl.
    destruct (ExamAttempt.status attempt) as [[| |]|]; try reflexivity.
    exfalso. apply NC. reflexivity.
Qed.

Lemma submit_exam_stores_nothing_witness :
  submit_exam ExamExamples.sample_key 1600 1600
    (fun _ _ s => Done (redirect_exam_result "5") s)
    true ExamExamples.sample_form ExamExamples.sample_store
  = (redirect_take_exam 3,
     ExamStore.mk (ExamStore.exam_attempts ExamExamples.sample_store)
       (ExamStore.mcq_questions ExamExamples.sample_store) [] [] []
       [("Error submitting exam: 'ExamAttempt' object has no attribute 'exam'"%string,
         "error"%string)])
  /\ exists e s1,
       try_block 1600 1600 (fun _ _ s => Done (redirect_exam_result "5") s)
         ExamExamples.sample_form ExamExamples.sample_attempt
         ExamExamples.sample_store
       = Failed e s1
       /\ map CandidateAnswer.question_id (ExamStore.new s1) = [1; 2].
Proof.
  destruct (proj2 (submit_exam_stores_nothing ExamExamples.sample_key 1600 1600
                     (fun _ _ s => Done (redirect_exam_result "5") s)
                     true ExamExamples.sample_form ExamExamples.sample_store)
              "5"%string 5 ExamExamples.sample_attempt
              eq_refl eq_refl eq_refl eq_refl
              ltac:(discriminate))
    as (e & s1 & T & N & _).
  split.
  - vm_compute. reflexivity.
  - exists e, s1. split; [exact T|]. rewrite N. vm_compute. reflexivity.
Defined.

End SubmissionProperties.

(** ** Conversation threads *)
Module ThreadProperties.
Local Open Scope string_scope.

(** [str(n)] can be read back. *)
Lemma str_of_int_injective a b :
  PyStr.str_of_int a = PyStr.str_of_int b -> a = b.
Proof.
  unfold PyStr.str_of_int. intro H.
  assert (P : forall z, NilZero.int_of_string (NilZero.string_of_int (Z.to_int z))
                        = Some (Z.to_int z)).
  { intro z. apply NilZero.isi.
    - destruct z; simpl; try discriminate.
      intro E. injection E as E. revert E. apply (DecimalPos.Unsigned.to_uint_nonnil p).
    - destruct z; simpl; try discriminate.
      intro E. injection E as E. revert E. apply (DecimalPos.Unsigned.to_uint_nonnil p). }
  pose proof (P a) as Pa. rewrite H, (P b) in Pa. injection Pa as E.
  rewrite <- (DecimalZ.of_to a), <- (DecimalZ.of_to b), E. reflexivity.
Qed.


Lemma digits_have_no_underscore d :
  Chars.has_char Messaging.underscore (NilEmpty.string_of_uint d) = false.
Proof.
  induction d; cbn [NilEmpty.string_of_uint Chars.has_char];
    try rewrite IHd; reflexivity.
Qed.

Lemma str_of_int_no_underscore n :
  Chars.has_char Messaging.underscore (PyStr.str_of_int n) = false.
Proof.
  unfold PyStr.str_of_int, NilZero.string_of_int, NilZero.string_of_uint.
  destruct (Z.to_int n) as [d|d]; destruct d;
    cbn [NilEmpty.string_of_uint Chars.has_char];
    try rewrite digits_have_no_underscore; reflexivity.
Qed.

(** Two texts free of a separator are determined by their join. *)
Lemma join_injective c s1 s2 t1 t2 :
  Chars.has_char c s1 = false -> Chars.has_char c s2 = false ->
  s1 ++ String c t1 = s2 ++ String c t2 -> s1 = s2 /\ t1 = t2.
Proof.
  revert s2. induction s1 as [|x s1 IH]; intros s2 H1 H2 E.
  - destruct s2 as [|y s2]; cbn in E.
    + injection E as E. split; [reflexivity | exact E].
    + injection E as Ec _. cbn in H2. rewrite <- Ec, Ascii.eqb_refl in H2.
      discriminate H2.
  - destruct s2 as [|y s2]; cbn in E.
    + injection E as Ec _. cbn in H1. rewrite Ec, Ascii.eqb_refl in H1.
      discriminate H1.
    + injection E as Ec E. cbn in H1, H2.
      apply orb_false_iff in H1, H2.
      destruct (IH s2 (proj2 H1) (proj2 H2) E) as [Es Et].
      subst. split; reflexivity.
Qed.

(** When the form carries no thread id, the thread of a message does not
    depend on which of the two users writes, and the threads of two
    different pairs of users are different. *)
Theorem generated_threads_identify_pairs (a b c d : Z) :
  Messaging.thread_id_of None a b = Messaging.thread_id_of None b a
  /\ (Messaging.thread_id_of None a b = Messaging.thread_id_of None c d ->
      (a = c /\ b = d) \/ (a = d /\ b = c)).
Proof.
  unfold Messaging.thread_id_of, Messaging.generated_thread_id. split.
  - rewrite (Z.min_comm a b), (Z.max_comm a b). reflexivity.
  - intro E.
    change ("_" ++ PyStr.str_of_int (Z.max a b))
      with (String Messaging.underscore (PyStr.str_of_int (Z.max a b))) in E.
    change ("_" ++ PyStr.str_of_int (Z.max c d))
      with (String Messaging.underscore (PyStr.str_of_int (Z.max c d))) in E.
    apply join_injective in E; try apply str_of_int_no_underscore.
    destruct E as [E1 E2].
    apply str_of_int_injective in E1, E2. lia.
Qed.

Lemma generated_threads_identify_pairs_witness :
  Messaging.thread_id_of None 12 7 = "7_12"
  /\ Messaging.thread_id_of None 7 12 = "7_12".
Proof.
  split; [reflexivity|].
  rewrite <- (proj1 (generated_threads_identify_pairs 12 7 0 0)). reflexivity.
Defined.

End ThreadProperties.

(** ** Upload file names *)
Module UploadProperties.
Import Upload.
Local Open Scope string_scope.

Lemma contains_char s c :
  PyStr.contains s (String c EmptyString) = Chars.has_char c s.
Proof.
  induction s as [|d s IH]; [reflexivity|].
  cbn [PyStr.contains PyStr.startswith Chars.has_char].
  rewrite IH, andb_true_r, Ascii.eqb_sym. reflexivity.
Qed.

Lemma after_last_none sep s :
  after_last sep s = None <-> Chars.has_char sep s = false.
Proof.
  induction s as [|d s IH]; cbn [after_last Chars.has_char]; [tauto|].
  destruct (after_last sep s) as [t|].
  - split; [discriminate|]. intro H. apply orb_false_iff in H.
    destruct H as [_ H]. apply IH in H. discriminate H.
  - destruct (Ascii.eqb d sep); cbn [orb].
    + split; discriminate.
    + split; [intros _; apply IH; reflexivity | reflexivity].
Qed.

(** The last separator splits the text, and what follows it holds none. *)
Lemma after_last_some sep s t :
  after_last sep s = Some t ->
  s = before_last sep s ++ String sep t /\ Chars.has_char sep t = false.
Proof.
  revert t. induction s as [|d s IH]; intros t H; [discriminate|].
  cbn [after_last before_last] in *.
  destruct (after_last sep s) as [t'|] eqn:A.
  - injection H as <-. destruct (IH t' eq_refl) as [E N].
    split; [|exact N]. cbn. rewrite <- E. reflexivity.
  - destruct (Ascii.eqb_spec d sep) as [->|NE]; [|discriminate].
    injection H as <-. split; [reflexivity|]. apply after_last_none. exact A.
Qed.

Lemma after_last_app sep stem ext :
  Chars.has_char sep ext = false ->
  after_last sep (stem ++ String sep ext) = Some ext.
Proof.
  intro N. induction stem as [|d stem IH]; cbn [append after_last].
  - rewrite (proj2 (after_last_none sep ext) N), Ascii.eqb_refl. reflexivity.
  - rewrite IH. reflexivity.
Qed.

Lemma in_allowed_In x : in_allowed x = true <-> In x ALLOWED_EXTENSIONS.
Proof.
  unfold in_allowed. rewrite existsb_exists. split.
  - intros (y & Hy & E). apply String.eqb_eq in E. subst. exact Hy.
  - intro H. exists x. split; [exact H | apply String.eqb_refl].
Qed.

Section WithLower.
Variable str_lower : string -> string.

Lemma allowed_file_eq filename :
  allowed_file str_lower filename
  = Some (match after_last dot filename with
          | Some ext => in_allowed (str_lower ext)
          | None => false
          end).
Proof.
  unfold allowed_file, rsplit1. rewrite contains_char.
  destruct (after_last dot filename) as [ext|] eqn:A.
  - assert (H : Chars.has_char dot filename = true).
    { destruct (Chars.has_char dot filename) eqn:H; [reflexivity|].
      apply after_last_none in H. congruence. }
    rewrite H. reflexivity.
  - rewrite (proj1 (after_last_none dot filename) A). reflexivity.
Qed.

(** [allowed_file] never fails on its index, and it accepts a name exactly
    when the text after the last dot, lower-cased, is one of the allowed
    extensions; a name without a dot is refused. *)
Theorem allowed_file_by_last_extension (filename : string) :
  (exists b, allowed_file str_lower filename = Some b)
  /\ (allowed_file str_lower filename = Some true
      <-> exists stem ext,
            filename = stem ++ String dot ext
            /\ Chars.has_char dot ext = false
            /\ In (str_lower ext) ALLOWED_EXTENSIONS).
Proof.
  rewrite allowed_file_eq. split; [eexists; reflexivity|]. split.
  - intro H. injection H as H.
    destruct (after_last dot filename) as [ext|] eqn:A; [|discriminate].
    destruct (after_last_some dot filename ext A) as [E N].
    exists (before_last dot filename), ext.
    split; [exact E|]. split; [exact N|]. apply in_allowed_In. exact H.
  - intros (stem & ext & -> & N & I).
    rewrite (after_last_app dot stem ext N).
    apply in_allowed_In in I. rewrite I. reflexivity.
Qed.

End WithLower.

Lemma allowed_file_by_last_extension_witness :
  allowed_file PyStr.ascii_lower "Resume.final.PDF" = Some true
  /\ allowed_file PyStr.ascii_lower "resume.pdf.exe" = Some false
  /\ allowed_file PyStr.ascii_lower "resume" = Some false.
Proof.
  split; [|split; reflexivity].
  apply (proj2 (allowed_file_by_last_extension PyStr.ascii_lower "Resume.final.PDF")).
  exists "Resume.final", "PDF". split; [reflexivity|]. split; [reflexivity|].
  left. reflexivity.
Defined.


Lemma allowed_extension_shape e :
  In e ALLOWED_EXTENSIONS -> PyStr.truthy e = true /\ Chars.has_char dot e = false.
Proof.
  intro H. repeat (destruct H as [<-|H]; [split; reflexivity|]). destruct H.
Qed.

(** [generate_unique_filename] never fails on its index; a name without a
    dot becomes the bare hexadecimal name; and when lower-casing leaves the
    four allowed extensions as they are, the new name of an allowed file is
    allowed again. *)
Theorem unique_filename_stays_allowed (str_lower : string -> string)
  (hex filename : string) :
  (forall e, In e ALLOWED_EXTENSIONS -> str_lower e = e) ->
  exists name,
    generate_unique_filename str_lower hex filename = Some name
    /\ (Chars.has_char dot filename = false -> name = hex)
    /\ (allowed_file str_lower filename = Some true ->
        allowed_file str_lower name = Some true).
Proof.
  intro Fix. unfold generate_unique_filename, rsplit1.
  rewrite contains_char, allowed_file_eq.
  destruct (after_last dot filename) as [ext|] eqn:A.
  - assert (H : Chars.has_char dot filename = true).
    { destruct (Chars.has_char dot filename) eqn:H; [reflexivity|].
      apply after_last_none in H. congruence. }
    rewrite H. cbn [nth_error option_map].
    eexists. split; [reflexivity|]. split; [discriminate|].
    intro Al. injection Al as Al. apply in_allowed_In in Al.
    destruct (allowed_extension_shape _ Al) as [T N]. rewrite T.
    rewrite allowed_file_eq.
    change (hex ++ String dot "" ++ str_lower ext)
      with (hex ++ String dot (str_lower ext)).
    rewrite (after_last_app dot hex _ N), (Fix _ Al).
    apply in_allowed_In in Al. rewrite Al. reflexivity.
  - rewrite (proj1 (after_last_none dot filename) A). cbn [PyStr.truthy].
    eexists. split; [reflexivity|]. split; [reflexivity | discriminate].
Qed.

Lemma unique_filename_stays_allowed_witness :
  generate_unique_filename PyStr.ascii_lower "0f3a" "Resume.final.PDF"
  = Some "0f3a.pdf"
  /\ exists name,
       generate_unique_filename PyStr.ascii_lower "0f3a" "Resume.final.PDF"
       = Some name
       /\ allowed_file PyStr.ascii_lower name = Some true.
Proof.
  split; [reflexivity|].
  destruct (unique_filename_stays_allowed PyStr.ascii_lower "0f3a" "Resume.final.PDF")
    as (name & G & _ & K).
  - intros e H. repeat (destruct H as [<-|H]; [reflexivity|]). destruct H.
  - exists name. split; [exact G | apply K; reflexivity].
Defined.

End UploadProperties.


(** ** More on notifications and recommendations *)
Module SinkProperties.
Import NotifierFacts RecommendationFacts.

(** [create_notification] never raises.  It asks for one commit and leaves
    no pending row behind: an accepted commit stores the rows that were
    pending before the call and then the new notification, a refused one
    stores nothing and discards them all; the outcome is logged either
    way. *)
Theorem create_notification_never_raises (user_id : Z) (title message : string)
  (notification_type : NotificationType) (action_url : option string)
  (w : World) :
  exists w',
    create_notification user_id title message notification_type action_url w
    = Returned tt w'
    /\ session_new w' = []
    /\ database w' = database w
    /\ commits w' = S (commits w)
    /\ match commit_fault w (commits w) with
       | None =>
           notifications w'
           = notifications w ++ session_new w
             ++ [Notification.mk user_id title message notification_type
                   action_url]
           /\ logger w' = logger w ++ [LogInfo (created_text user_id title)]
       | Some e =>
           notifications w' = notifications w
           /\ logger w' = logger w ++ [LogError (error_text e)]
       end.
Proof.
  unfold create_notification, try_except, bind, db_session_add,
    db_session_commit, db_session_rollback, logger_info, logger_error, log_record.
  cbn [database notifications session_new logger commits commit_fault].
  destruct (commit_fault w (commits w)) as [e|]; eexists;
    (split; [reflexivity|]);
    cbn [database notifications session_new logger commits commit_fault];
    repeat split; reflexivity.
Qed.

Lemma active_candidates_In db c :
  In c (active_candidates db) ->
  In c (candidate_profiles db)
  /\ exists u, In u (users db)
               /\ User.id u = CandidateProfile.user_id c
               /\ User.is_active u = true.
Proof.
  unfold active_candidates. intro H. apply in_flat_map in H.
  destruct H as (c' & Hc & H). apply in_map_iff in H.
  destruct H as (u & <- & Hu). apply filter_In in Hu. destruct Hu as [Hu T].
  apply andb_true_iff in T. destruct T as [E A]. apply Z.eqb_eq in E.
  split; [exact Hc|]. exists u. auto.
Qed.

(** Whatever the sink does, every notification a batch adds goes to the
    user of an active account whose candidate scores at least 70, and it is
    of the category [job_match]: closed accounts and weaker matches are
    never notified. *)
Theorem only_strong_active_matches_are_notified (str_lower : string -> string)
  (job_id : Z) (job : JobPosting.t) (w w' : World) :
  session_new w = [] ->
  query_get JobPosting.id (job_postings (database w)) job_id = Some job ->
  notify_matching_candidates str_lower job_id w = Returned tt w' ->
  exists added,
    notifications w' = notifications w ++ added
    /\ forall n, In n added ->
         Notification.notification_type n = job_match
         /\ exists c u,
              In c (candidate_profiles (database w))
              /\ In u (users (database w))
              /\ User.id u = CandidateProfile.user_id c
              /\ User.is_active u = true
              /\ Notification.user_id n = User.id u
              /\ 70 <= calculate_job_match_score str_lower (database w)
                         (CandidateProfile.id c) job_id.
Proof.
  intros Clean J R.
  destruct (notify_matching_candidates_effect str_lower job_id job w Clean J)
    as (w1 & R1 & _ & _ & _ & N).
  rewrite R in R1. injection R1 as <-.
  eexists. split; [exact N|].
  intros n Hn. apply in_map_iff in Hn. destruct Hn as ([k c] & <- & Hn).
  apply filter_In in Hn. destruct Hn as [Hn _].
  unfold Spec.attempts in Hn. apply in_combine_r in Hn. cbn [snd].
  apply announced_In in Hn. destruct Hn as [Ha Sc].
  apply active_candidates_In in Ha. destruct Ha as (Hc & u & Hu & E & A).
  split; [reflexivity|]. exists c, u.
  cbn [Spec.match_notification Notification.user_id]. auto 10.
Qed.

Lemma only_strong_active_matches_are_notified_witness :
  exists added,
    map Notification.user_id added = [13]
    /\ forall n, In n added -> Notification.notification_type n = job_match.
Proof.
  pose (w1 := match notify_matching_candidates PyStr.ascii_lower 1
                      (Examples.crowd_world Examples.first_commit_fails)
              with Returned _ x => x | Raised _ x => x end).
  assert (R : notify_matching_candidates PyStr.ascii_lower 1
                (Examples.crowd_world Examples.first_commit_fails)
              = Returned tt w1) by (vm_compute; reflexivity).
  destruct (only_strong_active_matches_are_notified PyStr.ascii_lower 1
              Examples.berlin_job
              (Examples.crowd_world Examples.first_commit_fails)
              w1 eq_refl eq_refl R)
    as (added & E & P).
  exists added. split.
  - change (notifications (Examples.crowd_world Examples.first_commit_fails))
      with (@nil Notification.t) in E.
    cbn [app] in E. rewrite <- E. vm_compute. reflexivity.
  - intros n Hn. exact (proj1 (P n Hn)).
Defined.

End SinkProperties.

(** ** What the recommendations leave out *)
Module RecommendationCoverage.
Import RecommendationFacts.

Lemma available_jobs_complete db candidate_id j c :
  In j (job_postings db) ->
  In c (companies db) ->
  JobPosting.company_id j = Company.id c ->
  JobPosting.is_active j = true ->
  (forall a, In a (job_applications db) ->
             JobApplication.candidate_id a = candidate_id ->
             JobApplication.job_id a <> JobPosting.id j) ->
  In (j, c) (available_jobs db candidate_id).
Proof.
  intros Hj Hc E Act App. unfold available_jobs. apply in_flat_map.
  exists j. split; [exact Hj|]. rewrite Act.
  destruct (py_in (JobPosting.id j) (applied_job_ids db candidate_id)) eqn:P.
  - exfalso. unfold py_in in P. apply existsb_exists in P.
    destruct P as (k & Hk & Ek). apply Z.eqb_eq in Ek. subst k.
    unfold applied_job_ids in Hk. apply in_map_iff in Hk.
    destruct Hk as (a & Ja & Ha). apply filter_In in Ha. destruct Ha as [Ha Ca].
    apply Z.eqb_eq in Ca. exact (App a Ha Ca Ja).
  - cbn [andb negb]. apply in_map. apply filter_In. split; [exact Hc|].
    apply Z.eqb_eq. exact E.
Qed.

Lemma firstn_short {B : Type} n (l : list B) :
  (List.length (firstn n l) < n)%nat -> firstn n l = l.
Proof.
  intro H. apply firstn_all2. rewrite length_firstn in H. lia.
Qed.

(** A posting is dropped for one of the reasons the code gives and for no
    other: every entry joins a posting with the row of its company, so a
    posting whose company row is missing is never recommended; and when
    fewer than ten entries come back, every active posting with a company
    row that the candidate has not applied to and that scores above 30 is
    among them, with that score. *)
Theorem recommendations_drop_nothing_else (str_lower : string -> string)
  (db : Database) (candidate_id : Z) (candidate : CandidateProfile.t) :
  query_get CandidateProfile.id (candidate_profiles db) candidate_id
  = Some candidate ->
  let result := get_job_recommendations str_lower db candidate_id in
  (forall m, In m result ->
     In (company m) (companies db)
     /\ JobPosting.company_id (job m) = Company.id (company m))
  /\ ((List.length result < 10)%nat ->
      forall j c,
        In j (job_postings db) ->
        In c (companies db) ->
        JobPosting.company_id j = Company.id c ->
        JobPosting.is_active j = true ->
        (forall a, In a (job_applications db) ->
                   JobApplication.candidate_id a = candidate_id ->
                   JobApplication.job_id a <> JobPosting.id j) ->
        30 < calculate_job_match_score str_lower db candidate_id (JobPosting.id j) ->
        In (mkJobMatch j c
              (calculate_job_match_score str_lower db candidate_id
                 (JobPosting.id j)))
           result).
Proof.
  intros Q result. unfold result, get_job_recommendations. rewrite Q. split.
  - intros m Hm. apply firstn_In_inv, sort_desc_In in Hm.
    apply job_matches_In in Hm. destruct Hm as (Av & _).
    apply available_jobs_In in Av. destruct Av as (_ & Hc & E & _).
    split; assumption.
  - intros Short j c Hj Hc E Act App Sc.
    rewrite (firstn_short _ _ Short). apply sort_desc_In.
    unfold job_matches. apply in_flat_map. exists (j, c).
    split; [apply available_jobs_complete; assumption|].
    cbn [fst snd]. apply Z.ltb_lt in Sc. rewrite Sc. left. reflexivity.
Qed.

Lemma recommendations_drop_nothing_else_witness :
  query_get CandidateProfile.id (candidate_profiles Examples.board_db) 1
  = Some Examples.berlin_candidate
  /\ forall m,
       In m (get_job_recommendations PyStr.ascii_lower Examples.board_db 1) ->
       In (company m) (companies Examples.board_db).
Proof.
  split; [reflexivity|]. intros m Hm.
  exact (proj1 (proj1 (recommendations_drop_nothing_else PyStr.ascii_lower
                         Examples.board_db 1 Examples.berlin_candidate eq_refl)
                  m Hm)).
Defined.

End RecommendationCoverage.
